(** * Claude Form Assistant: a shallow embedding of the extension's scripts

    The development follows the repository file by file:
    - [JsString], [JsValue]: the JavaScript data the scripts compute with
      (UTF-16 strings as lists of code units, parsed JSON values, exceptions);
    - [Async]: programs with suspension points ([await]) as trees of events;
    - [Background]: background.js (the chat-service client, [askClaude]);
    - [ContextHandler]: context-handler.js, in its two variants;
    - [Dom]: the part of the DOM that the field detector, the question
      inferrer and the inserter read and write;
    - [Content]: content.js ([handleClaudeButtonClick] and
      [insertTextIntoElement]), in its two variants.

    All definitions come first; the theorems follow in the second half. *)

From Stdlib Require Import QArith Ascii String NArith DecimalString.
From stdpp Require Import base option list gmap strings.
From Stdlib Require Import Lia Btauto.

Set Default Proof Using "Type".
Set Warnings "-register-all,-abstract-large-number".
Local Open Scope nat_scope.

(* ===================================================================== *)
(** * JavaScript strings *)
(* ===================================================================== *)

Module JsString.

(** A JavaScript string is a sequence of UTF-16 code units; [length],
    [substring], [includes] and the regular expressions of the scripts all
    work on code units. *)
Definition jsstring := list N.

(** ASCII literals of the source text. *)
Fixpoint lit (s : string) : jsstring :=
  match s with
  | EmptyString => []
  | String a s' => N_of_ascii a :: lit s'
  end.

#[global] Arguments lit : simpl never.

Definition LF : N := 10%N.
Definition SP : N := 32%N.

Fixpoint jseqb (a b : jsstring) : bool :=
  match a, b with
  | [], [] => true
  | x :: a', y :: b' => N.eqb x y && jseqb a' b'
  | _, _ => false
  end.

(** [s.startsWith(p)] *)
Fixpoint starts_with (p s : jsstring) : bool :=
  match p, s with
  | [], _ => true
  | x :: p', y :: s' => N.eqb x y && starts_with p' s'
  | _ :: _, [] => false
  end.

(** [s.indexOf(p)]: position of the first occurrence of [p] in [s]. *)
Fixpoint index_of (p s : jsstring) : option nat :=
  if starts_with p s then Some 0
  else match s with
       | [] => None
       | _ :: s' => S <$> index_of p s'
       end.

(** [s.indexOf(p, from)] *)
Definition index_from (from : nat) (p s : jsstring) : option nat :=
  (fun i => from + i) <$> index_of p (drop from s).

(** [s.includes(p)] *)
Definition includes (s p : jsstring) : bool :=
  match index_of p s with Some _ => true | None => false end.

(** [s.substring(a, b)] for [a <= b] *)
Definition substring (a b : nat) (s : jsstring) : jsstring :=
  take (b - a) (drop a s).

(** White space and line terminators, as [String.prototype.trim] removes
    them (ECMAScript WhiteSpace and LineTerminator). *)
Definition is_js_whitespace (c : N) : bool :=
  ((9 <=? c) && (c <=? 13) || (c =? 32) || (c =? 160) || (c =? 5760)
   || (8192 <=? c) && (c <=? 8202) || (c =? 8232) || (c =? 8233)
   || (c =? 8239) || (c =? 8287) || (c =? 12288) || (c =? 65279))%N.

Fixpoint trim_start (s : jsstring) : jsstring :=
  match s with
  | c :: s' => if is_js_whitespace c then trim_start s' else s
  | [] => []
  end.

Definition trim_end (s : jsstring) : jsstring := reverse (trim_start (reverse s)).

(** [s.trim()] *)
Definition trim (s : jsstring) : jsstring := trim_end (trim_start s).

(** [parts.join(sep)] *)
Fixpoint join (sep : jsstring) (parts : list jsstring) : jsstring :=
  match parts with
  | [] => []
  | [p] => p
  | p :: rest => p ++ sep ++ join sep rest
  end.

(** [s.split(c)] for a separator of one code unit; the result is never
    empty: [''.split('\n')] is [['']]. *)
Fixpoint split_on (c : N) (s : jsstring) : list jsstring :=
  match s with
  | [] => [[]]
  | x :: s' =>
      if N.eqb x c then [] :: split_on c s'
      else match split_on c s' with
           | l :: ls => (x :: l) :: ls
           | [] => [[x]]
           end
  end.

(** [c.repeat(n)] *)
Definition repeat_unit (c : N) (n : nat) : jsstring := replicate n c.

(** Truthiness of a string: only [''] is falsy. *)
Definition nonempty (s : jsstring) : bool :=
  match s with [] => false | _ => true end.

(** [s.replace(pat, rep)] with a string pattern: the first occurrence is
    replaced. In [rep], [$$] stands for a dollar sign, [$&] for the match,
    [$`] for the text before it and [$'] for the text after it. *)
Fixpoint get_substitution (before matched after rep : jsstring) : jsstring :=
  match rep with
  | [] => []
  | c :: rep' =>
      if N.eqb c 36 then
        match rep' with
        | d :: rep'' =>
            if N.eqb d 36 then 36%N :: get_substitution before matched after rep''
            else if N.eqb d 38 then matched ++ get_substitution before matched after rep''
            else if N.eqb d 96 then before ++ get_substitution before matched after rep''
            else if N.eqb d 39 then after ++ get_substitution before matched after rep''
            else c :: get_substitution before matched after rep'
        | [] => [c]
        end
      else c :: get_substitution before matched after rep'
  end.

Definition replace_first (pat rep s : jsstring) : jsstring :=
  match index_of pat s with
  | None => s
  | Some i =>
      let before := take i s in
      let after := drop (i + length pat) s in
      before ++ get_substitution before pat after rep ++ after
  end.

End JsString.
Export JsString.

(* ===================================================================== *)
(** * JavaScript values and exceptions *)
(* ===================================================================== *)

Module JsValue.

(** Values as [JSON.parse] and property access produce them. Numbers are
    the finite doubles, read as rationals. An object is its list of own
    properties; [lookup_prop] takes the first binding of a key. *)
Inductive jsval :=
| VUndefined
| VNull
| VBool (b : bool)
| VNum (q : Q)
| VStr (s : jsstring)
| VArr (items : list jsval)
| VObj (props : list (jsstring * jsval)).

(** What a script can throw or reject with. [message] is what
    [error.message] reads; [None] is [undefined]. *)
Inductive jserror :=
| Error (message : jsstring)
| TypeError (message : jsstring)
| SyntaxError (message : jsstring)
| LastError (message : option jsstring).

Definition error_message (e : jserror) : option jsstring :=
  match e with
  | Error m | TypeError m | SyntaxError m => Some m
  | LastError m => m
  end.

(** Result of an evaluation that may throw. *)
Inductive res (A : Type) :=
| Ok (a : A)
| Raise (e : jserror).
Arguments Ok {A} a.
Arguments Raise {A} e.

#[global] Instance res_ret : MRet res := fun A a => Ok a.
#[global] Instance res_bind : MBind res := fun A B f r =>
  match r with
  | Ok a => f a
  | Raise e => Raise e
  end.

Definition is_ok {A} (r : res A) : bool :=
  match r with Ok _ => true | Raise _ => false end.

(** The conversions of the language that the scripts reach only on values
    of unexpected types: reading a string, an array or an object as a
    number, and printing a number, an array or an object. They are a
    parameter of the development. *)
Class JsRuntime := {
  ToNumber_other : jsval → option Q;
  ToString_other : jsval → jsstring;
}.

(** [!!v] *)
Definition truthy (v : jsval) : bool :=
  match v with
  | VUndefined | VNull => false
  | VBool b => b
  | VNum q => negb (Qeq_bool q 0)
  | VStr s => nonempty s
  | VArr _ | VObj _ => true
  end.

Fixpoint lookup_prop (key : jsstring) (props : list (jsstring * jsval)) : jsval :=
  match props with
  | [] => VUndefined
  | (k, v) :: rest => if jseqb k key then v else lookup_prop key rest
  end.

Definition num_of_nat (n : nat) : jsval := VNum (inject_Z (Z.of_nat n)).

(** [v.name] for the property names the scripts read ([chat_messages],
    [content], [text], [uuid], [name], [markdown]): none of them is defined
    on a prototype, so only own properties count. Reading a property of
    [null] or [undefined] throws. *)
Definition get_prop (v : jsval) (name : string) : res jsval :=
  match v with
  | VUndefined | VNull =>
      Raise (TypeError (lit "Cannot read properties of " ++
                        (if v is VNull then lit "null" else lit "undefined")))
  | VObj props => Ok (lookup_prop (lit name) props)
  | _ => Ok VUndefined
  end.

(** [v.length] *)
Definition get_length (v : jsval) : res jsval :=
  match v with
  | VUndefined | VNull =>
      Raise (TypeError (lit "Cannot read properties of " ++
                        (if v is VNull then lit "null" else lit "undefined")))
  | VStr s => Ok (num_of_nat (length s))
  | VArr items => Ok (num_of_nat (length items))
  | VObj props => Ok (lookup_prop (lit "length") props)
  | _ => Ok VUndefined
  end.

Definition digit_key (i : nat) : jsstring :=
  match i with 0 => lit "0" | 1 => lit "1" | _ => [] end.

(** [v[i]] for [i] in {0, 1} *)
Definition get_index (v : jsval) (i : nat) : res jsval :=
  match v with
  | VUndefined | VNull =>
      Raise (TypeError (lit "Cannot read properties of " ++
                        (if v is VNull then lit "null" else lit "undefined")))
  | VStr s => Ok (match s !! i with Some c => VStr [c] | None => VUndefined end)
  | VArr items => Ok (default VUndefined (items !! i))
  | VObj props => Ok (lookup_prop (digit_key i) props)
  | _ => Ok VUndefined
  end.

Section Conversions.
Context `{JsRuntime}.

(** [Number(v)]; [None] is NaN. *)
Definition ToNumber (v : jsval) : option Q :=
  match v with
  | VUndefined => None
  | VNull => Some 0%Q
  | VBool b => Some (if b then 1%Q else 0%Q)
  | VNum q => Some q
  | _ => ToNumber_other v
  end.

(** [String(v)] *)
Definition ToString (v : jsval) : jsstring :=
  match v with
  | VStr s => s
  | VUndefined => lit "undefined"
  | VNull => lit "null"
  | VBool true => lit "true"
  | VBool false => lit "false"
  | _ => ToString_other v
  end.

(** [v < n] and [v > n] against a number literal; NaN compares false. *)
Definition lt_num (v : jsval) (n : Q) : bool :=
  match ToNumber v with
  | Some q => negb (Qle_bool n q)
  | None => false
  end.

Definition gt_num (v : jsval) (n : Q) : bool :=
  match ToNumber v with
  | Some q => negb (Qle_bool q n)
  | None => false
  end.
End Conversions.

End JsValue.
Export JsValue.


(* ===================================================================== *)
(** * Programs with suspension points *)
(* ===================================================================== *)

Module Async.

(** An [async] function is a tree: it returns, throws, or performs an
    event and continues with the reply. Events are the points where the
    script reaches outside itself (an awaited promise, a global variable, a
    call into the browser); the scripts have no loops across events, so
    the trees are finite. *)
Inductive prog {E : Type} {reply : E → Type} (A : Type) : Type :=
| Ret (a : A)
| Throw (e : jserror)
| Vis (ev : E) (k : reply ev → prog A).
Arguments prog E reply A : clear implicits.
Arguments Ret {E reply A} a.
Arguments Throw {E reply A} e.
Arguments Vis {E reply A} ev k.

Section Combinators.
Context {E : Type} {reply : E → Type}.

Fixpoint bind {A B} (p : prog E reply A) (f : A → prog E reply B) : prog E reply B :=
  match p with
  | Ret a => f a
  | Throw e => Throw e
  | Vis ev k => Vis ev (fun r => bind (k r) f)
  end.

(** [try { p } catch (e) { h e }] *)
Fixpoint try_catch {A} (p : prog E reply A) (h : jserror → prog E reply A) : prog E reply A :=
  match p with
  | Ret a => Ret a
  | Throw e => h e
  | Vis ev k => Vis ev (fun r => try_catch (k r) h)
  end.

(** [try { p } finally { f }]: [f] runs on every way out of [p], a
    [return] inside [p] included; if [f] throws, that error replaces the
    outcome of [p]. *)
Fixpoint finally {A} (p : prog E reply A) (f : prog E reply unit) : prog E reply A :=
  match p with
  | Ret a => bind f (fun _ => Ret a)
  | Throw e => bind f (fun _ => Throw e)
  | Vis ev k => Vis ev (fun r => finally (k r) f)
  end.

(** One event, continued with its reply. *)
Definition perform (ev : E) : prog E reply (reply ev) := Vis ev Ret.

(** A synchronous evaluation that may throw. *)
Definition of_res {A} (r : res A) : prog E reply A :=
  match r with
  | Ok a => Ret a
  | Raise e => Throw e
  end.
End Combinators.

#[global] Instance prog_ret {E reply} : MRet (prog E reply) := fun A a => Ret a.
#[global] Instance prog_bind {E reply} : MBind (prog E reply) := fun A B f p => bind p f.

End Async.
Export Async.

(* ===================================================================== *)
(** * background.js: the chat-service client *)
(* ===================================================================== *)

Module Background.

Definition BASE_URL : jsstring := lit "https://claude.ai".
Definition ORGANIZATIONS : jsstring := lit "/api/organizations".
Definition CHAT_LIST : jsstring := lit "/api/organizations/{orgId}/chat_conversations".
Definition CHAT : jsstring :=
  lit "/api/organizations/{orgId}/chat_conversations/{chatId}?tree=True&rendering_mode=messages".
Definition SEND_MESSAGE : jsstring :=
  lit "/api/organizations/{orgId}/chat_conversations/{chatId}/completion".
Definition PROJECTS : jsstring := lit "/api/organizations/{orgId}/projects".

Inductive http_method := GET | POST.

(** The argument of [fetch]. [body] is the object handed to
    [JSON.stringify]; every call sends the JSON content type and the
    session cookies. *)
Record http_request := {
  method : http_method;
  url : jsstring;
  body : option jsval;
}.

(** What the script reads of a [Response]: [status] (and [ok], which is
    derived from it), and what awaiting [json()] and [text()] gives. *)
Record http_response := {
  status : nat;
  json : res jsval;
  text : res jsstring;
}.

(** [response.ok]: the status is in the range 200-299. *)
Definition ok (r : http_response) : bool := (200 <=? status r) && (status r <=? 299).

(** An awaited [fetch] resolves with a response, whatever its status, or
    rejects (the network failed). *)
Inductive fetch_outcome :=
| Resolved (r : http_response)
| Rejected (e : jserror).

Inductive bevent :=
| Fetch (rq : http_request)
| Sleep (ms : nat)
| RandomUUID
| DateLocaleString
| ReadOrgId
| WriteOrgId (v : jsval).

Definition breply (ev : bevent) : Type :=
  match ev with
  | Fetch _ => fetch_outcome
  | Sleep _ => unit
  | RandomUUID => jsstring
  | DateLocaleString => jsstring
  | ReadOrgId => jsval
  | WriteOrgId _ => unit
  end.

Abbreviation bprog := (prog bevent breply).

(** [await fetch(rq)] *)
Definition fetch (rq : http_request) : bprog http_response :=
  o ← perform (Fetch rq);
  match o with
  | Resolved r => Ret r
  | Rejected e => Throw e
  end.

(** Decimal digits of a status code, as a template literal prints it. *)
Definition decimal (n : nat) : jsstring :=
  lit (NilEmpty.string_of_uint (Nat.to_uint n)).

Section WithRuntime.
Context `{JsRuntime}.

Definition extractAnswer (response : jsval) : res jsval :=
  if negb (truthy response) then Ok (VStr [])
  else
    chat_messages ← get_prop response "chat_messages";
    if negb (truthy chat_messages) then Ok (VStr [])
    else
      len ← get_length chat_messages;
      if lt_num len 2 then Ok (VStr [])
      else
        second ← get_index chat_messages 1;
        content ← get_prop second "content";
        if negb (truthy content) then Ok (VStr [])
        else
          clen ← get_length content;
          if lt_num clen 1 then Ok (VStr [])
          else
            first ← get_index content 0;
            text ← get_prop first "text";
            if negb (truthy text) then Ok (VStr [])
            else Ok text.

Definition organizations_request : http_request :=
  {| method := GET; url := BASE_URL ++ ORGANIZATIONS; body := None |}.

Definition fetchOrganizations : bprog jsval :=
  response ← fetch organizations_request;
  if negb (ok response)
  then Throw (Error (lit "Failed to fetch organizations: " ++ decimal (status response)))
  else of_res (json response).

Definition projects_request (orgId : jsval) : http_request :=
  {| method := GET;
     url := BASE_URL ++ replace_first (lit "{orgId}") (ToString orgId) PROJECTS;
     body := None |}.

Definition fetchProjects (orgId : jsval) : bprog jsval :=
  response ← fetch (projects_request orgId);
  if negb (ok response)
  then Throw (Error (lit "Failed to fetch conversations: " ++ decimal (status response)))
  else of_res (json response).

Definition create_request (orgId projId conversationName : jsval) (uuid : jsstring)
  : http_request :=
  {| method := POST;
     url := BASE_URL ++ replace_first (lit "{orgId}") (ToString orgId) CHAT_LIST;
     body := Some (VObj [ (lit "name", conversationName);
                          (lit "include_conversation_preferences", VBool true);
                          (lit "project_uuid", projId);
                          (lit "uuid", VStr uuid) ]) |}.

(** [name || `Form Assistant - ${new Date().toLocaleString()}`] *)
Definition name_or_default (name : jsval) : bprog jsval :=
  if truthy name then Ret name
  else d ← perform DateLocaleString; Ret (VStr (lit "Form Assistant - " ++ d)).

Definition createConversation (orgId projId name : jsval) : bprog jsstring :=
  conversationName ← name_or_default name;
  uuid ← perform RandomUUID;
  response ← fetch (create_request orgId projId conversationName uuid);
  if negb (ok response)
  then Throw (Error (lit "Failed to create conversation: " ++ decimal (status response)))
  else
    _ ← of_res (json response);
    Ret uuid.

(** The first match of [/<image>(.*?)<\/image>/s]: where it starts, the
    captured text and where it ends. The match starts at the leftmost
    [<image>] and, the group being lazy, ends with the first [</image>]
    after it. *)
Definition image_match (message : jsstring) : option (nat * jsstring * nat) :=
  i ← index_of (lit "<image>") message;
  j ← index_from (i + 7) (lit "</image>") message;
  Some (i, substring (i + 7) j message, j + 8).

(** [Math.ceil(n * 0.75)] *)
Definition approx_size (n : nat) : nat := (3 * n + 3) / 4.

Definition image_attachment (base64Data file_id : jsstring) : jsval :=
  VObj [ (lit "file_name", VStr (lit "screenshot.png"));
         (lit "file_type", VStr (lit "image/png"));
         (lit "file_size", num_of_nat (approx_size (length base64Data)));
         (lit "extracted_content", VStr []);
         (lit "file_id", VStr file_id);
         (lit "media_type", VStr (lit "image"));
         (lit "width", num_of_nat 1200);
         (lit "height", num_of_nat 800);
         (lit "display_width", num_of_nat 1200);
         (lit "display_height", num_of_nat 800);
         (lit "data", VStr base64Data) ].

Definition default_style : jsval :=
  VObj [ (lit "type", VStr (lit "default"));
         (lit "key", VStr (lit "Default"));
         (lit "name", VStr (lit "Normal"));
         (lit "nameKey", VStr (lit "normal_style_name"));
         (lit "prompt", VStr (lit "Normal"));
         (lit "summary", VStr (lit "Default responses from Claude"));
         (lit "summaryKey", VStr (lit "normal_style_summary"));
         (lit "isDefault", VBool true) ].

Definition message_body (prompt : jsstring) (attachments : list jsval) : jsval :=
  VObj [ (lit "prompt", VStr prompt);
         (lit "parent_message_uuid", VStr (lit "00000000-0000-4000-8000-000000000000"));
         (lit "timezone", VStr (lit "Asia/Calcutta"));
         (lit "personalized_styles", VArr [default_style]);
         (lit "locale", VStr (lit "en-US"));
         (lit "tools", VArr []);
         (lit "attachments", VArr attachments);
         (lit "files", VArr []);
         (lit "sync_sources", VArr []);
         (lit "rendering_mode", VStr (lit "messages")) ].

(** The marker that [sendMessage] acts on: the message includes
    [<image>], the expression matches, and its group is not empty. *)
Definition marker (message : jsstring) : option (nat * jsstring * nat) :=
  if includes message (lit "<image>") then
    match image_match message with
    | Some (i, inner, j) => if nonempty inner then Some (i, inner, j) else None
    | None => None
    end
  else None.

(** The attachments and the prompt text that [sendMessage] posts for a
    message, given the id drawn for the attachment. *)
Definition posted (message file_id : jsstring) : list jsval * jsstring :=
  match marker message with
  | Some (i, inner, j) =>
      ([image_attachment (trim inner) file_id], take i message ++ drop j message)
  | None => ([], message)
  end.

(** The part of [sendMessage] before its [fetch]. *)
Definition prepare_message (message : jsstring) : bprog (list jsval * jsstring) :=
  match marker message with
  | Some _ => file_id ← perform RandomUUID; Ret (posted message file_id)
  | None => Ret (posted message [])
  end.

Definition send_request (orgId : jsval) (conversationId prompt : jsstring)
    (attachments : list jsval) : http_request :=
  {| method := POST;
     url := BASE_URL ++
       replace_first (lit "{chatId}") conversationId
         (replace_first (lit "{orgId}") (ToString orgId)
           (replace_first (lit "undefined") (lit "undefined") SEND_MESSAGE));
     body := Some (message_body prompt attachments) |}.

Definition sendMessage (orgId : jsval) (conversationId message : jsstring) : bprog jsstring :=
  prepared ← prepare_message message;
  response ← fetch (send_request orgId conversationId (snd prepared) (fst prepared));
  if negb (ok response)
  then Throw (Error (lit "Failed to send message: " ++ decimal (status response)))
  else of_res (text response).

Definition transcript_request (orgId : jsval) (conversationId : jsstring) : http_request :=
  {| method := GET;
     url := BASE_URL ++
       replace_first (lit "{chatId}") conversationId
         (replace_first (lit "{orgId}") (ToString orgId) CHAT);
     body := None |}.

Record ask_result := {
  answer : jsval;
  conversationId : jsstring;
  chatUrl : jsstring;
  newConversationCreated : bool;
}.

(** The start of [askClaude]: the organization id is fetched when none is
    stored. *)
Definition ensure_organization : bprog unit :=
  currentOrgId ← perform ReadOrgId;
  if negb (truthy currentOrgId) then
    orgs ← fetchOrganizations;
    nonempty_orgs ←
      (if truthy orgs
       then len ← of_res (get_length orgs); Ret (gt_num len 0)
       else Ret false);
    if nonempty_orgs : bool then
      first ← of_res (get_index orgs 0);
      uuid ← of_res (get_prop first "uuid");
      _ ← perform (WriteOrgId uuid); Ret tt
    else Throw (Error (lit "No organizations found"))
  else Ret tt.

Definition askClaude (question : jsstring) (projectId conversationTitle : jsval)
  : bprog ask_result :=
  try_catch
    (_ ← ensure_organization;
     conversationName ← name_or_default conversationTitle;
     currentOrgId ← perform ReadOrgId;
     conversationId ← createConversation currentOrgId projectId conversationName;
     currentOrgId ← perform ReadOrgId;
     _ ← sendMessage currentOrgId conversationId question;
     _ ← perform (Sleep 5000);
     currentOrgId ← perform ReadOrgId;
     chatResponseRaw ← fetch (transcript_request currentOrgId conversationId);
     if negb (ok chatResponseRaw)
     then Throw (Error (lit "Failed to retrieve messages: " ++ decimal (status chatResponseRaw)))
     else
       chatResponse ← of_res (json chatResponseRaw);
       let chatUrl := BASE_URL ++ lit "/chat/" ++ conversationId in
       answer ← of_res (extractAnswer chatResponse);
       Ret {| answer := answer; conversationId := conversationId;
              chatUrl := chatUrl; newConversationCreated := true |})
    (fun error => Throw error).

(** The [askClaude] case of the message listener:
    [askClaude(...).then(sendResponse)]. [sendResponse] is called with
    the result when [askClaude] fulfils; when it rejects nothing handles
    the rejection and [sendResponse] is never called. *)
Definition onMessage_askClaude (question : jsstring) (projectId conversationTitle : jsval)
  : bprog (option ask_result) :=
  try_catch
    (r ← askClaude question projectId conversationTitle; Ret (Some r))
    (fun _ => Ret None).

(** [checkLoginStatus] *)
Definition checkLoginStatus : bprog bool :=
  try_catch (orgs ← fetchOrganizations; Ret (truthy orgs)) (fun _ => Ret false).
End WithRuntime.

(** ** Running a background program against the service *)

(** The world outside the service worker: what the [n]-th [fetch], the
    [n]-th [crypto.randomUUID()] and the [n]-th date answer (counted from
    0, each kind on its own). *)
Record benv := {
  fetch_reply : nat → http_request → fetch_outcome;
  uuid_reply : nat → jsstring;
  date_reply : nat → jsstring;
}.

Record bstate := {
  currentOrgId : jsval;
  trace : list bevent;      (* the events so far, oldest first *)
  fetches : nat;
  uuids : nat;
  dates : nat;
}.

Definition initial (orgId : jsval) : bstate :=
  {| currentOrgId := orgId; trace := []; fetches := 0; uuids := 0; dates := 0 |}.

(** The state after an event of each kind. *)
Definition after_fetch (rq : http_request) (st : bstate) : bstate :=
  {| currentOrgId := currentOrgId st; trace := trace st ++ [Fetch rq];
     fetches := S (fetches st); uuids := uuids st; dates := dates st |}.

Definition after_sleep (ms : nat) (st : bstate) : bstate :=
  {| currentOrgId := currentOrgId st; trace := trace st ++ [Sleep ms];
     fetches := fetches st; uuids := uuids st; dates := dates st |}.

Definition after_uuid (st : bstate) : bstate :=
  {| currentOrgId := currentOrgId st; trace := trace st ++ [RandomUUID];
     fetches := fetches st; uuids := S (uuids st); dates := dates st |}.

Definition after_date (st : bstate) : bstate :=
  {| currentOrgId := currentOrgId st; trace := trace st ++ [DateLocaleString];
     fetches := fetches st; uuids := uuids st; dates := S (dates st) |}.

Definition after_write (v : jsval) (st : bstate) : bstate :=
  {| currentOrgId := v; trace := trace st;
     fetches := fetches st; uuids := uuids st; dates := dates st |}.

Fixpoint run {A} (env : benv) (p : bprog A) (st : bstate) : bstate * res A :=
  match p with
  | Ret a => (st, Ok a)
  | Throw e => (st, Raise e)
  | Vis ev k =>
      match ev return (breply ev → bprog A) → bstate * res A with
      | Fetch rq => fun k =>
          run env (k (fetch_reply env (fetches st) rq)) (after_fetch rq st)
      | Sleep ms => fun k => run env (k tt) (after_sleep ms st)
      | RandomUUID => fun k => run env (k (uuid_reply env (uuids st))) (after_uuid st)
      | DateLocaleString => fun k => run env (k (date_reply env (dates st))) (after_date st)
      | ReadOrgId => fun k => run env (k (currentOrgId st)) st
      | WriteOrgId v => fun k => run env (k tt) (after_write v st)
      end k
  end.

(** A service that answers every request: the [n]-th [fetch] resolves
    with [resp n rq]. *)
Definition answering (resp : nat → http_request → http_response)
    (uuid date : nat → jsstring) : benv :=
  {| fetch_reply := fun n rq => Resolved (resp n rq);
     uuid_reply := uuid; date_reply := date |}.

(** The requests sent and the pauses taken, in order. *)
Definition is_fetch (ev : bevent) : option http_request :=
  match ev with Fetch rq => Some rq | _ => None end.

Definition requests (t : list bevent) : list http_request := omap is_fetch t.

Definition network (ev : bevent) : bool :=
  match ev with Fetch _ | Sleep _ => true | _ => false end.

End Background.

(* ===================================================================== *)
(** * The DOM as the content scripts see it *)
(* ===================================================================== *)

Module Dom.

Definition ascii_lower (c : N) : N :=
  if ((65 <=? c) && (c <=? 90))%N then (c + 32)%N else c.
Definition ascii_upper (c : N) : N :=
  if ((97 <=? c) && (c <=? 122))%N then (c - 32)%N else c.
Definition to_lower (s : jsstring) : jsstring := map ascii_lower s.
Definition to_upper (s : jsstring) : jsstring := map ascii_upper s.

(** An HTML element: its local name (lower case, as the parser produces
    it) and its content attributes (names in lower case). *)
Record element := {
  tag : jsstring;
  attrs : list (jsstring * jsstring);
}.

(** [element.tagName]: upper case for an HTML element. *)
Definition tagName (e : element) : jsstring := to_upper (tag e).

(** [element.getAttribute(name)]; [None] is [null]. *)
Fixpoint lookup_attr (name : jsstring) (l : list (jsstring * jsstring)) : option jsstring :=
  match l with
  | [] => None
  | (k, v) :: rest => if jseqb k name then Some v else lookup_attr name rest
  end.

Definition getAttribute (e : element) (name : string) : option jsstring :=
  lookup_attr (lit name) (attrs e).

Definition hasAttribute (e : element) (name : string) : bool :=
  match getAttribute e name with Some _ => true | None => false end.

(** [element.id]: reflects the attribute, [''] when absent. *)
Definition prop_id (e : element) : jsstring := default [] (getAttribute e "id").

(** [element.placeholder]: inputs and text areas reflect the attribute;
    other elements have no such property ([None] is [undefined]). *)
Definition prop_placeholder (e : element) : option jsstring :=
  if jseqb (tag e) (lit "input") || jseqb (tag e) (lit "textarea")
  then Some (default [] (getAttribute e "placeholder"))
  else None.

Definition input_type_keywords : list jsstring :=
  map lit [ "hidden"; "text"; "search"; "tel"; "url"; "email"; "password";
            "date"; "month"; "week"; "time"; "datetime-local"; "number";
            "range"; "color"; "checkbox"; "radio"; "file"; "submit"; "image";
            "reset"; "button" ]%string.

(** [element.type]: an input reports the state of its type attribute, in
    lower case, and ["text"] for a missing or unknown one; a text area
    reports ["textarea"]. The scripts read it on inputs only. *)
Definition prop_type (e : element) : option jsstring :=
  if jseqb (tag e) (lit "input") then
    match getAttribute e "type" with
    | Some t =>
        if existsb (jseqb (to_lower t)) input_type_keywords
        then Some (to_lower t) else Some (lit "text")
    | None => Some (lit "text")
    end
  else if jseqb (tag e) (lit "textarea") then Some (lit "textarea")
  else None.

(** ASCII white space separates class names. *)
Definition is_ascii_space (c : N) : bool :=
  ((c =? 32) || (c =? 9) || (c =? 10) || (c =? 12) || (c =? 13))%N.

Fixpoint tokens_aux (cur : jsstring) (s : jsstring) : list jsstring :=
  match s with
  | [] => match cur with [] => [] | _ => [rev cur] end
  | c :: s' =>
      if is_ascii_space c
      then match cur with
           | [] => tokens_aux [] s'
           | _ => rev cur :: tokens_aux [] s'
           end
      else tokens_aux (c :: cur) s'
  end.

(** [element.classList] *)
Definition classList (e : element) : list jsstring :=
  tokens_aux [] (default [] (getAttribute e "class")).

Definition classList_contains (e : element) (c : string) : bool :=
  existsb (jseqb (lit c)) (classList e).

(** ** Selectors *)

(** The selectors that the scripts write: compound selectors made of a type
    name, classes, ids, attribute tests and negations, chained by the
    descendant combinator, in comma-separated lists. *)
Inductive simple :=
| SType (name : string)
| SClass (name : string)
| SId (name : string)
| SAttr (name : string)                     (* [name] *)
| SAttrEq (name : string) (v : jsstring)    (* [name="v"] *)
| SAttrSub (name : string) (v : string)     (* [name*="v"] *)
| SNot (s : simple).

Definition compound := list simple.
(** [a b c]: the subject is the last compound. *)
Definition complex := list compound.
Definition selector := list complex.

(** Attribute values compare case-sensitively, except for the attributes
    that HTML lists as case-insensitive; [type] is the one the scripts use. *)
Definition attr_value_eqb (name : string) (actual expected : jsstring) : bool :=
  if String.eqb name "type" then jseqb (to_lower actual) (to_lower expected)
  else jseqb actual expected.

Fixpoint matches_simple (e : element) (s : simple) : bool :=
  match s with
  | SType n => jseqb (tag e) (lit n)
  | SClass c => classList_contains e c
  | SId i => match getAttribute e "id" with Some v => jseqb v (lit i) | None => false end
  | SAttr a => hasAttribute e a
  | SAttrEq a v =>
      match getAttribute e a with Some x => attr_value_eqb a x v | None => false end
  | SAttrSub a v =>
      match getAttribute e a with Some x => includes x (lit v) | None => false end
  | SNot s' => negb (matches_simple e s')
  end.

Definition matches_compound (e : element) (c : compound) : bool :=
  forallb (matches_simple e) c.

(** The compounds [cs], outermost last, against the ancestors, nearest
    first: each compound needs an ancestor further out than the previous. *)
Fixpoint matches_ancestors (ancestors : list element) (cs : list compound) {struct cs} : bool :=
  match cs with
  | [] => true
  | c :: cs' =>
      (fix find (l : list element) : bool :=
         match l with
         | [] => false
         | a :: l' =>
             (matches_compound a c && matches_ancestors l' cs') || find l'
         end) ancestors
  end.

(** [element.matches(sel)], for an element and its ancestors (nearest
    first). *)
Definition matches_complex (ancestors : list element) (e : element) (c : complex) : bool :=
  match rev c with
  | [] => false
  | subject :: outer => matches_compound e subject && matches_ancestors ancestors outer
  end.

Definition matches (ancestors : list element) (e : element) (sel : selector) : bool :=
  existsb (matches_complex ancestors e) sel.

(** ** Trees *)

Inductive node :=
| Text (data : jsstring)
| Elem (e : element) (children : list node).

Definition children_of (n : node) : list node :=
  match n with Elem _ cs => cs | Text _ => [] end.

Definition element_of (n : node) : option element :=
  match n with Elem e _ => Some e | Text _ => None end.

(** [node.textContent]: the text of the descendants, in tree order. *)
Fixpoint textContent (n : node) : jsstring :=
  match n with
  | Text d => d
  | Elem _ cs =>
      (fix all (l : list node) : jsstring :=
         match l with
         | [] => []
         | c :: l' => textContent c ++ all l'
         end) cs
  end.

(** A node is named by the child indexes that lead to it from the root. *)
Definition path := list nat.

Fixpoint subtree (n : node) (p : path) : option node :=
  match p with
  | [] => Some n
  | i :: p' => c ← children_of n !! i; subtree c p'
  end.

Definition element_at (root : node) (p : path) : option element :=
  n ← subtree root p; element_of n.

(** [node.parentElement]: the root element has none. *)
Definition parent_path (p : path) : option path :=
  match p with
  | [] => None
  | _ => Some (removelast p)
  end.

(** The proper ancestors of [p], nearest first. *)
Fixpoint ancestor_paths_rev (p : path) : list path :=
  match p with
  | [] => []
  | i :: p' => [] :: map (cons i) (ancestor_paths_rev p')
  end.
Definition ancestor_paths (p : path) : list path := rev (ancestor_paths_rev p).

Definition elements_at (root : node) (ps : list path) : list element :=
  omap (element_at root) ps.

(** The element descendants of a node in tree order, without the node
    itself, each with its path below the node. *)
Fixpoint descendants (n : node) : list (path * node) :=
  match n with
  | Text _ => []
  | Elem _ cs =>
      (fix each (i : nat) (l : list node) : list (path * node) :=
         match l with
         | [] => []
         | c :: l' =>
             match c with
             | Text _ => each (S i) l'
             | Elem _ _ =>
                 ([i], c) :: map (fun '(q, m) => (i :: q, m)) (descendants c)
                 ++ each (S i) l'
             end
         end) 0 cs
  end.

(** [scope.querySelectorAll(sel)] for the node at [p]: the matching
    descendants, with their paths from the root. *)
Definition querySelectorAll (root : node) (p : path) (sel : selector) : list (path * node) :=
  match subtree root p with
  | None => []
  | Some scope =>
      omap (fun '(q, m) =>
              match m with
              | Elem e _ =>
                  if matches (elements_at root (ancestor_paths (p ++ q))) e sel
                  then Some (p ++ q, m) else None
              | Text _ => None
              end)
           (descendants scope)
  end.

(** [scope.querySelector(sel)] *)
Definition querySelector (root : node) (p : path) (sel : selector) : option (path * node) :=
  head (querySelectorAll root p sel).

(** [document.querySelector(sel)]: the root element is a candidate too. *)
Definition document_querySelector (root : node) (sel : selector) : option (path * node) :=
  match root with
  | Elem e _ =>
      if matches [] e sel then Some ([], root) else querySelector root [] sel
  | Text _ => None
  end.

(** [element.closest(sel)]: the element itself or its nearest matching
    ancestor. *)
Definition closest (root : node) (p : path) (sel : selector) : option path :=
  head (List.filter
          (fun q => match element_at root q with
                    | Some e => matches (elements_at root (ancestor_paths q)) e sel
                    | None => false
                    end)
          (p :: ancestor_paths p)).

(** The element siblings before the node at [p], nearest first:
    [previousElementSibling], repeated. *)
Definition previous_element_siblings (root : node) (p : path) : list node :=
  match parent_path p, last p with
  | Some pp, Some i =>
      match subtree root pp with
      | Some parent =>
          List.filter (fun n => match n with Elem _ _ => true | Text _ => false end)
                      (rev (take i (children_of parent)))
      | None => []
      end
  | _, _ => []
  end.

(** [document.body]: the first body or frameset child of the html root. *)
Definition body_path (root : node) : option path :=
  match root with
  | Elem e cs =>
      if jseqb (tag e) (lit "html") then
        (fix find (i : nat) (l : list node) : option path :=
           match l with
           | [] => None
           | c :: l' =>
               match c with
               | Elem b _ =>
                   if jseqb (tag b) (lit "body") || jseqb (tag b) (lit "frameset")
                   then Some [i] else find (S i) l'
               | Text _ => find (S i) l'
               end
           end) 0 cs
      else None
  | Text _ => None
  end.

Definition path_eqb (p q : path) : bool := bool_decide (p = q).

(** [document.body.contains(node)] for the node at [p]. *)
Definition body_contains (root : node) (p : path) : bool :=
  match body_path root, subtree root p with
  | Some b, Some _ => bool_decide (b `prefix_of` p)
  | _, _ => false
  end.

End Dom.

(* ===================================================================== *)
(** * The content script's world *)
(* ===================================================================== *)

Module Page.
Import Dom.

(** Fields are named by handles: a script keeps its reference to an
    element when the page moves or removes it. *)
Definition handle := nat.

(** What the inserter changes on an element. *)
Record field_state := {
  value : jsstring;              (* [element.value] *)
  innerHTML : jsstring;          (* [element.innerHTML] *)
  dispatched : list jsstring;    (* types of the events dispatched on it, oldest first *)
  focus_calls : nat;             (* calls of [element.focus()] *)
  click_calls : nat;             (* calls of [element.click()] *)
  caret_at_end : bool;           (* the selection was collapsed to its end *)
}.

Record field := {
  elem : element;
  ancestors : list element;      (* nearest first *)
  in_body : bool;                (* [document.body.contains(element)] *)
  state : field_state;
}.

(** The callbacks that the content script hands to [setTimeout]. *)
Inductive timer_action :=
| ClearConversationUrl
| DeferredInsert (h : handle) (text : jsval).

(** The message of [sendMessageToBackground]. *)
Record message := {
  action : jsstring;
  question : jsstring;
  projectId : jsval;
  conversationTitle : jsval;
}.

(** [chrome.storage.sync.get(['defaultProject', 'autoDetect'])] *)
Record settings := {
  defaultProject : jsval;
  autoDetect : jsval;
}.

(** What [capturePageContext] returns: the text and, in the screenshot
    variant, the image. *)
Record page_context := {
  textContext : jsstring;
  screenshotData : option jsstring;
}.

Inductive cevent :=
(* the script's global variables *)
| ReadIsProcessing
| WriteIsProcessing (b : bool)
| ReadConversationUrl
| WriteConversationUrl (u : option jsstring)
| ReadActiveElement
(* the page *)
| WindowOpen (u : jsstring)
| ButtonProcessing (on : bool)
| Focus (h : handle)
| Click (h : handle)
| ReadField (h : handle)
| WriteField (h : handle) (st : field_state)
| ShowNotification (msg : jsstring)
| SetTimeout (ms : nat) (a : timer_action)
| DocumentTitle
| LocationHref
| StructuredContent
| VisibleTextNodes
| FormLabelsAndContext
(* awaited *)
| Delay (ms : nat)
| StorageGet
| DetectFormQuestion (h : handle)
| PromptForQuestion
| RuntimeSendMessage (m : message)
| RuntimeCaptureScreenshot
| FetchReader (rq : Background.http_request).

Definition creply (ev : cevent) : Type :=
  match ev with
  | ReadIsProcessing => bool
  | WriteIsProcessing _ => unit
  | ReadConversationUrl => option jsstring
  | WriteConversationUrl _ => unit
  | ReadActiveElement => option handle
  | WindowOpen _ => unit
  | ButtonProcessing _ => unit
  | Focus _ => unit
  | Click _ => unit
  | ReadField _ => option field
  | WriteField _ _ => unit
  | ShowNotification _ => unit
  | SetTimeout _ _ => unit
  | DocumentTitle => jsstring
  | LocationHref => jsstring
  | StructuredContent => jsstring
  | VisibleTextNodes => res (list jsstring)
  | FormLabelsAndContext => jsstring
  | Delay _ => unit
  | StorageGet => res settings
  | DetectFormQuestion _ => res jsstring
  | PromptForQuestion => jsstring
  | RuntimeSendMessage _ => res (option Background.ask_result)
  | RuntimeCaptureScreenshot => res (option jsstring)
  | FetchReader _ => Background.fetch_outcome
  end.

Abbreviation cprog := (prog cevent creply).

(** The events at which the script is suspended until a promise settles. *)
Definition awaited (ev : cevent) : bool :=
  match ev with
  | Delay _ | StorageGet | DetectFormQuestion _ | PromptForQuestion
  | RuntimeSendMessage _ | RuntimeCaptureScreenshot | FetchReader _ => true
  | _ => false
  end.

End Page.

(* ===================================================================== *)
(** * context-handler.js *)
(* ===================================================================== *)

Module ContextHandler.
Import Page.

(** [CONTEXT_CONFIG], declared by content.js. It has no [r_jina_api] key:
    reading it gives [undefined]. *)
Definition maxPageContentLength : nat := 20000.
Definition r_jina_api : jsval := VUndefined.

Definition truncation_marker : jsstring :=
  [LF; LF] ++ lit "[Content truncated due to length]".

(** ** [cleanPageContent] *)

(** [s.replace(/c{k,}/g, rep)]: every maximal run of at least [k] copies
    of [c] becomes [rep]. [run] counts the copies just read. *)
Definition flush_run (c : N) (k : nat) (rep : jsstring) (run : nat) : jsstring :=
  if k <=? run then rep else replicate run c.

Fixpoint collapse_runs (c : N) (k : nat) (rep : jsstring) (run : nat) (s : jsstring) : jsstring :=
  match s with
  | [] => flush_run c k rep run
  | x :: s' =>
      if N.eqb x c then collapse_runs c k rep (S run) s'
      else flush_run c k rep run ++ x :: collapse_runs c k rep 0 s'
  end.

(** [/[\u0000-\u001F\u007F-\u009F]/] *)
Definition is_control (c : N) : bool :=
  ((c <=? 31) || (127 <=? c) && (c <=? 159))%N.

Definition keep_line (line : jsstring) : bool :=
  (10 <? length (trim line)) || negb (nonempty (trim line)).

Definition cleanPageContent (content : jsstring) : jsstring :=
  let cleaned := collapse_runs LF 3 [LF; LF] 0 content in
  let cleaned := collapse_runs SP 2 [SP] 0 cleaned in
  let cleaned := List.filter (fun c => negb (is_control c)) cleaned in
  let lines := split_on LF cleaned in
  join [LF] (List.filter keep_line lines).

(** ** [generateConversationTitle] *)

(** [/[#*_~`]/] *)
Definition is_markdown (c : N) : bool :=
  ((c =? 35) || (c =? 42) || (c =? 95) || (c =? 126) || (c =? 96))%N.

(** [/[.!?]/] *)
Definition is_sentence_end (c : N) : bool :=
  ((c =? 46) || (c =? 33) || (c =? 63))%N.

(** [s.match(re).index] for a one-character class. *)
Fixpoint find_index (f : N → bool) (s : jsstring) : option nat :=
  match s with
  | [] => None
  | c :: s' => if f c then Some 0 else S <$> find_index f s'
  end.

(** The question is a string wherever the function is called, so the
    [catch] of the source, which answers a failing [trim], is not reached. *)
Definition generateConversationTitle (question : jsstring) : jsstring :=
  let title := trim question in
  let title := List.filter (fun c => negb (is_markdown c)) title in
  let title :=
    if 50 <? length title then
      match find_index is_sentence_end title with
      | Some index =>
          if index <? 60 then substring 0 (index + 1) title
          else substring 0 47 title ++ lit "..."
      | None => substring 0 47 title ++ lit "..."
      end
    else title in
  lit "Form: " ++ title.

(** ** Direct scraping *)

Section WithRuntime.
Context `{JsRuntime}.

(** [cleanPageContent] and the truncation that follows it. *)
Definition clean_and_truncate (pageContent : jsstring) : jsstring :=
  let pageContent := cleanPageContent pageContent in
  if maxPageContentLength <? length pageContent
  then substring 0 maxPageContentLength pageContent ++ truncation_marker
  else pageContent.

(** [extractStructuredContent] and [getVisibleTextNodes] walk the live
    document; here they are events whose replies are the text they
    extract. [extractStructuredContent] catches its own errors. *)
Definition captureDirectPageContent : cprog jsstring :=
  try_catch
    (pageContent ← perform StructuredContent;
     pageContent ←
       (if negb (nonempty pageContent) || (length pageContent <? 100)
        then
          visibleTextNodes ← perform VisibleTextNodes;
          texts ← of_res visibleTextNodes;
          Ret (join [LF; LF] (map trim texts))
        else Ret pageContent) : cprog jsstring;
     let pageContent := clean_and_truncate pageContent in
     title ← perform DocumentTitle;
     href ← perform LocationHref;
     Ret (lit "# " ++ title ++ [LF] ++ lit "URL: " ++ href ++ [LF; LF] ++ pageContent))
    (fun error =>
       title ← perform DocumentTitle;
       href ← perform LocationHref;
       Ret (lit "Page Title: " ++ title ++ [LF] ++ lit "URL: " ++ href)).

End WithRuntime.

Definition QUOTE : N := 34%N.
Definition quoted (s : string) : jsstring := [QUOTE] ++ lit s ++ [QUOTE].

(** The lines that both prompts end with. *)
Definition instructions (first : string) : list jsstring :=
  [ lit "## Instructions:";
    lit first;
    lit "2. Provide a direct, focused answer to my question based on the context.";
    lit "3. IMPORTANT: Answer ONLY the question without any introductions, explanations, or conclusions.";
    lit "4. Do not include phrases like " ++ quoted "Based on the context" ++ lit " or "
      ++ quoted "According to the webpage" ++ lit ".";
    lit "5. Keep your answer concise and to the point.";
    lit "6. Only give me the exact text that should be entered into the form field.";
    lit "7. If you're uncertain about any aspect, make a reasonable best effort.";
    [];
    lit "Just provide the exact text for the form field:" ].

(** ** The variant that asks the reader service first *)

Module Reader.
Section WithRuntime.
Context `{JsRuntime}.

Definition privateIndicators : list jsstring :=
  map lit [ "localhost"; "127.0.0.1"; "file://"; "chrome://";
            "chrome-extension://"; "admin"; "dashboard"; "account";
            "profile"; "settings"; "internal"; "signin"; "login"; "auth";
            "portal" ]%string.

(** [!privateIndicators.some(indicator => url.includes(indicator))] *)
Definition is_public_url (url : jsstring) : bool :=
  negb (existsb (includes url) privateIndicators).

Definition isPublicWebpage : cprog bool :=
  url ← perform LocationHref;
  Ret (is_public_url url).

Definition reader_request (url : jsstring) : Background.http_request :=
  {| Background.method := Background.POST;
     Background.url := ToString r_jina_api ++ lit "/reader";
     Background.body := Some (VObj [ (lit "url", VStr url);
                                     (lit "format", VStr (lit "markdown"));
                                     (lit "include_images", VBool false) ]) |}.

(** [data.markdown], cut when it is a string longer than the budget. A
    value without [substring] whose [length] exceeds the budget makes the
    call throw. *)
Definition truncate_markdown (markdown : jsval) : res jsval :=
  len ← get_length markdown;
  if gt_num len (inject_Z (Z.of_nat maxPageContentLength)) then
    match markdown with
    | VStr s => Ok (VStr (substring 0 maxPageContentLength s ++ truncation_marker))
    | _ => Raise (TypeError (lit "data.markdown.substring is not a function"))
    end
  else Ok markdown.

Definition captureWithJina : cprog jsval :=
  try_catch
    (url ← perform LocationHref;
     outcome ← perform (FetchReader (reader_request url));
     response ← (match outcome with
                 | Background.Resolved r => Ret r
                 | Background.Rejected e => Throw e
                 end) : cprog Background.http_response;
     if negb (Background.ok response)
     then Throw (Error (lit "r.jina.ai API responded with status: "
                        ++ Background.decimal (Background.status response)))
     else
       data ← of_res (Background.json response);
       markdown ← (if truthy data then of_res (get_prop data "markdown")
                   else Ret data) : cprog jsval;
       if truthy markdown then of_res (truncate_markdown markdown)
       else Throw (Error (lit "No markdown content returned from r.jina.ai")))
    (fun error => Throw error).

(** The control structure of [capturePageContext], for any three
    callees. *)
Definition capturePageContext_with
    (isPublic : cprog bool) (withJina : cprog jsval) (direct : cprog jsstring)
  : cprog jsval :=
  try_catch
    (public ← isPublic;
     fromJina ←
       (if public : bool then
          try_catch
            (jinaContext ← withJina;
             long ← (if truthy jinaContext
                     then len ← of_res (get_length jinaContext); Ret (gt_num len 100)
                     else Ret false) : cprog bool;
             Ret (if long : bool then Some jinaContext else None))
            (fun jinaError => Ret None)
        else Ret None) : cprog (option jsval);
     match fromJina with
     | Some jinaContext => Ret jinaContext
     | None => text ← direct; Ret (VStr text)
     end)
    (fun error => Ret (VStr [])).

Definition capturePageContext : cprog jsval :=
  capturePageContext_with isPublicWebpage captureWithJina captureDirectPageContent.

Definition createEnhancedPrompt (question : jsstring) (pageContext : jsval) : jsstring :=
  join [LF]
    ([ lit "I need help filling out a form field. I'll provide the context from the current webpage and my specific question.";
       [];
       lit "## Current Webpage Context:";
       (if truthy pageContext then ToString pageContext
        else lit "No context available from the current page.");
       [];
       lit "## My Question:";
       question;
       [] ]
     ++ instructions "1. Analyze the webpage context to understand what I'm filling out.").
End WithRuntime.
End Reader.

(** ** The variant that takes a screenshot first *)

Module Screenshot.
Section WithRuntime.
Context `{JsRuntime}.

(** [captureScreenshot]: the background's reply settles the promise; it
    resolves only with a non-empty image. *)
Definition captureScreenshot : cprog jsstring :=
  response ← perform RuntimeCaptureScreenshot;
  match response with
  | Raise lastError => Throw lastError
  | Ok (Some data) =>
      if nonempty data then Ret data
      else Throw (Error (lit "Failed to capture screenshot"))
  | Ok None => Throw (Error (lit "Failed to capture screenshot"))
  end.

Definition capturePageContext : cprog page_context :=
  try_catch
    (title ← perform DocumentTitle;
     href ← perform LocationHref;
     let basicInfo := lit "# " ++ title ++ [LF] ++ lit "URL: " ++ href ++ [LF; LF] in
     shot ←
       try_catch
         (screenshotData ← captureScreenshot;
          if nonempty screenshotData then
            labels ← perform FormLabelsAndContext;
            Ret (Some {| textContext := basicInfo ++ labels;
                         screenshotData := Some screenshotData |})
          else Ret None)
         (fun screenshotError => Ret None);
     match shot with
     | Some context => Ret context
     | None =>
         direct ← captureDirectPageContent;
         Ret {| textContext := basicInfo ++ direct; screenshotData := None |}
     end)
    (fun error =>
       title ← perform DocumentTitle;
       href ← perform LocationHref;
       Ret {| textContext := lit "# " ++ title ++ [LF] ++ lit "URL: " ++ href;
              screenshotData := None |}).

Definition createEnhancedPrompt (question : jsstring) (pageContext : page_context) : jsstring :=
  let prompt := lit "I need help filling out a form field. I'll provide context from the current webpage and my specific question." in
  let prompt :=
    match screenshotData pageContext with
    | Some data =>
        if nonempty data then
          prompt ++ [LF; LF] ++ lit "## Screenshot of Current Page:" ++ [LF]
          ++ lit "<image>" ++ [LF] ++ data ++ [LF] ++ lit "</image>"
        else prompt
    | None => prompt
    end in
  prompt ++ [LF; LF] ++
  join [LF]
    ([ lit "## Current Webpage Context:";
       (if nonempty (textContext pageContext) then textContext pageContext
        else lit "No text context available from the current page.");
       [];
       lit "## My Question:";
       question;
       [] ]
     ++ instructions "1. Look at the screenshot and webpage context to understand what I'm filling out.").
End WithRuntime.
End Screenshot.

End ContextHandler.

(* ===================================================================== *)
(** * content.js: detector, question inferrer and inserter *)
(* ===================================================================== *)

Module Content.
Import Dom Page.

(** ** The field detector's selector list *)

Definition FORM_ELEMENTS : selector :=
  [ [[SType "input"; SAttrEq "type" (lit "text")]];
    [[SType "textarea"]];
    [[SAttrEq "contenteditable" (lit "true")]];
    [[SType "input"; SAttrEq "type" (lit "search")]];
    [[SClass "form-control"]];
    [[SClass "cell-input"]];
    [[SClass "input"]];
    [[SClass "cellContainer"]; [SType "input"]];
    [[SClass "cellContainer"]; [SType "textarea"]];
    [[SType "input";
      SNot (SAttrEq "type" (lit "hidden"));
      SNot (SAttrEq "type" (lit "checkbox"));
      SNot (SAttrEq "type" (lit "radio"));
      SNot (SAttrEq "type" (lit "button"));
      SNot (SAttrEq "type" (lit "submit"))]];
    [[SAttrEq "role" (lit "textbox")]];
    [[SClass "ProseMirror"]];
    [[SClass "ql-editor"]];
    [[SClass "CodeMirror"]];
    [[SAttrEq "data-slate-editor" (lit "true")]] ].

(** [FORM_ELEMENTS.some(selector => element.matches(selector))] *)
Definition is_form_element (ancestors : list element) (e : element) : bool :=
  matches ancestors e FORM_ELEMENTS.

(** ** [detectFormQuestion] *)

(** ['label, .label, .form-label, h1, h2, h3, h4, h5, h6'] *)
Definition label_or_heading : selector :=
  [ [[SType "label"]]; [[SClass "label"]]; [[SClass "form-label"]];
    [[SType "h1"]]; [[SType "h2"]]; [[SType "h3"]];
    [[SType "h4"]]; [[SType "h5"]]; [[SType "h6"]] ].

(** ['h1, h2, h3, h4, h5, h6, .prompt, .question'] *)
Definition heading_or_prompt : selector :=
  [ [[SType "h1"]]; [[SType "h2"]]; [[SType "h3"]];
    [[SType "h4"]]; [[SType "h5"]]; [[SType "h6"]];
    [[SClass "prompt"]]; [[SClass "question"]] ].

(** ['div, section, article'] *)
Definition block_container : selector :=
  [ [[SType "div"]]; [[SType "section"]]; [[SType "article"]] ].

(** The selector [label[for="${element.id}"]] is built by pasting the id
    between quotes. An id without quote, backslash, line break or NUL is
    the attribute value that the selector asks for; for any other id what
    the pasted text means as a selector, or that it is a syntax error, is a
    parameter. *)
Class SelectorParser := {
  label_for_other : jsstring → res selector;
}.

Definition plain_in_quotes (s : jsstring) : bool :=
  forallb (fun c => negb ((c =? 34) || (c =? 92) || (c =? 10) || (c =? 12)
                          || (c =? 13) || (c =? 0))%N) s.

Definition label_for `{SelectorParser} (id : jsstring) : res selector :=
  if plain_in_quotes id then Ok [[[SType "label"; SAttrEq "for" id]]]
  else label_for_other id.

(** [node.textContent.trim()], [''] when there is no node. *)
Definition trimmed_text (n : option (path * node)) : jsstring :=
  match n with
  | Some (_, m) => trim (textContent m)
  | None => []
  end.

(** The loop over the parents: the parent is searched, then the loop moves
    up and stops when it has reached the body or run out of parents. *)
Fixpoint search_parents (root : node) (body : option path) (parents : list path) : jsstring :=
  match parents with
  | [] => []
  | parent :: rest =>
      let text := trimmed_text (querySelector root parent label_or_heading) in
      if nonempty text then text
      else match rest with
           | [] => []
           | next :: _ =>
               if bool_decide (body = Some next) then []
               else search_parents root body rest
           end
  end.

(** The loop over the previous element siblings. *)
Fixpoint search_siblings (siblings : list node) : jsstring :=
  match siblings with
  | [] => []
  | prev :: rest =>
      if nonempty (trim (textContent prev)) then trim (textContent prev)
      else search_siblings rest
  end.

Definition is_contenteditable (e : element) : bool :=
  match getAttribute e "contenteditable" with
  | Some v => jseqb v (lit "true")
  | None => false
  end.

Section Detect.
Context `{SelectorParser}.

Definition detectFormQuestion (root : node) (p : path) : res jsstring :=
  match element_at root p with
  | None => Raise (TypeError (lit "Cannot read properties of null"))
  | Some element =>
      let question : jsstring := [] in
      (* label with a for attribute *)
      question ←
        (if nonempty (prop_id element) then
           sel ← label_for (prop_id element);
           let label := document_querySelector root sel in
           Ok (if nonempty (trimmed_text label) then trimmed_text label else question)
         else Ok question);
      (* placeholder *)
      let question :=
        if negb (nonempty question) then
          match prop_placeholder element with
          | Some ph => if nonempty ph then ph else question
          | None => question
          end
        else question in
      (* aria-label *)
      let question :=
        if negb (nonempty question) then
          match getAttribute element "aria-label" with
          | Some al => if nonempty al then al else question
          | None => question
          end
        else question in
      (* labels near the parents *)
      let question :=
        if negb (nonempty question)
        then search_parents root (body_path root) (ancestor_paths p)
        else question in
      (* text of a previous sibling *)
      let question :=
        if negb (nonempty question)
        then search_siblings (previous_element_siblings root p)
        else question in
      (* headings around an editable region *)
      let question :=
        if negb (nonempty question) && is_contenteditable element then
          match closest root p block_container with
          | Some container =>
              match querySelectorAll root container heading_or_prompt with
              | first :: _ => trimmed_text (Some first)
              | [] => question
              end
          | None => question
          end
        else question in
      Ok question
  end.
End Detect.

(** ** [insertTextIntoElement] *)

(** Assigning [element.value]: a text input drops line breaks, a text area
    turns CR LF and CR into LF. *)
Fixpoint normalize_newlines (s : jsstring) : jsstring :=
  match s with
  | [] => []
  | c :: s' =>
      if N.eqb c 13 then
        match s' with
        | d :: s'' => if N.eqb d 10 then LF :: normalize_newlines s''
                      else LF :: normalize_newlines s'
        | [] => [LF]
        end
      else c :: normalize_newlines s'
  end.

Definition assigned_value (e : element) (text : jsstring) : jsstring :=
  if jseqb (tag e) (lit "input")
  then List.filter (fun c => negb ((c =? 10) || (c =? 13))%N) text
  else normalize_newlines text.

(** [tagName === 'TEXTAREA' || (tagName === 'INPUT' && type === 'text')] *)
Definition is_text_control (e : element) : bool :=
  jseqb (tagName e) (lit "TEXTAREA")
  || (jseqb (tagName e) (lit "INPUT")
      && match prop_type e with Some t => jseqb t (lit "text") | None => false end).

(** ['.ProseMirror, .ql-editor, .CodeMirror, [data-slate-editor="true"]'] *)
Definition rich_editor : selector :=
  [ [[SClass "ProseMirror"]]; [[SClass "ql-editor"]]; [[SClass "CodeMirror"]];
    [[SAttrEq "data-slate-editor" (lit "true")]] ].

(** [element.closest(sel) !== null], from the element and its ancestors. *)
Fixpoint has_closest (e : element) (ancestors : list element) (sel : selector) : bool :=
  matches ancestors e sel
  || match ancestors with
     | [] => false
     | a :: outer => has_closest a outer sel
     end.

(** The elements that get the extra blur and focus of the first script. *)
Definition framework_managed (f : field) : bool :=
  classList_contains (elem f) "form-control"
  || hasAttribute (elem f) "data-component"
  || hasAttribute (elem f) "role"
  || has_closest (elem f) (ancestors f) rich_editor.

Section Insert.
Context `{JsRuntime}.

(** The second script writes at once: the body of its
    [insertTextIntoElement] for a non-null element. The string assigned
    to [innerHTML] is kept as it was assigned. *)
Definition insert_now (e : element) (st : field_state) (text : jsval) : field_state :=
  if is_text_control e then
    {| value := assigned_value e (ToString text);
       innerHTML := innerHTML st;
       dispatched := dispatched st ++ [lit "input"];
       focus_calls := S (focus_calls st);
       click_calls := click_calls st;
       caret_at_end := caret_at_end st |}
  else if is_contenteditable e then
    {| value := value st;
       innerHTML := ToString text;
       dispatched := dispatched st ++ [lit "input"];
       focus_calls := S (focus_calls st);
       click_calls := click_calls st;
       caret_at_end := true |}
  else st.

(** The first script writes in a timer callback, 50 ms after focusing
    the element: the body of that callback. *)
Definition insert_deferred (f : field) (text : jsval) : field_state :=
  let e := elem f in
  let st := state f in
  let st :=
    if is_text_control e then
      {| value := assigned_value e (ToString text);
         innerHTML := innerHTML st;
         dispatched := dispatched st ++ [lit "input"; lit "change"; lit "keyup"];
         focus_calls := focus_calls st;
         click_calls := click_calls st;
         caret_at_end := caret_at_end st |}
    else if is_contenteditable e then
      {| value := value st;
         innerHTML := ToString text;
         dispatched := dispatched st ++ [lit "input"];
         focus_calls := focus_calls st;
         click_calls := click_calls st;
         caret_at_end := true |}
    else st in
  if framework_managed f then
    {| value := value st;
       innerHTML := innerHTML st;
       dispatched := dispatched st ++ [lit "blur"];
       focus_calls := S (focus_calls st);
       click_calls := click_calls st;
       caret_at_end := caret_at_end st |}
  else st.
End Insert.

(** ** The click handler *)

(** [error.message || 'Could not get response from Claude'] *)
Definition message_or_default (error : jserror) : jsstring :=
  match error_message error with
  | Some m => if nonempty m then m else lit "Could not get response from Claude"
  | None => lit "Could not get response from Claude"
  end.

(** A use of the global [activeElement] as an element: [null] has no
    methods. *)
Definition the_active_element : cprog handle :=
  active ← perform ReadActiveElement;
  match active with
  | Some h => Ret h
  | None => Throw (TypeError (lit "Cannot read properties of null"))
  end.

Definition the_field (h : handle) : cprog field :=
  f ← perform (ReadField h);
  match f with
  | Some f => Ret f
  | None => Throw (TypeError (lit "Cannot read properties of undefined"))
  end.

(** [document.body.contains(activeElement)] *)
Definition body_contains_active : cprog bool :=
  active ← perform ReadActiveElement;
  match active with
  | Some h => f ← perform (ReadField h);
              Ret (match f with Some f => in_body f | None => false end)
  | None => Ret false
  end.

(** The reset that both scripts run in [finally]. *)
Definition reset_processing : cprog unit :=
  _ ← perform (WriteIsProcessing false);
  _ ← perform (ButtonProcessing false);
  _ ← perform (SetTimeout 10000 ClearConversationUrl);
  Ret tt.

(** The reset on cancellation, inside [try]. *)
Definition reset_cancelled : cprog unit :=
  _ ← perform (WriteIsProcessing false);
  _ ← perform (ButtonProcessing false);
  _ ← perform (WriteConversationUrl None);
  Ret tt.

(** [settings.autoDetect] decides whether the question is inferred; an
    empty question opens the modal. *)
Definition obtain_question (settings : settings) : cprog jsstring :=
  question ←
    (if truthy (autoDetect settings) then
       h ← the_active_element;
       detected ← perform (DetectFormQuestion h);
       of_res detected
     else Ret []) : cprog jsstring;
  if negb (nonempty question) then perform PromptForQuestion
  else Ret question.

Definition askClaude_message (question : jsstring) (projectId title : jsval) : message :=
  {| action := lit "askClaude"; question := question;
     projectId := projectId; conversationTitle := title |}.

(** [try { body } catch (error) { notify } finally { reset }] *)
Definition guarded (body : cprog unit) : cprog unit :=
  finally
    (try_catch body
       (fun error =>
          perform (ShowNotification (lit "Error: " ++ message_or_default error))))
    reset_processing.

(** The first script: its inserter focuses the element and writes from a
    timer; its handler captures the page and checks that the field is still
    in the document. *)
Module WithContext.
Section Handler.
Context `{JsRuntime}.
(** The functions of context-handler.js, in either variant. *)
Context {context : Type}
        (capturePageContext : cprog context)
        (createEnhancedPrompt : jsstring → context → jsstring).

Definition insertTextIntoElement (element : option handle) (text : jsval) : cprog unit :=
  match element with
  | None => Ret tt
  | Some h =>
      _ ← perform (Focus h);
      _ ← perform (SetTimeout 50 (DeferredInsert h text));
      Ret tt
  end.

Definition handle_response (response : option Background.ask_result) : cprog unit :=
  match response with
  | Some response =>
      if truthy (Background.answer response) then
        _ ← (if nonempty (Background.chatUrl response)
             then perform (WriteConversationUrl (Some (Background.chatUrl response)))
             else Ret tt) : cprog unit;
        contained ← body_contains_active;
        if contained : bool then
          h ← the_active_element;
          _ ← perform (Focus h);
          _ ← perform (Delay 50);
          active ← perform ReadActiveElement;
          _ ← insertTextIntoElement active (Background.answer response);
          perform (ShowNotification (lit "Claude has filled the field successfully!"))
        else
          perform (ShowNotification (lit "Error: The form field is no longer available"))
      else
        perform (ShowNotification (lit "Error getting response from Claude. Please try again."))
  | None =>
      perform (ShowNotification (lit "Error getting response from Claude. Please try again."))
  end.

(** The request proper, once a question is there: from
    [capturePageContext()] to the handling of the answer. *)
Definition ask (settings : settings) (question : jsstring) : cprog unit :=
  pageContext ← capturePageContext;
  let conversationTitle := ContextHandler.generateConversationTitle question in
  let enhancedPrompt := createEnhancedPrompt question pageContext in
  response ← perform (RuntimeSendMessage
                        (askClaude_message enhancedPrompt (defaultProject settings)
                                           (VStr conversationTitle)));
  response ← of_res response;
  handle_response response.

(** The body of [try]. *)
Definition request : cprog unit :=
  _ ← perform (WriteIsProcessing true);
  _ ← perform (ButtonProcessing true);
  h ← the_active_element;
  _ ← perform (Focus h);
  h ← the_active_element;
  f ← the_field h;
  _ ← (if classList_contains (elem f) "form-control"
          || hasAttribute (elem f) "data-component"
          || has_closest (elem f) (ancestors f) rich_editor
       then
         h ← the_active_element;
         _ ← perform (Click h);
         _ ← perform (Delay 100);
         h ← the_active_element;
         perform (Focus h)
       else Ret tt) : cprog unit;
  settings ← perform StorageGet;
  settings ← of_res settings;
  question ← obtain_question settings;
  if negb (nonempty question) then reset_cancelled
  else ask settings question.

Definition handleClaudeButtonClick : cprog unit :=
  isProcessing ← perform ReadIsProcessing;
  cached ← (if isProcessing : bool then perform ReadConversationUrl else Ret None)
           : cprog (option jsstring);
  match cached with
  | Some ((_ :: _) as url) => perform (WindowOpen url)
  | _ =>
      active ← perform ReadActiveElement;
      match active with
      | None => Ret tt
      | Some _ => guarded request
      end
  end.
End Handler.
End WithContext.

(** The second script: no page context, no title, no containment check,
    and an inserter that writes at once. *)
Module Plain.
Section Handler.
Context `{JsRuntime}.

Definition insertTextIntoElement (element : option handle) (text : jsval) : cprog unit :=
  match element with
  | None => Ret tt
  | Some h =>
      f ← the_field h;
      perform (WriteField h (insert_now (elem f) (state f) text))
  end.

Definition handle_response (response : option Background.ask_result) : cprog unit :=
  match response with
  | Some response =>
      if truthy (Background.answer response) then
        _ ← (if nonempty (Background.chatUrl response)
             then perform (WriteConversationUrl (Some (Background.chatUrl response)))
             else Ret tt) : cprog unit;
        active ← perform ReadActiveElement;
        _ ← insertTextIntoElement active (Background.answer response);
        perform (ShowNotification (lit "Claude has filled the field successfully!"))
      else
        perform (ShowNotification (lit "Error getting response from Claude. Please try again."))
  | None =>
      perform (ShowNotification (lit "Error getting response from Claude. Please try again."))
  end.

(** The request proper, once a question is there. *)
Definition ask (settings : settings) (question : jsstring) : cprog unit :=
  response ← perform (RuntimeSendMessage
                        (askClaude_message question (defaultProject settings) VUndefined));
  response ← of_res response;
  handle_response response.

(** The body of [try]. *)
Definition request : cprog unit :=
  _ ← perform (WriteIsProcessing true);
  _ ← perform (ButtonProcessing true);
  settings ← perform StorageGet;
  settings ← of_res settings;
  question ← obtain_question settings;
  if negb (nonempty question) then reset_cancelled
  else ask settings question.

Definition handleClaudeButtonClick : cprog unit :=
  isProcessing ← perform ReadIsProcessing;
  cached ← (if isProcessing : bool then perform ReadConversationUrl else Ret None)
           : cprog (option jsstring);
  match cached with
  | Some ((_ :: _) as url) => perform (WindowOpen url)
  | _ =>
      active ← perform ReadActiveElement;
      match active with
      | None => Ret tt
      | Some _ => guarded request
      end
  end.
End Handler.
End Plain.

End Content.

(* ===================================================================== *)
(** * Running the content script in a page *)
(* ===================================================================== *)

Module Session.
Import Dom Page Content.

(** What the page, the user or the background can observe of a handler. *)
Inductive effect :=
| Opened (u : jsstring)                            (* a new tab *)
| Notified (msg : jsstring)                        (* a toast *)
| Sent (m : message)                               (* a request to the background *)
| CaptureRequested                                 (* the message [captureScreenshot] to the background *)
| ReaderRequested (rq : Background.http_request)   (* a request to the reader service *)
| Scheduled (ms : nat) (a : timer_action)          (* a timer *)
| Wrote (h : handle) (st : field_state)            (* the properties of a field *)
| Focused (h : handle)
| Clicked (h : handle).

(** What the context capture reads of the document. *)
Record facts := {
  title : jsstring;
  href : jsstring;
  structured : jsstring;
  text_nodes : res (list jsstring);
  form_context : jsstring;
}.

Record world := {
  isProcessing : bool;
  currentConversationUrl : option jsstring;
  activeElement : option handle;
  fields : gmap handle field;
  button_processing : bool;
  page_facts : facts;
  clock : nat;                                (* milliseconds *)
  timers : list (nat * timer_action);         (* due time and callback, in the order set *)
}.

Definition set_isProcessing (b : bool) (w : world) : world :=
  {| isProcessing := b; currentConversationUrl := currentConversationUrl w;
     activeElement := activeElement w; fields := fields w;
     button_processing := button_processing w; page_facts := page_facts w;
     clock := clock w; timers := timers w |}.

Definition set_url (u : option jsstring) (w : world) : world :=
  {| isProcessing := isProcessing w; currentConversationUrl := u;
     activeElement := activeElement w; fields := fields w;
     button_processing := button_processing w; page_facts := page_facts w;
     clock := clock w; timers := timers w |}.

Definition set_fields (fs : gmap handle field) (w : world) : world :=
  {| isProcessing := isProcessing w; currentConversationUrl := currentConversationUrl w;
     activeElement := activeElement w; fields := fs;
     button_processing := button_processing w; page_facts := page_facts w;
     clock := clock w; timers := timers w |}.

Definition set_button (b : bool) (w : world) : world :=
  {| isProcessing := isProcessing w; currentConversationUrl := currentConversationUrl w;
     activeElement := activeElement w; fields := fields w;
     button_processing := b; page_facts := page_facts w;
     clock := clock w; timers := timers w |}.

Definition set_timers (ts : list (nat * timer_action)) (w : world) : world :=
  {| isProcessing := isProcessing w; currentConversationUrl := currentConversationUrl w;
     activeElement := activeElement w; fields := fields w;
     button_processing := button_processing w; page_facts := page_facts w;
     clock := clock w; timers := ts |}.

Definition set_clock (t : nat) (w : world) : world :=
  {| isProcessing := isProcessing w; currentConversationUrl := currentConversationUrl w;
     activeElement := activeElement w; fields := fields w;
     button_processing := button_processing w; page_facts := page_facts w;
     clock := t; timers := timers w |}.

Definition with_state (f : field) (st : field_state) : field :=
  {| elem := elem f; ancestors := ancestors f; in_body := in_body f; state := st |}.

Definition focused (st : field_state) : field_state :=
  {| value := value st; innerHTML := innerHTML st; dispatched := dispatched st;
     focus_calls := S (focus_calls st); click_calls := click_calls st;
     caret_at_end := caret_at_end st |}.

Definition clicked (st : field_state) : field_state :=
  {| value := value st; innerHTML := innerHTML st; dispatched := dispatched st;
     focus_calls := focus_calls st; click_calls := S (click_calls st);
     caret_at_end := caret_at_end st |}.

Definition update_state (h : handle) (g : field_state → field_state) (w : world) : world :=
  set_fields (alter (fun f => with_state f (g (state f))) h (fields w)) w.

(** The events that the script completes without being suspended, with
    their reply and their effect on the world; [None] for an awaited one. *)
Definition react (ev : cevent) (w : world) : option (creply ev * world) :=
  match ev as e return option (creply e * world) with
  | ReadIsProcessing => Some (isProcessing w, w)
  | WriteIsProcessing b => Some (tt, set_isProcessing b w)
  | ReadConversationUrl => Some (currentConversationUrl w, w)
  | WriteConversationUrl u => Some (tt, set_url u w)
  | ReadActiveElement => Some (activeElement w, w)
  | WindowOpen u => Some (tt, w)
  | ButtonProcessing on => Some (tt, set_button on w)
  | Focus h => Some (tt, update_state h focused w)
  | Click h => Some (tt, update_state h clicked w)
  | ReadField h => Some (fields w !! h, w)
  | WriteField h st => Some (tt, update_state h (fun _ => st) w)
  | ShowNotification msg => Some (tt, w)
  | SetTimeout ms a => Some (tt, set_timers (timers w ++ [(clock w + ms, a)]) w)
  | DocumentTitle => Some (title (page_facts w), w)
  | LocationHref => Some (href (page_facts w), w)
  | StructuredContent => Some (structured (page_facts w), w)
  | VisibleTextNodes => Some (text_nodes (page_facts w), w)
  | FormLabelsAndContext => Some (form_context (page_facts w), w)
  | Delay _ | StorageGet | DetectFormQuestion _ | PromptForQuestion
  | RuntimeSendMessage _ | RuntimeCaptureScreenshot | FetchReader _ => None
  end.

(** What an event shows to the outside. *)
Definition observe (ev : cevent) : list effect :=
  match ev with
  | WindowOpen u => [Opened u]
  | ShowNotification msg => [Notified msg]
  | RuntimeSendMessage m => [Sent m]
  | RuntimeCaptureScreenshot => [CaptureRequested]
  | FetchReader rq => [ReaderRequested rq]
  | SetTimeout ms a => [Scheduled ms a]
  | WriteField h st => [Wrote h st]
  | Focus h => [Focused h]
  | Click h => [Clicked h]
  | _ => []
  end.

(** Everything outside the running handler: how the [n]-th awaited
    operation settles ([None]: it never does), and what the page, the
    timers and other handlers do to the world meanwhile. *)
Record cenv := {
  oracle : nat → ∀ ev : cevent, option (creply ev);
  interfere : nat → world → world;
}.

Inductive outcome (A : Type) :=
| Finished (r : res A)
| Suspended (ev : cevent).
Arguments Finished {A} r.
Arguments Suspended {A} ev.

(** A handler under way: the world as it is, the handler's own effects so
    far (oldest first), and the number of awaits it has passed. *)
Record config := {
  now : world;
  observed : list effect;
  awaits : nat;
}.

Definition start (w : world) : config :=
  {| now := w; observed := []; awaits := 0 |}.

(** After an event that the script completes at once. *)
Definition proceed (ev : cevent) (w' : world) (c : config) : config :=
  {| now := w'; observed := observed c ++ observe ev; awaits := awaits c |}.

(** After an awaited event has settled. *)
Definition resume (env : cenv) (ev : cevent) (c : config) : config :=
  {| now := interfere env (awaits c) (now c);
     observed := observed c ++ observe ev;
     awaits := S (awaits c) |}.

(** At an awaited event that has not settled. *)
Definition suspend (ev : cevent) (c : config) : config :=
  {| now := now c; observed := observed c ++ observe ev; awaits := awaits c |}.

(** A handler from its call to its end, or to the await that never
    settles. *)
Fixpoint run {A} (env : cenv) (p : cprog A) (c : config) : config * outcome A :=
  match p with
  | Ret a => (c, Finished (Ok a))
  | Throw e => (c, Finished (Raise e))
  | Vis ev k =>
      match react ev (now c) with
      | Some (r, w') => run env (k r) (proceed ev w' c)
      | None =>
          match oracle env (awaits c) ev with
          | Some r => run env (k r) (resume env ev c)
          | None => (suspend ev c, Suspended ev)
          end
      end
  end.

(** The first stretch of a handler: up to its first await. *)
Fixpoint run_sync {A} (p : cprog A) (c : config) : config * option (res A) :=
  match p with
  | Ret a => (c, Some (Ok a))
  | Throw e => (c, Some (Raise e))
  | Vis ev k =>
      match react ev (now c) with
      | Some (r, w') => run_sync (k r) (proceed ev w' c)
      | None => (suspend ev c, None)
      end
  end.

(** ** Timers *)

Section Timers.
Context `{JsRuntime}.

Definition fire (a : timer_action) (w : world) : world :=
  match a with
  | ClearConversationUrl => set_url None w
  | DeferredInsert h text =>
      match fields w !! h with
      | Some f => update_state h (fun _ => insert_deferred f text) w
      | None => w
      end
  end.

(** Due timers run in the order of their due times, and in the order
    they were set when these are equal. *)
Fixpoint insert_due (t : nat * timer_action) (l : list (nat * timer_action))
  : list (nat * timer_action) :=
  match l with
  | [] => [t]
  | x :: l' => if fst x <=? fst t then x :: insert_due t l' else t :: l
  end.

Definition by_due_time (l : list (nat * timer_action)) : list (nat * timer_action) :=
  foldl (fun acc t => insert_due t acc) [] l.

(** Time passes until [t]: the timers due by then run. *)
Definition advance (t : nat) (w : world) : world :=
  let due := List.filter (fun x => fst x <=? t) (timers w) in
  let later := List.filter (fun x => negb (fst x <=? t)) (timers w) in
  foldl (fun w x => fire (snd x) w) (set_clock t (set_timers later w)) (by_due_time due).
End Timers.

(** ** The message channel *)

(** How the background's answer reaches [sendMessageToBackground]: when
    the listener calls [sendResponse] the promise resolves with its
    argument. When it never does, the browser may close the port and run
    the callback with [chrome.runtime.lastError] set ([closed]), which
    rejects the promise, or leave the callback waiting. *)
Definition deliver (sent : option Background.ask_result) (closed : option jserror)
  : option (res (option Background.ask_result)) :=
  match sent with
  | Some r => Some (Ok (Some r))
  | None =>
      match closed with
      | Some lastError => Some (Raise lastError)
      | None => None
      end
  end.

End Session.

(* ===================================================================== *)
(** * Statements of the specification, in its own words *)
(* ===================================================================== *)

Module Spec.
Import Dom Page Content Session.

(** A transcript without a usable second message: the response is
    [null], [undefined] or another falsy value, [chat_messages] is
    missing, holds fewer than two messages, or its second message is an
    object with no content entries, or one whose first entry is an object
    with no text. *)
Inductive short_transcript : jsval → Prop :=
| response_missing response :
    truthy response = false →
    short_transcript response
| messages_missing props :
    truthy (lookup_prop (lit "chat_messages") props) = false →
    short_transcript (VObj props)
| messages_few props msgs :
    lookup_prop (lit "chat_messages") props = VArr msgs →
    length msgs < 2 →
    short_transcript (VObj props)
| content_missing props msgs second :
    lookup_prop (lit "chat_messages") props = VArr msgs →
    msgs !! 1 = Some (VObj second) →
    truthy (lookup_prop (lit "content") second) = false →
    short_transcript (VObj props)
| content_empty props msgs second :
    lookup_prop (lit "chat_messages") props = VArr msgs →
    msgs !! 1 = Some (VObj second) →
    lookup_prop (lit "content") second = VArr [] →
    short_transcript (VObj props)
| text_missing props msgs second first rest :
    lookup_prop (lit "chat_messages") props = VArr msgs →
    msgs !! 1 = Some (VObj second) →
    lookup_prop (lit "content") second = VArr (VObj first :: rest) →
    truthy (lookup_prop (lit "text") first) = false →
    short_transcript (VObj props).

(** The organization that [askClaude] works with and the requests it
    takes to know it: the stored id, or the [uuid] of the first entry of
    the list that the service returns. *)
Definition organization (resp : nat → Background.http_request → Background.http_response)
    (stored : jsval) : option (jsval * list Background.http_request) :=
  if truthy stored then Some (stored, [])
  else match Background.json (resp 0 Background.organizations_request) with
       | Ok (VArr (VObj props :: _)) =>
           Some (lookup_prop (lit "uuid") props, [Background.organizations_request])
       | _ => None
       end.

(** A background program checks every answer it gets: when the answer to
    one of its requests has a status outside 200-299, that request is the
    last one it sends, and it throws an error whose message ends with the
    status code. [fetches] counts the requests sent before the program
    starts. *)
Definition aborts_on_status {A} (p : Background.bprog A) : Prop :=
  ∀ env st,
    length (Background.requests (Background.trace st)) = Background.fetches st →
    let outcome := Background.run env p st in
    length (Background.requests (Background.trace (fst outcome)))
      = Background.fetches (fst outcome)
    ∧ (∃ new, Background.requests (Background.trace (fst outcome))
              = Background.requests (Background.trace st) ++ new)
    ∧ ∀ k rq resp,
        Background.fetches st ≤ k →
        Background.requests (Background.trace (fst outcome)) !! k = Some rq →
        Background.fetch_reply env k rq = Background.Resolved resp →
        Background.ok resp = false →
        Background.fetches (fst outcome) = S k
        ∧ ∃ what, snd outcome
                  = Raise (Error (what ++ Background.decimal (Background.status resp))).

(** The trigger control back at rest: [isProcessing] is false, the button
    no longer shows the spinner, and a timer is set to forget the
    conversation URL 10 seconds later. *)
Definition at_rest (c : config) : config :=
  {| now := set_timers (timers (now c) ++ [(clock (now c) + 10000, ClearConversationUrl)])
              (set_button false (set_isProcessing false (now c)));
     observed := observed c ++ [Scheduled 10000 ClearConversationUrl];
     awaits := awaits c |}.

(** A toast. *)
Definition notified (msg : jsstring) (c : config) : config :=
  {| now := now c; observed := observed c ++ [Notified msg]; awaits := awaits c |}.

(** [''], [null] and [undefined] count as no URL. *)
Definition cached_url (w : world) : option jsstring :=
  match currentConversationUrl w with
  | Some (c :: u) => Some (c :: u)
  | _ => None
  end.

(** A runtime for the examples: the conversions that the examples never
    reach give NaN and a question mark. *)
Definition example_runtime : JsRuntime :=
  {| ToNumber_other := fun _ => None; ToString_other := fun _ => lit "?" |}.

(** A response with status 200 whose body is the JSON value [j]. *)
Definition ok_response (j : jsval) : Background.http_response :=
  {| Background.status := 200; Background.json := Ok j; Background.text := Ok [] |}.

(** A response with an error status and an empty JSON object as body. *)
Definition error_response (code : nat) : Background.http_response :=
  {| Background.status := code; Background.json := Ok (VObj []);
     Background.text := Ok [] |}.

(** A transcript whose second message carries [answer]. *)
Definition transcript_of (answer : jsstring) : jsval :=
  VObj [(lit "chat_messages",
         VArr [VObj [];
               VObj [(lit "content", VArr [VObj [(lit "text", VStr answer)]])]])].

Definition example_uuid (n : nat) : jsstring := lit "uuid-" ++ Background.decimal n.
Definition example_date (n : nat) : jsstring := lit "1/1/2026, 9:00:00 AM".

(** A service that answers every call with status 200 and the same
    transcript. *)
Definition example_responses (n : nat) (rq : Background.http_request)
  : Background.http_response :=
  ok_response (transcript_of (lit "This is a test.")).

Definition example_service : Background.benv :=
  Background.answering example_responses example_uuid example_date.

(** A service whose organization list is empty. *)
Definition no_organizations : Background.benv :=
  Background.answering (fun _ _ => ok_response (VArr [])) example_uuid example_date.

(** A service that has its own id for the conversation it creates. *)
Definition service_with_own_ids : Background.benv :=
  Background.answering
    (fun n _ => match n with
                | 0 => ok_response (VObj [(lit "uuid", VStr (lit "issued-by-service"))])
                | _ => ok_response (transcript_of (lit "This is a test."))
                end)
    example_uuid example_date.

(** The [uuid] of the body of a response: the id that the service sends. *)
Definition issued_uuid (r : Background.http_response) : res jsval :=
  body ← Background.json r; get_prop body "uuid".

(** A service whose [n]-th answer ([failing]) has status [code]. *)
Definition failing_service (failing code : nat) : Background.benv :=
  Background.answering
    (fun n _ => if n =? failing then error_response code
                else ok_response (transcript_of (lit "This is a test.")))
    example_uuid example_date.

(** *** The candidates of the question inferrer, as the specification
    lists them *)

(** The first non-empty string of a list, [''] when there is none. *)
Fixpoint first_nonempty (candidates : list jsstring) : jsstring :=
  match candidates with
  | [] => []
  | x :: rest => if nonempty x then x else first_nonempty rest
  end.

(** (1) The text of the first [label] whose [for] is the id of the field. *)
Definition label_text (root : node) (e : element) : jsstring :=
  if nonempty (prop_id e)
  then trimmed_text (document_querySelector root
                       [[[SType "label"; SAttrEq "for" (prop_id e)]]])
  else [].

(** (2) The placeholder, read as the specification says from the
    attribute, and as the script does from the property. *)
Definition placeholder_attribute (e : element) : jsstring :=
  default [] (getAttribute e "placeholder").
Definition placeholder_property (e : element) : jsstring :=
  default [] (prop_placeholder e).

(** (3) *)
Definition aria_label (e : element) : jsstring :=
  default [] (getAttribute e "aria-label").

(** (4) The ancestors that the walk visits: the parent, then the
    ancestors further out as far as the body, which is left out. *)
Fixpoint before_body (body : option path) (l : list path) : list path :=
  match l with
  | [] => []
  | a :: l' => if bool_decide (body = Some a) then [] else a :: before_body body l'
  end.

Definition walk_to_body (body : option path) (parents : list path) : list path :=
  match parents with
  | [] => []
  | parent :: rest => parent :: before_body body rest
  end.

Definition ancestor_label (root : node) (p : path) : jsstring :=
  first_nonempty
    (map (fun a => trimmed_text (querySelector root a label_or_heading))
         (walk_to_body (body_path root) (ancestor_paths p))).

(** (5) *)
Definition sibling_text (root : node) (p : path) : jsstring :=
  first_nonempty (map (fun n => trim (textContent n)) (previous_element_siblings root p)).

(** (6) *)
Definition editable_heading (root : node) (p : path) (e : element) : jsstring :=
  if is_contenteditable e then
    match closest root p block_container with
    | Some container => trimmed_text (head (querySelectorAll root container heading_or_prompt))
    | None => []
    end
  else [].

Definition candidates (root : node) (p : path) (e : element) : list jsstring :=
  [ label_text root e; placeholder_property e; aria_label e;
    ancestor_label root p; sibling_text root p; editable_heading root p e ].

(** The same list with the placeholder attribute. *)
Definition candidates_of_claim (root : node) (p : path) (e : element) : list jsstring :=
  [ label_text root e; placeholder_attribute e; aria_label e;
    ancestor_label root p; sibling_text root p; editable_heading root p e ].

(** A selector parser for the examples: the ids of the examples are
    plain, so it is never asked. *)
Definition example_parser : SelectorParser :=
  {| label_for_other := fun _ => Raise (SyntaxError (lit "not a valid selector")) |}.

(** [<html><body><input placeholder="Enter your name"></body></html>] *)
Definition page_of (e : element) : node :=
  Elem {| tag := lit "html"; attrs := [] |}
    [Elem {| tag := lit "body"; attrs := [] |} [Elem e []]].

Definition name_input : element :=
  {| tag := lit "input"; attrs := [(lit "placeholder", lit "Enter your name")] |}.

(** [<div contenteditable="true" placeholder="Enter your name">] *)
Definition name_editor : element :=
  {| tag := lit "div";
     attrs := [(lit "contenteditable", lit "true");
               (lit "placeholder", lit "Enter your name")] |}.

(** *** A captured page with its screenshot *)

Definition example_screenshot : jsstring := lit "data:image/png;base64,iVBORw0KGgo=".

Definition context_with_screenshot : page_context :=
  {| textContext := lit "# Application";
     screenshotData := Some example_screenshot |}.

(** *** A page for the examples *)

Definition fresh_state : field_state :=
  {| value := []; innerHTML := []; dispatched := [];
     focus_calls := 0; click_calls := 0; caret_at_end := false |}.

(** [<textarea placeholder="Summary">] *)
Definition textarea_summary : element :=
  {| tag := lit "textarea"; attrs := [(lit "placeholder", lit "Summary")] |}.

(** [<input type="search">] *)
Definition search_input : element :=
  {| tag := lit "input"; attrs := [(lit "type", lit "search")] |}.

(** [<div class="form-control">] *)
Definition form_control_container : element :=
  {| tag := lit "div"; attrs := [(lit "class", lit "form-control")] |}.

(** A field in the document, and one that has been removed from it. *)
Definition attached (e : element) : field :=
  {| elem := e; ancestors := []; in_body := true; state := fresh_state |}.
Definition detached (e : element) : field :=
  {| elem := e; ancestors := []; in_body := false; state := fresh_state |}.

Definition example_facts : facts :=
  {| title := lit "Application";
     href := lit "https://example.com/apply";
     structured := [];
     text_nodes := Ok [lit "Tell us about yourself"];
     form_context := lit "## Form Context" |}.

(** A page whose structured content is one line of 20,001 letters. *)
Definition long_facts : facts :=
  {| title := lit "Application";
     href := lit "https://example.com/apply";
     structured := replicate 20001 97%N;
     text_nodes := Ok [];
     form_context := [] |}.

(** The text that direct scraping extracts from a page, before it is
    cleaned: the structured content when it has at least 100 characters,
    the visible text nodes otherwise. *)
Definition extracted (page : facts) (content : jsstring) : Prop :=
  (100 ≤ length (structured page) ∧ content = structured page)
  ∨ (length (structured page) < 100
     ∧ ∃ texts, text_nodes page = Ok texts ∧ content = join [LF; LF] (map trim texts)).

(** The first two lines of a direct-scrape context. *)
Definition context_header (page : facts) : jsstring :=
  lit "# " ++ title page ++ [LF] ++ lit "URL: " ++ href page ++ [LF; LF].

(** What the reader variant takes for a failure of the reader service:
    the call throws, or the markdown it returns has no more than 100
    characters (the spec says fewer than 100). *)
Definition failed_or_thin (r : res jsval) : Prop :=
  (∃ e, r = Raise e) ∨ (∃ s, r = Ok (VStr s) ∧ length s ≤ 100).

(** An idle page whose active field is [f], under handle 0. *)
Definition page_with (f : field) : world :=
  {| isProcessing := false; currentConversationUrl := None;
     activeElement := Some 0; fields := {[ 0 := f ]};
     button_processing := false; page_facts := example_facts;
     clock := 1000; timers := [] |}.

(** An idle page with the long content and no field. *)
Definition long_page : world :=
  {| isProcessing := false; currentConversationUrl := None;
     activeElement := None; fields := ∅;
     button_processing := false; page_facts := long_facts;
     clock := 1000; timers := [] |}.

(** A page of an administration console. *)
Definition private_page : world :=
  {| isProcessing := false; currentConversationUrl := None;
     activeElement := None; fields := ∅;
     button_processing := false;
     page_facts := {| title := lit "Console";
                      href := lit "https://example.com/admin/users";
                      structured := [];
                      text_nodes := Ok [lit "Users of the console"];
                      form_context := [] |};
     clock := 1000; timers := [] |}.

(** The same page while an earlier request is processing and its
    conversation URL is cached. *)
Definition page_processing (f : field) : world :=
  {| isProcessing := true;
     currentConversationUrl := Some (lit "https://claude.ai/chat/uuid-0");
     activeElement := Some 0; fields := {[ 0 := f ]};
     button_processing := true; page_facts := example_facts;
     clock := 1000; timers := [] |}.

(** Auto-detection is on and infers "Summary"; no screenshot can be
    taken and the reader service cannot be reached; the background's reply
    is [reply] ([None]: the callback is never run). *)
Definition example_oracle (reply : option (res (option Background.ask_result)))
    (n : nat) (ev : cevent) : option (creply ev) :=
  match ev as e return option (creply e) with
  | Delay _ => Some tt
  | StorageGet => Some (Ok {| defaultProject := VUndefined; autoDetect := VBool true |})
  | DetectFormQuestion _ => Some (Ok (lit "Summary"))
  | PromptForQuestion => Some []
  | RuntimeSendMessage _ => reply
  | RuntimeCaptureScreenshot => Some (Raise (LastError (Some (lit "Cannot capture"))))
  | FetchReader _ => Some (Background.Rejected (TypeError (lit "Failed to fetch")))
  | _ => None
  end.

(** A reader service that answers every request with [markdown]. *)
Definition reader_answers (markdown : jsstring) (n : nat) (ev : cevent)
  : option (creply ev) :=
  match ev as e return option (creply e) with
  | FetchReader _ =>
      Some (Background.Resolved
              {| Background.status := 200;
                 Background.json := Ok (VObj [(lit "markdown", VStr markdown)]);
                 Background.text := Ok [] |})
  | _ => None
  end.

(** Nothing else touches the page while the handler waits. *)
Definition quiet_page (reply : option (res (option Background.ask_result))) : cenv :=
  {| oracle := example_oracle reply; interfere := fun _ w => w |}.

Definition example_answer : Background.ask_result :=
  {| Background.answer := VStr (lit "This is a test.");
     Background.conversationId := lit "uuid-0";
     Background.chatUrl := lit "https://claude.ai/chat/uuid-0";
     Background.newConversationCreated := true |}.

(** What the browser sets as [chrome.runtime.lastError] when it closes a
    port whose listener never answered. *)
Definition port_closed : jserror :=
  LastError (Some (lit "The message port closed before a response was received.")).

(** The question as a title shows it: trimmed, without the characters
    that mark up markdown. *)
Definition cleaned_question (question : jsstring) : jsstring :=
  List.filter (fun c => negb (ContextHandler.is_markdown c)) (trim question).

(** The first sentence end of a text is at [i]: one of [.!?] stands
    there and none before. *)
Definition first_sentence_end (s : jsstring) (i : nat) : Prop :=
  (∃ c, s !! i = Some c ∧ ContextHandler.is_sentence_end c = true)
  ∧ ∀ j c, j < i → s !! j = Some c → ContextHandler.is_sentence_end c = false.

(** [document.body.contains(activeElement)] *)
Definition active_in_document (w : world) : bool :=
  match activeElement w with
  | Some h => match fields w !! h with
              | Some f => in_body f
              | None => false
              end
  | None => false
  end.

(** The toasts among the effects. *)
Definition notifications (log : list effect) : list jsstring :=
  omap (fun e => match e with Notified msg => Some msg | _ => None end) log.

(** The requests with a question to the background among the effects. *)
Definition sent_messages (log : list effect) : list message :=
  omap (fun e => match e with Sent m => Some m | _ => None end) log.

(** The writes to fields among the effects, direct or set on a timer. *)
Definition writes (log : list effect) : list (handle * jsval + handle * field_state) :=
  omap (fun e => match e with
                 | Scheduled _ (DeferredInsert h text) => Some (inl (h, text))
                 | Wrote h st => Some (inr (h, st))
                 | _ => None
                 end) log.

(** [{"chat_messages": [{}, null]}] *)
Definition transcript_with_null_message : jsval :=
  VObj [(lit "chat_messages", VArr [VObj []; VNull])].

(** [{"chat_messages": [{}]}] *)
Definition transcript_with_one_message : jsval :=
  VObj [(lit "chat_messages", VArr [VObj []])].

(** A service that answers every call with status 200 and the body
    [transcript]. *)
Definition service_answering (transcript : jsval) : Background.benv :=
  Background.answering (fun _ _ => ok_response transcript) example_uuid example_date.

(** What the content script gets of the listener: its answer, or, when
    the listener never answers, what [closed] says of the port. *)
Definition reply_of (listened : res (option Background.ask_result))
    (closed : option jserror) : option (res (option Background.ask_result)) :=
  match listened with
  | Ok sent => deliver sent closed
  | Raise _ => deliver None closed
  end.

(** *** What the detector takes for a field, in short *)

(** The types that the general input selector leaves out. *)
Definition excluded_input_types : list jsstring :=
  map lit ["hidden"; "checkbox"; "radio"; "button"; "submit"]%string.

Definition excluded_type (e : element) : bool :=
  match getAttribute e "type" with
  | Some t => existsb (jseqb (to_lower t)) excluded_input_types
  | None => false
  end.

Definition field_classes : list string :=
  ["form-control"; "cell-input"; "input"; "ProseMirror"; "ql-editor"; "CodeMirror"]%string.

Definition attribute_is (e : element) (name : string) (v : jsstring) : bool :=
  match getAttribute e name with Some x => jseqb x v | None => false end.

Definition in_cell_container (ancestors : list element) : bool :=
  existsb (fun a => classList_contains a "cellContainer") ancestors.

(** A text area; an element with [contenteditable="true"], one of six
    classes, [role="textbox"] or [data-slate-editor="true"]; or an input
    that is inside a [.cellContainer] or whose type is none of the five
    left out. *)
Definition accepted (ancestors : list element) (e : element) : bool :=
  jseqb (tag e) (lit "textarea")
  || is_contenteditable e
  || existsb (classList_contains e) field_classes
  || attribute_is e "role" (lit "textbox")
  || attribute_is e "data-slate-editor" (lit "true")
  || (jseqb (tag e) (lit "input")
      && (negb (excluded_type e) || in_cell_container ancestors)).

(** [<input type="password">] *)
Definition password_input : element :=
  {| tag := lit "input"; attrs := [(lit "type", lit "password")] |}.

(** *** Requests that fail *)

(** A background program sends at most [n] requests, and a request that
    the network fails is its last: the program rejects with the error of
    that request. *)
Definition gives_up_on_rejection {A} (n : nat) (p : Background.bprog A) : Prop :=
  ∀ env st,
    length (Background.requests (Background.trace st)) = Background.fetches st →
    let outcome := Background.run env p st in
    length (Background.requests (Background.trace (fst outcome)))
      = Background.fetches (fst outcome)
    ∧ (∃ new, Background.requests (Background.trace (fst outcome))
              = Background.requests (Background.trace st) ++ new
              ∧ length new ≤ n)
    ∧ ∀ k rq e,
        Background.fetches st ≤ k →
        Background.requests (Background.trace (fst outcome)) !! k = Some rq →
        Background.fetch_reply env k rq = Background.Rejected e →
        Background.fetches (fst outcome) = S k ∧ snd outcome = Raise e.

(** A service that cannot be reached. *)
Definition offline : Background.benv :=
  {| Background.fetch_reply := fun _ _ => Background.Rejected (TypeError (lit "Failed to fetch"));
     Background.uuid_reply := example_uuid;
     Background.date_reply := example_date |}.

(** *** The stored organization *)

(** A background program leaves the stored organization id as it is. *)
Definition keeps_organization {A} (p : Background.bprog A) : Prop :=
  ∀ env st,
    Background.currentOrgId (fst (Background.run env p st)) = Background.currentOrgId st.

(** A service with one organization. *)
Definition one_organization : Background.benv :=
  Background.answering
    (fun n _ => match n with
                | 0 => ok_response (VArr [VObj [(lit "uuid", VStr (lit "org-1"));
                                                (lit "name", VStr (lit "Ada"))]])
                | _ => ok_response (transcript_of (lit "This is a test."))
                end)
    example_uuid example_date.

(** *** A page with two fields *)

(** The text area under handle 0, which is active, and the name input
    under handle 1. *)
Definition two_fields : world :=
  {| isProcessing := false; currentConversationUrl := None;
     activeElement := Some 0;
     fields := {[ 0 := attached textarea_summary; 1 := attached name_input ]};
     button_processing := false; page_facts := example_facts;
     clock := 1000; timers := [] |}.

Definition focus_on (h : handle) (w : world) : world :=
  {| isProcessing := isProcessing w; currentConversationUrl := currentConversationUrl w;
     activeElement := Some h; fields := fields w;
     button_processing := button_processing w; page_facts := page_facts w;
     clock := clock w; timers := timers w |}.

(** The user moves to the name input during the [n]-th wait. *)
Definition focus_moves (n : nat) (reply : option (res (option Background.ask_result)))
  : cenv :=
  {| oracle := example_oracle reply;
     interfere := fun k w => if k =? n then focus_on 1 w else w |}.

(** The world when the first script has an answer and waits 50 ms before
    it inserts: the address of the conversation is kept and the active
    element [h] has been focused. *)
Definition before_delay (r : Background.ask_result) (h : handle) (w : world) : world :=
  update_state h focused
    (if nonempty (Background.chatUrl r) then set_url (Some (Background.chatUrl r)) w
     else w).

(** *** Effects of one kind *)

(** On every path, the program shows at most [n] effects of the kind
    that [proj] picks. *)
Fixpoint shows_at_most {A B} (proj : effect → option B) (n : nat) (p : cprog A) : Prop :=
  match p with
  | Ret _ | Throw _ => True
  | Vis ev k =>
      length (omap proj (observe ev)) ≤ n
      ∧ ∀ r, shows_at_most proj (n - length (omap proj (observe ev))) (k r)
  end.

Definition sent_message (e : effect) : option message :=
  match e with Sent m => Some m | _ => None end.

(** [chrome.runtime.sendMessage({action: 'captureScreenshot'})] *)
Definition capture_request (e : effect) : option unit :=
  match e with CaptureRequested => Some tt | _ => None end.

(** Every message to the background, of either action: [None] stands for
    the one that asks for a screenshot. *)
Definition background_message (e : effect) : option (option message) :=
  match e with
  | Sent m => Some (Some m)
  | CaptureRequested => Some None
  | _ => None
  end.

Definition background_messages (log : list effect) : list (option message) :=
  omap background_message log.

Definition write (e : effect) : option (handle * jsval + handle * field_state) :=
  match e with
  | Scheduled _ (DeferredInsert h text) => Some (inl (h, text))
  | Wrote h st => Some (inr (h, st))
  | _ => None
  end.

End Spec.

(* ===================================================================== *)
(** * background.js: the queries of the popup *)
(* ===================================================================== *)

Module Queries.
Import Background.

Section WithRuntime.
Context `{JsRuntime}.

(** [getUserInfo]: the name of the first organization, [null] when there
    is none or the query fails. *)
Definition getUserInfo : bprog jsval :=
  try_catch
    (orgs ← fetchOrganizations;
     some ← (if truthy orgs
             then len ← of_res (get_length orgs); Ret (gt_num len 0)
             else Ret false) : bprog bool;
     if some : bool then
       first ← of_res (get_index orgs 0);
       name ← of_res (get_prop first "name");
       Ret (VObj [(lit "name", name)])
     else Ret VNull)
    (fun _ => Ret VNull).

(** A case of the message listener, [query().then(sendResponse)]: what
    [sendResponse] is called with, [None] when it is never called. *)
Definition answered {A} (query : bprog A) : bprog (option A) :=
  try_catch (r ← query; Ret (Some r)) (fun _ => Ret None).

End WithRuntime.
End Queries.

(* ===================================================================== *)
(** * Theorems *)
(* ===================================================================== *)

(** ** Strings *)

Lemma jseqb_eq (a b : jsstring) : jseqb a b = true ↔ a = b.
Proof.
  revert b. induction a as [|x a IH]; intros [|y b]; simpl; try (split; congruence).
  rewrite andb_true_iff, N.eqb_eq, IH. split.
  - intros [-> ->]. reflexivity.
  - intros Heq. injection Heq as -> ->. auto.
Qed.

Lemma jseqb_refl (a : jsstring) : jseqb a a = true.
Proof. apply jseqb_eq. reflexivity. Qed.

Lemma starts_with_app (p rest : jsstring) : starts_with p (p ++ rest) = true.
Proof. induction p as [|x p IH]; simpl; [reflexivity|]. rewrite N.eqb_refl. exact IH. Qed.

Lemma starts_with_take (p s : jsstring) :
  starts_with p s = true → s = p ++ drop (length p) s.
Proof.
  revert s. induction p as [|x p IH]; intros s Hs; simpl in *; [reflexivity|].
  destruct s as [|y s]; [discriminate|].
  apply andb_true_iff in Hs as [Hxy Hs]. apply N.eqb_eq in Hxy as ->.
  simpl. f_equal. apply IH, Hs.
Qed.

(** [indexOf] returns the position of an occurrence. *)
Lemma index_of_sound (p s : jsstring) (i : nat) :
  index_of p s = Some i → s = take i s ++ p ++ drop (i + length p) s.
Proof.
  revert i. induction s as [|c s IH]; intros i Hi.
  - simpl in Hi. destruct (starts_with p []) eqn:Hp; [|discriminate].
    injection Hi as <-. simpl. apply starts_with_take in Hp. exact Hp.
  - simpl in Hi. destruct (starts_with p (c :: s)) eqn:Hp.
    + injection Hi as <-. simpl take. simpl app at 1.
      apply starts_with_take in Hp. exact Hp.
    + destruct (index_of p s) as [j|] eqn:Hj; [|discriminate].
      injection Hi as <-. simpl. f_equal. apply IH. reflexivity.
Qed.

(** [indexOf] returns the first occurrence: the pattern does not start
    anywhere before it. *)
Lemma index_of_first (p s : jsstring) (i k : nat) :
  index_of p s = Some i → k < i → starts_with p (drop k s) = false.
Proof.
  revert i k. induction s as [|c s IH]; intros i k Hi Hk.
  - simpl in Hi. destruct (starts_with p []); [|discriminate].
    injection Hi as <-. lia.
  - simpl in Hi. destruct (starts_with p (c :: s)) eqn:Hp.
    + injection Hi as <-. lia.
    + destruct (index_of p s) as [j|] eqn:Hj; [|discriminate].
      injection Hi as <-. destruct k as [|k]; [exact Hp|].
      simpl. apply (IH j); [reflexivity|lia].
Qed.

Lemma index_of_none (p s : jsstring) (k : nat) :
  index_of p s = None → starts_with p (drop k s) = false.
Proof.
  revert k. induction s as [|c s IH]; intros k Hi.
  - simpl in Hi. destruct (starts_with p []) eqn:Hp; [discriminate|].
    destruct k; exact Hp.
  - simpl in Hi. destruct (starts_with p (c :: s)) eqn:Hp; [discriminate|].
    destruct (index_of p s) eqn:Hj; [discriminate|].
    destruct k as [|k]; [exact Hp|]. simpl. apply IH. reflexivity.
Qed.

(** [substring(0, n)] keeps at most [n] code units, and exactly [n] of a
    longer string. *)
Lemma substring_length (n : nat) (s : jsstring) :
  length (substring 0 n s) = Nat.min n (length s).
Proof. unfold substring. rewrite Nat.sub_0_r, drop_0, length_take. reflexivity. Qed.

Lemma substring_prefix (n : nat) (s : jsstring) :
  substring 0 n s = take n s.
Proof. unfold substring. rewrite Nat.sub_0_r, drop_0. reflexivity. Qed.

(** A pattern whose first code unit occurs nowhere else in it cannot
    start inside [x] and end inside a copy of itself that follows [x]. *)
Lemma starts_with_no_overlap (c : N) (t x y : jsstring) :
  c ∉ t → starts_with t x = false → starts_with t (x ++ c :: y) = false.
Proof.
  revert x. induction t as [|a t IH]; intros x Hc Hx; [discriminate|].
  destruct x as [|b x]; simpl in *.
  - apply andb_false_iff. left. apply N.eqb_neq. intros ->. apply Hc. left.
  - apply andb_false_iff in Hx as [Hab|Hx].
    + rewrite Hab. reflexivity.
    + apply andb_false_iff. right. apply IH; [|exact Hx].
      intros Hin. apply Hc. right. exact Hin.
Qed.

Lemma index_of_after_prefix (c : N) (t pre rest : jsstring) :
  c ∉ t →
  index_of (c :: t) pre = None →
  index_of (c :: t) (pre ++ (c :: t) ++ rest) = Some (length pre).
Proof.
  intros Hc. induction pre as [|a pre IH]; intros Hnone.
  - change ([] ++ (c :: t) ++ rest) with ((c :: t) ++ rest).
    destruct ((c :: t) ++ rest) as [|z zs] eqn:Hz; [discriminate|].
    unfold index_of. rewrite <- Hz, starts_with_app. reflexivity.
  - change ((a :: pre) ++ (c :: t) ++ rest) with (a :: (pre ++ (c :: t) ++ rest)).
    cbn [index_of] in *.
    destruct (starts_with (c :: t) (a :: pre)) eqn:Hs; [discriminate|].
    destruct (index_of (c :: t) pre) eqn:Hpre; [discriminate|].
    assert (Hno : starts_with (c :: t) (a :: pre ++ (c :: t) ++ rest) = false).
    { cbn [starts_with] in *. apply andb_false_iff in Hs as [Hca|Hs].
      - rewrite Hca. reflexivity.
      - apply andb_false_iff. right.
        change (pre ++ (c :: t) ++ rest) with (pre ++ c :: (t ++ rest)).
        apply starts_with_no_overlap; assumption. }
    rewrite Hno, IH; reflexivity.
Qed.

Lemma includes_false (s p : jsstring) : includes s p = false → index_of p s = None.
Proof. unfold includes. destruct (index_of p s); [discriminate|reflexivity]. Qed.

(** ** The chat-service client *)

Import Background.

Section BackgroundFacts.
Context `{JsRuntime}.

Lemma lt_num_of_nat (n k : nat) :
  lt_num (num_of_nat n) (inject_Z (Z.of_nat k)) = (n <? k).
Proof.
  unfold lt_num, num_of_nat, ToNumber, Qle_bool. simpl.
  rewrite !Z.mul_1_r.
  destruct (Nat.ltb_spec n k) as [Hlt|Hge].
  - apply negb_true_iff, Z.leb_gt. lia.
  - apply negb_false_iff, Z.leb_le. lia.
Qed.

Lemma gt_num_of_nat (n k : nat) :
  gt_num (num_of_nat n) (inject_Z (Z.of_nat k)) = (k <? n).
Proof.
  unfold gt_num, num_of_nat, ToNumber, Qle_bool. simpl.
  rewrite !Z.mul_1_r.
  destruct (Nat.ltb_spec k n) as [Hlt|Hge].
  - apply negb_true_iff, Z.leb_gt. lia.
  - apply negb_false_iff, Z.leb_le. lia.
Qed.

Lemma run_bind {A B} env (p : bprog A) (f : A → bprog B) st :
  run env (p ≫= f) st =
  match run env p st with
  | (st', Ok a) => run env (f a) st'
  | (st', Raise e) => (st', Raise e)
  end.
Proof.
  revert st. induction p as [a|e|ev k IH]; intros st; try reflexivity.
  destruct ev; cbn; apply IH.
Qed.

Lemma run_try_catch {A} env (p : bprog A) h st :
  run env (try_catch p h) st =
  match run env p st with
  | (st', Ok a) => (st', Ok a)
  | (st', Raise e) => run env (h e) st'
  end.
Proof.
  revert st. induction p as [a|e|ev k IH]; intros st; try reflexivity.
  destruct ev; cbn; apply IH.
Qed.

(** A [catch] that throws its error again changes nothing. *)
Lemma run_rethrow {A} env (p : bprog A) st :
  run env (try_catch p (fun error => Throw error)) st = run env p st.
Proof.
  rewrite run_try_catch. destruct (run env p st) as [st' [a|e]]; reflexivity.
Qed.

Lemma run_fetch env rq st :
  run env (fetch rq) st =
  (after_fetch rq st,
   match fetch_reply env (fetches st) rq with
   | Resolved r => Ok r
   | Rejected e => Raise e
   end).
Proof. unfold fetch. cbn. destruct (fetch_reply env (fetches st) rq); reflexivity. Qed.

Lemma run_of_res {A} env (r : res A) st : run env (of_res r) st = (st, r).
Proof. destruct r; reflexivity. Qed.

Lemma run_name_or_default env name st :
  run env (name_or_default name) st =
  if truthy name then (st, Ok name)
  else (after_date st, Ok (VStr (lit "Form Assistant - " ++ date_reply env (dates st)))).
Proof. unfold name_or_default. destruct (truthy name); reflexivity. Qed.

Lemma run_prepare_message env message st :
  run env (prepare_message message) st =
  match marker message with
  | Some _ => (after_uuid st, Ok (posted message (uuid_reply env (uuids st))))
  | None => (st, Ok (posted message []))
  end.
Proof. unfold prepare_message. destruct (marker message); reflexivity. Qed.

Lemma posted_without_marker (message a b : jsstring) :
  marker message = None → posted message a = posted message b.
Proof. unfold posted. intros ->. reflexivity. Qed.

Lemma run_ensure_organization resp uuid date stored org asked st :
  ok (resp 0 organizations_request) = true →
  fetches st = 0 →
  currentOrgId st = stored →
  Spec.organization resp stored = Some (org, asked) →
  run (answering resp uuid date) ensure_organization st =
  ({| currentOrgId := org; trace := trace st ++ map Fetch asked;
      fetches := length asked; uuids := uuids st; dates := dates st |}, Ok tt).
Proof.
  intros Hok Hf Hst Horg. unfold ensure_organization, Spec.organization in *.
  cbn [run mbind prog_bind bind perform]. rewrite Hst.
  destruct (truthy stored) eqn:Hs; cbn [negb].
  - injection Horg as <- <-. cbn. rewrite app_nil_r.
    destruct st; cbn in *; subst; reflexivity.
  - unfold fetchOrganizations. rewrite !run_bind, run_fetch.
    cbn [answering fetch_reply]. rewrite Hf, Hok. cbn [negb].
    rewrite run_of_res.
    destruct (json (resp 0 organizations_request))
      as [[| | | | |[|[| | | | | |props] l]|]|]; try discriminate.
    injection Horg as <- <-.
    cbn [truthy]. rewrite !run_bind, run_of_res. cbn [get_length run].
    change 0%Q with (inject_Z (Z.of_nat 0)). rewrite gt_num_of_nat.
    cbn [length Nat.ltb Nat.leb]. rewrite !run_bind, run_of_res.
    cbn [get_index lookup list_lookup default from_option id].
    rewrite !run_bind, run_of_res. cbn [get_prop run perform].
    unfold after_write, after_fetch. cbn [fetches trace uuids dates map].
    rewrite Hf. reflexivity.
Qed.

(** *** [extractAnswer] *)

Lemma extractAnswer_short (response : jsval) :
  Spec.short_transcript response → extractAnswer response = Ok (VStr []).
Proof.
  intros Hshort. unfold extractAnswer.
  destruct Hshort as [response Hfalsy|props Hm|props msgs Hm Hlen|props msgs second Hm H1 Hc
                     |props msgs second Hm H1 Hc|props msgs second first rest Hm H1 Hc Ht];
    [rewrite Hfalsy; reflexivity| | | | |];
    cbn [truthy negb get_prop mbind res_bind]; rewrite Hm.
  - reflexivity.
  - cbn [truthy negb get_length mbind res_bind].
    change 2%Q with (inject_Z (Z.of_nat 2)). rewrite lt_num_of_nat.
    apply Nat.ltb_lt in Hlen. rewrite Hlen. reflexivity.
  - cbn [truthy negb get_length get_index mbind res_bind].
    change 2%Q with (inject_Z (Z.of_nat 2)). rewrite lt_num_of_nat.
    assert (Hlen : 2 <= length msgs).
    { apply lookup_lt_Some in H1. lia. }
    apply Nat.ltb_ge in Hlen. rewrite Hlen, H1.
    cbn [default from_option id get_prop mbind res_bind]. rewrite Hc. reflexivity.
  - cbn [truthy negb get_length get_index mbind res_bind].
    change 2%Q with (inject_Z (Z.of_nat 2)). rewrite lt_num_of_nat.
    assert (Hlen : 2 <= length msgs).
    { apply lookup_lt_Some in H1. lia. }
    apply Nat.ltb_ge in Hlen. rewrite Hlen, H1.
    cbn [default from_option id get_prop mbind res_bind]. rewrite Hc. reflexivity.
  - cbn [truthy negb get_length get_index mbind res_bind].
    change 2%Q with (inject_Z (Z.of_nat 2)). rewrite lt_num_of_nat.
    assert (Hlen : 2 <= length msgs).
    { apply lookup_lt_Some in H1. lia. }
    apply Nat.ltb_ge in Hlen. rewrite Hlen, H1.
    cbn [default from_option id get_prop mbind res_bind]. rewrite Hc.
    cbn [truthy negb get_length get_index lookup list_lookup default from_option id
         get_prop mbind res_bind length].
    change 1%Q with (inject_Z (Z.of_nat 1)). rewrite lt_num_of_nat.
    cbn [Nat.ltb Nat.leb]. rewrite Ht. reflexivity.
Qed.

(** The text of the second message, when the transcript has the expected
    shape and the text is not empty. *)
Lemma extractAnswer_second_message (props second first : list (jsstring * jsval))
    (m0 : jsval) (more rest : list jsval) (text : jsval) :
  lookup_prop (lit "chat_messages") props = VArr (m0 :: VObj second :: more) →
  lookup_prop (lit "content") second = VArr (VObj first :: rest) →
  lookup_prop (lit "text") first = text →
  truthy text = true →
  extractAnswer (VObj props) = Ok text.
Proof.
  intros Hm Hc Ht Htruthy. unfold extractAnswer.
  cbn [truthy negb get_prop mbind res_bind]. rewrite Hm.
  cbn [truthy negb get_length get_index mbind res_bind].
  change 2%Q with (inject_Z (Z.of_nat 2)). rewrite lt_num_of_nat.
  cbn [length Nat.ltb Nat.leb lookup list_lookup default from_option id get_prop mbind res_bind].
  rewrite Hc.
  cbn [truthy negb get_length get_index lookup list_lookup default from_option id
       get_prop mbind res_bind length].
  change 1%Q with (inject_Z (Z.of_nat 1)). rewrite lt_num_of_nat.
  cbn [Nat.ltb Nat.leb]. rewrite Ht, Htruthy. reflexivity.
Qed.

(** *** [askClaude] against a service that answers every call *)

Lemma askClaude_answered resp uuid date question projectId title stored org asked :
  (∀ n rq, ok (resp n rq) = true) →
  (∀ n rq, is_ok (json (resp n rq)) = true) →
  (∀ n rq, is_ok (text (resp n rq)) = true) →
  Spec.organization resp stored = Some (org, asked) →
  let env := answering resp uuid date in
  let id := uuid 0 in
  let name := if truthy title then title
              else VStr (lit "Form Assistant - " ++ date 0) in
  let message := posted question (uuid 1) in
  let create := create_request org projectId name id in
  let send := send_request org id (snd message) (fst message) in
  let read := transcript_request org id in
  let outcome := run env (askClaude question projectId title) (initial stored) in
  List.filter network (trace (fst outcome))
    = map Fetch asked ++ [Fetch create; Fetch send; Sleep 5000; Fetch read]
  ∧ snd outcome
    = (transcript ← json (resp (length asked + 2) read);
       answer ← extractAnswer transcript;
       Ok {| answer := answer; conversationId := id;
             chatUrl := BASE_URL ++ lit "/chat/" ++ id;
             newConversationCreated := true |}).
Proof.
  intros Hok Hjson Htext Horg env id name message create send read outcome.
  assert (Hasked : List.filter network (map Fetch asked) = map Fetch asked).
  { unfold Spec.organization in Horg. destruct (truthy stored).
    - injection Horg as _ <-. reflexivity.
    - destruct (json (resp 0 organizations_request))
        as [[| | | | |[|[| | | | | |props] l]|]|]; try discriminate.
      injection Horg as _ <-. reflexivity. }
  subst outcome env. unfold askClaude.
  rewrite run_rethrow, run_bind.
  rewrite (run_ensure_organization resp uuid date stored org asked);
    [|apply Hok|reflexivity|reflexivity|exact Horg].
  rewrite run_bind, run_name_or_default.
  cbn [initial trace fetches uuids dates currentOrgId app answering date_reply].
  fold name.
  set (st0 := {| currentOrgId := org; trace := map Fetch asked;
                 fetches := length asked; uuids := 0; dates := 0 |}).
  set (st1 := if truthy title then st0 else after_date st0).
  assert (Hst1 : (if truthy title then (st0, Ok title)
                  else (after_date st0, Ok (VStr (lit "Form Assistant - " ++ date 0))))
                 = (st1, Ok name)).
  { subst st1 name. destruct (truthy title); reflexivity. }
  rewrite Hst1. clear Hst1.
  assert (Hname : truthy name = true).
  { subst name. destruct (truthy title) eqn:Ht; [exact Ht|reflexivity]. }
  assert (H1 : currentOrgId st1 = org ∧ fetches st1 = length asked ∧ uuids st1 = 0
               ∧ List.filter network (trace st1) = map Fetch asked).
  { subst st1 st0. destruct (truthy title); cbn; rewrite ?List.filter_app, ?Hasked;
      cbn; rewrite ?app_nil_r; auto. }
  clearbody st1. clear st0.
  destruct H1 as (Horg1 & Hf1 & Hu1 & Ht1).
  cbn [run mbind prog_bind bind perform]. rewrite Horg1.
  (* createConversation *)
  rewrite run_bind. unfold createConversation.
  rewrite run_bind, run_name_or_default, Hname.
  cbn [run mbind prog_bind bind perform answering uuid_reply]. rewrite Hu1. fold id.
  rewrite run_bind, run_fetch. cbn [answering fetch_reply after_uuid fetches].
  fold create. rewrite Hok. cbn [negb].
  rewrite run_bind, run_of_res.
  destruct (json (resp (fetches st1) create)) as [created|e] eqn:Hcreated;
    [|specialize (Hjson (fetches st1) create); rewrite Hcreated in Hjson; discriminate].
  cbn [run currentOrgId after_fetch after_uuid].
  rewrite Horg1.
  (* sendMessage *)
  rewrite run_bind. unfold sendMessage.
  rewrite run_bind, run_prepare_message.
  cbn [uuids after_fetch after_uuid answering uuid_reply]. rewrite Hu1.
  set (st2 := after_fetch create (after_uuid st1)).
  assert (Hprepared : ∃ st3,
    match marker question with
    | Some _ => (after_uuid st2, Ok (posted question (uuid 1)))
    | None => (st2, Ok (posted question []))
    end = (st3, Ok message)
    ∧ currentOrgId st3 = org ∧ fetches st3 = S (length asked)
    ∧ List.filter network (trace st3) = map Fetch asked ++ [Fetch create]).
  { destruct (marker question) eqn:Hm.
    - exists (after_uuid st2). repeat split; cbn; try congruence.
      rewrite !List.filter_app, Ht1. cbn. rewrite !app_nil_r. reflexivity.
    - exists st2. repeat split; cbn; try congruence.
      + subst message. f_equal. f_equal. apply posted_without_marker, Hm.
      + rewrite !List.filter_app, Ht1. cbn. rewrite !app_nil_r. reflexivity. }
  destruct Hprepared as (st3 & -> & Horg3 & Hf3 & Ht3).
  clearbody st2.
  rewrite run_bind, run_fetch. cbn [answering fetch_reply]. fold send.
  rewrite Hok. cbn [negb]. rewrite run_of_res.
  destruct (text (resp (fetches st3) send)) as [sent|e] eqn:Hsent;
    [|specialize (Htext (fetches st3) send); rewrite Hsent in Htext; discriminate].
  (* the pause and the transcript *)
  cbn [run mbind prog_bind bind perform currentOrgId after_fetch after_sleep].
  rewrite Horg3. rewrite run_bind, run_fetch.
  cbn [answering fetch_reply fetches after_sleep after_fetch]. fold read.
  rewrite Hok, Hf3. cbn [negb].
  replace (S (S (length asked))) with (length asked + 2) by lia.
  rewrite run_bind, run_of_res.
  destruct (json (resp (length asked + 2) read)) as [transcript|e]; cbn [fst snd].
  - rewrite run_bind, run_of_res. cbn [mbind res_bind].
    split.
    + destruct (extractAnswer transcript); cbn [fst run];
        unfold after_fetch, after_sleep; cbn [trace];
        rewrite !List.filter_app, Ht3; cbn; rewrite <- !app_assoc; reflexivity.
    + destruct (extractAnswer transcript); reflexivity.
  - split; [|reflexivity].
    unfold after_fetch, after_sleep; cbn [trace].
    rewrite !List.filter_app, Ht3. cbn. rewrite <- !app_assoc. reflexivity.
Qed.

(** *** The image marker *)

(** A prompt that embeds one marker: nothing before it opens a marker, and
    its content does not close one. *)
Lemma image_match_marker (pre inner post : jsstring) :
  includes pre (lit "<image>") = false →
  includes inner (lit "</image>") = false →
  image_match (pre ++ lit "<image>" ++ inner ++ lit "</image>" ++ post)
  = Some (length pre, inner, length pre + 7 + length inner + 8).
Proof.
  intros Hpre Hinner. unfold image_match.
  set (message := pre ++ lit "<image>" ++ inner ++ lit "</image>" ++ post).
  assert (Hopen : index_of (lit "<image>") message = Some (length pre)).
  { subst message.
    change (lit "<image>") with (60%N :: lit "image>").
    apply index_of_after_prefix.
    - compute_done.
    - apply includes_false, Hpre. }
  rewrite Hopen. cbn [mbind option_bind].
  assert (Hdrop : drop (length pre + 7) message = inner ++ lit "</image>" ++ post).
  { subst message. rewrite drop_app_add'; [|reflexivity]. reflexivity. }
  assert (Hclose : index_of (lit "</image>") (inner ++ lit "</image>" ++ post)
                   = Some (length inner)).
  { change (lit "</image>") with (60%N :: lit "/image>").
    apply index_of_after_prefix.
    - compute_done.
    - apply includes_false, Hinner. }
  unfold index_from. rewrite Hdrop, Hclose. cbn [fmap option_fmap option_map mbind option_bind].
  f_equal. f_equal. f_equal.
  unfold substring. rewrite Hdrop.
  replace (length pre + 7 + length inner - (length pre + 7)) with (length inner) by lia.
  rewrite take_app_length. reflexivity.
Qed.

Lemma posted_marker (pre inner post file_id : jsstring) :
  includes pre (lit "<image>") = false →
  includes inner (lit "</image>") = false →
  nonempty inner = true →
  posted (pre ++ lit "<image>" ++ inner ++ lit "</image>" ++ post) file_id
  = ([image_attachment (trim inner) file_id], pre ++ post).
Proof.
  intros Hpre Hinner Hne. unfold posted, marker.
  rewrite image_match_marker by assumption.
  assert (Hinc : includes (pre ++ lit "<image>" ++ inner ++ lit "</image>" ++ post)
                          (lit "<image>") = true).
  { unfold includes.
    pose proof (image_match_marker pre inner post Hpre Hinner) as Hm.
    unfold image_match in Hm.
    destruct (index_of (lit "<image>") _); [reflexivity|discriminate]. }
  rewrite Hinc, Hne. f_equal.
  rewrite take_app_length. f_equal.
  replace (length pre + 7 + length inner + 8)
    with (length pre + (length (lit "<image>" ++ inner ++ lit "</image>"))).
  2:{ rewrite !length_app. change (length (lit "<image>")) with 7.
      change (length (lit "</image>")) with 8. lia. }
  rewrite drop_app_add'; [|reflexivity].
  replace (lit "<image>" ++ inner ++ lit "</image>" ++ post)
    with ((lit "<image>" ++ inner ++ lit "</image>") ++ post)
    by (rewrite <- !app_assoc; reflexivity).
  apply drop_app_length.
Qed.

(** An empty marker is no marker for [sendMessage]: nothing is attached
    and the text is posted as it is. *)
Lemma posted_empty_marker (pre post file_id : jsstring) :
  includes pre (lit "<image>") = false →
  posted (pre ++ lit "<image>" ++ lit "</image>" ++ post) file_id
  = ([], pre ++ lit "<image>" ++ lit "</image>" ++ post).
Proof.
  intros Hpre. unfold posted, marker.
  pose proof (image_match_marker pre [] post Hpre eq_refl) as Hm.
  cbn [app] in Hm. rewrite Hm.
  destruct (includes (pre ++ lit "<image>" ++ lit "</image>" ++ post) (lit "<image>"));
    reflexivity.
Qed.

Lemma marker_absent (question : jsstring) :
  includes question (lit "<image>") = false → marker question = None.
Proof. unfold marker. intros ->. reflexivity. Qed.

(** C2, as amended. When the organization is known (an id is stored, or
    the list that the service returns starts with an organization) and
    every call gets a 2xx answer whose body can be read, [askClaude] sends
    the create request, then the message, pauses 5000 ms, reads the
    transcript once, and answers what [extractAnswer] finds in it: the
    text of the second message, or [''] for a short transcript. The id of
    the conversation is the first [crypto.randomUUID()]. A marker with
    content is posted as one attachment that carries the trimmed content,
    and the text is posted without that marker; a prompt without
    [<image>] is posted as it is, without attachments. *)
Theorem askClaude_creates_posts_waits_reads
    resp uuid date question projectId title stored org asked :
  (∀ n rq, ok (resp n rq) = true) →
  (∀ n rq, is_ok (json (resp n rq)) = true) →
  (∀ n rq, is_ok (text (resp n rq)) = true) →
  Spec.organization resp stored = Some (org, asked) →
  let env := answering resp uuid date in
  let id := uuid 0 in
  let name := if truthy title then title
              else VStr (lit "Form Assistant - " ++ date 0) in
  let message := posted question (uuid 1) in
  let create := create_request org projectId name id in
  let send := send_request org id (snd message) (fst message) in
  let read := transcript_request org id in
  let outcome := run env (askClaude question projectId title) (initial stored) in
  List.filter network (trace (fst outcome))
    = map Fetch asked ++ [Fetch create; Fetch send; Sleep 5000; Fetch read]
  ∧ snd outcome
    = (transcript ← json (resp (length asked + 2) read);
       answer ← extractAnswer transcript;
       Ok {| answer := answer; conversationId := id;
             chatUrl := BASE_URL ++ lit "/chat/" ++ id;
             newConversationCreated := true |})
  ∧ (∀ pre inner post,
       question = pre ++ lit "<image>" ++ inner ++ lit "</image>" ++ post →
       includes pre (lit "<image>") = false →
       includes inner (lit "</image>") = false →
       nonempty inner = true →
       message = ([image_attachment (trim inner) (uuid 1)], pre ++ post))
  ∧ (includes question (lit "<image>") = false → message = ([], question)).
Proof.
  intros Hok Hjson Htext Horg env id name message create send read outcome.
  pose proof (askClaude_answered resp uuid date question projectId title stored org asked
                Hok Hjson Htext Horg) as [Htrace Hresult].
  split; [exact Htrace|]. split; [exact Hresult|]. split.
  - intros pre inner post -> Hpre Hinner Hne. subst message.
    apply posted_marker; assumption.
  - intros Habsent. subst message. unfold posted.
    rewrite (marker_absent _ Habsent). reflexivity.
Qed.

(** *** Every call is checked, none is repeated *)

Lemma requests_app (t1 t2 : list bevent) :
  requests (t1 ++ t2) = requests t1 ++ requests t2.
Proof. unfold requests. apply omap_app. Qed.

Lemma aborts_ret {A} (a : A) : Spec.aborts_on_status (Ret a : bprog A).
Proof.
  intros env st Hinv. cbn. split; [exact Hinv|]. split.
  - exists []. rewrite app_nil_r. reflexivity.
  - intros k rq resp Hk Hrq. apply lookup_lt_Some in Hrq. lia.
Qed.

Lemma aborts_throw {A} (e : jserror) : Spec.aborts_on_status (Throw e : bprog A).
Proof.
  intros env st Hinv. cbn. split; [exact Hinv|]. split.
  - exists []. rewrite app_nil_r. reflexivity.
  - intros k rq resp Hk Hrq. apply lookup_lt_Some in Hrq. lia.
Qed.

Lemma aborts_of_res {A} (r : res A) : Spec.aborts_on_status (of_res r : bprog A).
Proof. destruct r; [apply aborts_ret|apply aborts_throw]. Qed.

Lemma aborts_bind {A B} (p : bprog A) (f : A → bprog B) :
  Spec.aborts_on_status p → (∀ a, Spec.aborts_on_status (f a)) →
  Spec.aborts_on_status (p ≫= f).
Proof.
  intros Hp Hf env st Hinv. cbv zeta. rewrite run_bind.
  specialize (Hp env st Hinv). cbv zeta in Hp.
  destruct (run env p st) as [st1 [a|e]]; cbn [fst snd] in *.
  2:{ destruct Hp as (Hinv1 & Hnew1 & Hcond1). split; [exact Hinv1|].
      split; [exact Hnew1|]. intros k rq resp Hk Hrq Hreply Hbad.
      destruct (Hcond1 k rq resp Hk Hrq Hreply Hbad) as [Hlast [what Hwhat]].
      split; [exact Hlast|]. exists what. congruence. }
  destruct Hp as (Hinv1 & [new1 Hnew1] & Hcond1).
  specialize (Hf a env st1 Hinv1). cbv zeta in Hf.
  destruct (run env (f a) st1) as [st2 r2]; cbn [fst snd] in *.
  destruct Hf as (Hinv2 & [new2 Hnew2] & Hcond2).
  split; [exact Hinv2|]. split.
  - exists (new1 ++ new2). rewrite Hnew2, Hnew1, app_assoc. reflexivity.
  - intros k rq resp Hk Hrq Hreply Hbad.
    destruct (Nat.lt_ge_cases k (fetches st1)) as [Hlt|Hge].
    + rewrite Hnew2, lookup_app_l in Hrq by lia.
      destruct (Hcond1 k rq resp Hk Hrq Hreply Hbad) as [_ [what Hwhat]].
      discriminate.
    + apply (Hcond2 k rq resp Hge Hrq Hreply Hbad).
Qed.

(** The events other than [fetch] send nothing. *)
Lemma aborts_perform (ev : bevent) :
  is_fetch ev = None → Spec.aborts_on_status (perform ev).
Proof.
  intros Hev env st Hinv.
  assert (Hsame : ∀ st', fetches st' = fetches st →
            requests (trace st') = requests (trace st) →
            ∀ r : breply ev,
            let outcome := (st', Ok r) in
            length (requests (trace (fst outcome))) = fetches (fst outcome)
            ∧ (∃ new, requests (trace (fst outcome)) = requests (trace st) ++ new)
            ∧ ∀ k rq resp,
                fetches st ≤ k →
                requests (trace (fst outcome)) !! k = Some rq →
                fetch_reply env k rq = Resolved resp →
                ok resp = false →
                fetches (fst outcome) = S k
                ∧ ∃ what, snd outcome = Raise (Error (what ++ decimal (status resp)))).
  { intros st' Hf Ht r. cbn [fst snd]. rewrite Hf, Ht. split; [exact Hinv|]. split.
    - exists []. rewrite app_nil_r. reflexivity.
    - intros k rq resp Hk Hrq. apply lookup_lt_Some in Hrq. lia. }
  destruct ev; try discriminate; cbn [perform run]; apply Hsame;
    try reflexivity; cbn [trace after_sleep after_uuid after_date after_write];
    rewrite ?requests_app, ?app_nil_r; reflexivity.
Qed.

(** The pattern of every call in background.js: [fetch], then the test of
    [response.ok]. *)
Lemma aborts_checked_fetch {A} (rq : http_request) (what : jsstring)
    (rest : http_response → bprog A) :
  (∀ response, Spec.aborts_on_status (rest response)) →
  Spec.aborts_on_status
    (response ← fetch rq;
     if negb (ok response)
     then Throw (Error (what ++ decimal (status response)))
     else rest response).
Proof.
  intros Hrest env st Hinv. cbv zeta. rewrite run_bind, run_fetch.
  assert (Hlen : length (requests (trace (after_fetch rq st))) = S (fetches st)).
  { cbn [after_fetch trace]. rewrite requests_app, length_app, Hinv. cbn. lia. }
  assert (Hat : ∀ k rq', fetches st ≤ k → k < S (fetches st) →
                  requests (trace (after_fetch rq st)) !! k = Some rq' →
                  k = fetches st ∧ rq' = rq).
  { intros k rq' Hk Hlt Hrq. assert (k = fetches st) as -> by lia. split; [reflexivity|].
    cbn [after_fetch trace] in Hrq. rewrite requests_app in Hrq.
    rewrite lookup_app_r, Hinv, Nat.sub_diag in Hrq by lia.
    cbn in Hrq. congruence. }
  destruct (fetch_reply env (fetches st) rq) as [r|e] eqn:Hreply.
  - destruct (ok r) eqn:Hokr; cbn [negb].
    + specialize (Hrest r env (after_fetch rq st)).
      cbv zeta in Hrest. rewrite Hlen in Hrest. specialize (Hrest eq_refl).
      destruct (run env (rest r) (after_fetch rq st)) as [st2 r2]; cbn [fst snd] in *.
      destruct Hrest as (Hinv2 & [new2 Hnew2] & Hcond2).
      split; [exact Hinv2|]. split.
      * exists ([rq] ++ new2). rewrite Hnew2. cbn [after_fetch trace].
        rewrite requests_app, <- app_assoc. reflexivity.
      * intros k rq' resp Hk Hrq Hr Hbad.
        destruct (Nat.lt_ge_cases k (S (fetches st))) as [Hlt|Hge].
        -- rewrite Hnew2, lookup_app_l in Hrq by lia.
           destruct (Hat k rq' Hk Hlt Hrq) as [-> ->]. congruence.
        -- apply (Hcond2 k rq' resp Hge Hrq Hr Hbad).
    + cbn [run fst snd]. split; [exact Hlen|]. split.
      * exists [rq]. cbn [after_fetch trace]. apply requests_app.
      * intros k rq' resp Hk Hrq Hr Hbad.
        assert (Hlt : k < S (fetches st)).
        { apply lookup_lt_Some in Hrq. lia. }
        destruct (Hat k rq' Hk Hlt Hrq) as [-> ->].
        rewrite Hreply in Hr. injection Hr as <-.
        split; [reflexivity|]. exists what. reflexivity.
  - cbn [fst snd]. split; [exact Hlen|]. split.
    + exists [rq]. cbn [after_fetch trace]. apply requests_app.
    + intros k rq' resp Hk Hrq Hr Hbad.
      assert (Hlt : k < S (fetches st)).
      { apply lookup_lt_Some in Hrq. lia. }
      destruct (Hat k rq' Hk Hlt Hrq) as [-> ->]. congruence.
Qed.

Lemma aborts_rethrow {A} (p : bprog A) :
  Spec.aborts_on_status p →
  Spec.aborts_on_status (try_catch p (fun error => Throw error)).
Proof. intros Hp env st Hinv. cbv zeta. rewrite run_rethrow. apply Hp, Hinv. Qed.

Ltac aborts_event :=
  lazymatch goal with
  | |- Spec.aborts_on_status (perform ?ev) => exact (aborts_perform ev eq_refl)
  end.

Lemma aborts_fetchOrganizations : Spec.aborts_on_status fetchOrganizations.
Proof. apply aborts_checked_fetch. intros response. apply aborts_of_res. Qed.

Lemma aborts_fetchProjects (orgId : jsval) : Spec.aborts_on_status (fetchProjects orgId).
Proof. apply aborts_checked_fetch. intros response. apply aborts_of_res. Qed.

Lemma aborts_name_or_default (name : jsval) : Spec.aborts_on_status (name_or_default name).
Proof.
  unfold name_or_default. destruct (truthy name); [apply aborts_ret|].
  apply aborts_bind; [aborts_event|]. intros d. apply aborts_ret.
Qed.

Lemma aborts_createConversation (orgId projId name : jsval) :
  Spec.aborts_on_status (createConversation orgId projId name).
Proof.
  unfold createConversation.
  apply aborts_bind; [apply aborts_name_or_default|]. intros conversationName.
  apply aborts_bind; [aborts_event|]. intros uuid.
  apply aborts_checked_fetch. intros response.
  apply aborts_bind; [apply aborts_of_res|]. intros _. apply aborts_ret.
Qed.

Lemma aborts_sendMessage (orgId : jsval) (conversationId message : jsstring) :
  Spec.aborts_on_status (sendMessage orgId conversationId message).
Proof.
  unfold sendMessage, prepare_message.
  apply aborts_bind.
  - destruct (marker message); [|apply aborts_ret].
    apply aborts_bind; [aborts_event|]. intros file_id. apply aborts_ret.
  - intros prepared. apply aborts_checked_fetch. intros response. apply aborts_of_res.
Qed.

Lemma aborts_ensure_organization : Spec.aborts_on_status ensure_organization.
Proof.
  unfold ensure_organization.
  apply aborts_bind; [aborts_event|]. intros currentOrgId.
  destruct (negb (truthy currentOrgId)); [|apply aborts_ret].
  apply aborts_bind; [apply aborts_fetchOrganizations|]. intros orgs.
  apply aborts_bind.
  - destruct (truthy orgs); [|apply aborts_ret].
    apply aborts_bind; [apply aborts_of_res|]. intros len. apply aborts_ret.
  - intros [|]; [|apply aborts_throw].
    apply aborts_bind; [apply aborts_of_res|]. intros first.
    apply aborts_bind; [apply aborts_of_res|]. intros uuid.
    apply aborts_bind; [aborts_event|]. intros _. apply aborts_ret.
Qed.

Lemma aborts_askClaude (question : jsstring) (projectId title : jsval) :
  Spec.aborts_on_status (askClaude question projectId title).
Proof.
  unfold askClaude. apply aborts_rethrow.
  apply aborts_bind; [apply aborts_ensure_organization|]. intros _.
  apply aborts_bind; [apply aborts_name_or_default|]. intros conversationName.
  apply aborts_bind; [aborts_event|]. intros org1.
  apply aborts_bind; [apply aborts_createConversation|]. intros conversationId.
  apply aborts_bind; [aborts_event|]. intros org2.
  apply aborts_bind; [apply aborts_sendMessage|]. intros _.
  apply aborts_bind; [aborts_event|]. intros _.
  apply aborts_bind; [aborts_event|]. intros org3.
  apply aborts_checked_fetch. intros chatResponseRaw.
  apply aborts_bind; [apply aborts_of_res|]. intros chatResponse.
  apply aborts_bind; [apply aborts_of_res|]. intros answer. apply aborts_ret.
Qed.

(** No call of [askClaude] is retried and a status outside 200-299 ends
    it: the request that got that status is the last one sent, and
    [askClaude] rejects with an error whose message ends with the status
    code. *)
Lemma askClaude_aborts_on_status env question projectId title stored k rq resp :
  let outcome := run env (askClaude question projectId title) (initial stored) in
  requests (trace (fst outcome)) !! k = Some rq →
  fetch_reply env k rq = Resolved resp →
  ok resp = false →
  length (requests (trace (fst outcome))) = S k
  ∧ ∃ what, snd outcome = Raise (Error (what ++ decimal (status resp))).
Proof.
  intros outcome Hrq Hreply Hbad.
  destruct (aborts_askClaude question projectId title env (initial stored) eq_refl)
    as (Hinv & _ & Hcond).
  fold outcome in Hinv, Hcond.
  destruct (Hcond k rq resp (Nat.le_0_l k) Hrq Hreply Hbad) as [Hlast Hwhat].
  split; [|exact Hwhat]. rewrite Hinv. exact Hlast.
Qed.

(** The listener forwards a result and drops a rejection: with an answer
    of status 500 (or any other outside 200-299) [sendResponse] is never
    called. *)
Lemma onMessage_drops_status_error env question projectId title stored k rq resp :
  let asked := run env (askClaude question projectId title) (initial stored) in
  requests (trace (fst asked)) !! k = Some rq →
  fetch_reply env k rq = Resolved resp →
  ok resp = false →
  snd (run env (onMessage_askClaude question projectId title) (initial stored)) = Ok None.
Proof.
  intros asked Hrq Hreply Hbad.
  destruct (askClaude_aborts_on_status env question projectId title stored k rq resp
              Hrq Hreply Hbad) as [_ [what Hwhat]].
  fold asked in Hwhat.
  unfold onMessage_askClaude. rewrite run_try_catch, run_bind.
  fold asked. destruct asked as [st r]. cbn [snd] in Hwhat. subst r. reflexivity.
Qed.

End BackgroundFacts.

(** The theorem at a service that answers 200 with a two-message
    transcript, for the question "Summary" and the stored organization
    "org-1": the answer is the text of the second message. *)
Lemma askClaude_creates_posts_waits_reads_witness :
  snd (run Spec.example_service
         (@askClaude Spec.example_runtime (lit "Summary") VUndefined
                     (VStr (lit "Form: Summary")))
         (initial (VStr (lit "org-1"))))
  = Ok {| answer := VStr (lit "This is a test.");
          conversationId := lit "uuid-0";
          chatUrl := lit "https://claude.ai/chat/uuid-0";
          newConversationCreated := true |}.
Proof.
  refine (proj1 (proj2
    (@askClaude_creates_posts_waits_reads Spec.example_runtime
       Spec.example_responses Spec.example_uuid Spec.example_date
       (lit "Summary") VUndefined (VStr (lit "Form: Summary"))
       (VStr (lit "org-1")) (VStr (lit "org-1")) [] _ _ _ _)));
    [intros; reflexivity | intros; reflexivity | intros; reflexivity | reflexivity].
Defined.

(** C2 as stated fails for a prompt that embeds an empty marker: every
    call succeeds, yet the message is posted without attachment and with
    the marker still in its text. *)
Lemma askClaude_empty_marker_counterexample :
  let question := lit "Look at <image></image> please" in
  let outcome :=
    run Spec.example_service
      (@askClaude Spec.example_runtime question VUndefined (VStr (lit "Form: Look")))
      (initial (VStr (lit "org-1"))) in
  includes question (lit "<image></image>") = true
  ∧ is_ok (snd outcome) = true
  ∧ requests (trace (fst outcome)) !! 1
    = Some (@send_request Spec.example_runtime (VStr (lit "org-1")) (lit "uuid-0") question []).
Proof. vm_compute. repeat split; reflexivity. Qed.

(** Nor is a conversation created when the service lists no organization,
    although the call succeeds. *)
Lemma askClaude_without_organizations :
  let outcome :=
    run Spec.no_organizations
      (@askClaude Spec.example_runtime (lit "Summary") VUndefined (VStr (lit "Form: Summary")))
      (initial VNull) in
  requests (trace (fst outcome)) = [organizations_request]
  ∧ snd outcome = Raise (Error (lit "No organizations found")).
Proof. vm_compute. split; reflexivity. Qed.

(** ** The content script *)

Import Dom Page Content Session.

Section SessionFacts.
Context `{JsRuntime}.

Lemma session_run_bind {A B} env (p : cprog A) (f : A → cprog B) c :
  Session.run env (p ≫= f) c =
  match Session.run env p c with
  | (c', Finished (Ok a)) => Session.run env (f a) c'
  | (c', Finished (Raise e)) => (c', Finished (Raise e))
  | (c', Suspended ev) => (c', Suspended ev)
  end.
Proof.
  revert c. induction p as [a|e|ev k IH]; intros c; try reflexivity.
  cbn [mbind prog_bind bind Session.run] in *.
  destruct (react ev (now c)) as [[r w']|]; [apply IH|].
  destruct (oracle env (awaits c) ev) as [r|]; [apply IH|reflexivity].
Qed.

Lemma session_run_bind_plain {A B} env (p : cprog A) (f : A → cprog B) c :
  Session.run env (bind p f) c =
  match Session.run env p c with
  | (c', Finished (Ok a)) => Session.run env (f a) c'
  | (c', Finished (Raise e)) => (c', Finished (Raise e))
  | (c', Suspended ev) => (c', Suspended ev)
  end.
Proof. apply (session_run_bind env p f c). Qed.

Lemma session_run_try_catch {A} env (p : cprog A) h c :
  Session.run env (try_catch p h) c =
  match Session.run env p c with
  | (c', Finished (Ok a)) => (c', Finished (Ok a))
  | (c', Finished (Raise e)) => Session.run env (h e) c'
  | (c', Suspended ev) => (c', Suspended ev)
  end.
Proof.
  revert c. induction p as [a|e|ev k IH]; intros c; try reflexivity.
  cbn [try_catch Session.run] in *.
  destruct (react ev (now c)) as [[r w']|]; [apply IH|].
  destruct (oracle env (awaits c) ev) as [r|]; [apply IH|reflexivity].
Qed.

Lemma session_run_of_res {A} env (r : res A) c :
  Session.run env (of_res r) c = (c, Finished r).
Proof. destruct r; reflexivity. Qed.

Lemma run_reset_processing env c :
  Session.run env reset_processing c = (Spec.at_rest c, Finished (Ok tt)).
Proof.
  unfold reset_processing, Spec.at_rest. cbn. destruct c as [w log n].
  unfold proceed. cbn. rewrite !app_nil_r. reflexivity.
Qed.

(** [finally] with the reset: whatever way the body ends, the reset runs
    next; a body that is suspended for ever never reaches it. *)
Lemma session_run_finally {A} env (p : cprog A) c :
  Session.run env (finally p reset_processing) c =
  match Session.run env p c with
  | (c', Finished r) => (Spec.at_rest c', Finished r)
  | (c', Suspended ev) => (c', Suspended ev)
  end.
Proof.
  revert c. induction p as [a|e|ev k IH]; intros c.
  - cbn [finally]. rewrite session_run_bind_plain, run_reset_processing. reflexivity.
  - cbn [finally]. rewrite session_run_bind_plain, run_reset_processing. reflexivity.
  - cbn [finally Session.run] in *.
    destruct (react ev (now c)) as [[r w']|]; [apply IH|].
    destruct (oracle env (awaits c) ev) as [r|]; [apply IH|reflexivity].
Qed.

Lemma run_guarded env (body : cprog unit) c :
  Session.run env (guarded body) c =
  match Session.run env body c with
  | (c', Finished (Ok a)) => (Spec.at_rest c', Finished (Ok a))
  | (c', Finished (Raise e)) =>
      (Spec.at_rest (Spec.notified (lit "Error: " ++ message_or_default e) c'),
       Finished (Ok tt))
  | (c', Suspended ev) => (c', Suspended ev)
  end.
Proof.
  unfold guarded. rewrite session_run_finally, session_run_try_catch.
  destruct (Session.run env body c) as [c' [[a|e]|ev]]; reflexivity.
Qed.

(** *** Timers *)

Lemma fire_keeps_no_url (a : timer_action) (w : world) :
  currentConversationUrl w = None → currentConversationUrl (fire a w) = None.
Proof.
  intros Hw. destruct a as [|h text]; [reflexivity|].
  cbn [fire]. destruct (fields w !! h); exact Hw.
Qed.

Lemma fired_clear_url (l : list (nat * timer_action)) (w : world) :
  currentConversationUrl w = None ∨ ClearConversationUrl ∈ map snd l →
  currentConversationUrl (foldl (fun w x => fire (snd x) w) w l) = None.
Proof.
  revert w. induction l as [|[d a] l IH]; intros w [Hw|Hin]; cbn [foldl snd].
  - exact Hw.
  - cbn in Hin. inversion Hin.
  - apply IH. left. apply fire_keeps_no_url, Hw.
  - cbn [map snd] in Hin. apply elem_of_cons in Hin as [<-|Hin].
    + apply IH. left. reflexivity.
    + apply IH. right. exact Hin.
Qed.

Lemma elem_of_insert_due (x t : nat * timer_action) (l : list (nat * timer_action)) :
  x ∈ insert_due t l ↔ x = t ∨ x ∈ l.
Proof.
  induction l as [|y l IH]; cbn [insert_due].
  - rewrite list_elem_of_singleton, elem_of_nil. tauto.
  - destruct (fst y <=? fst t).
    + rewrite !elem_of_cons, IH. tauto.
    + rewrite !elem_of_cons. tauto.
Qed.

Lemma elem_of_by_due_time (x : nat * timer_action) (l : list (nat * timer_action)) :
  x ∈ by_due_time l ↔ x ∈ l.
Proof.
  unfold by_due_time.
  assert (Hgen : ∀ acc, x ∈ foldl (fun acc t => insert_due t acc) acc l ↔ x ∈ acc ∨ x ∈ l).
  { induction l as [|t l IH]; intros acc; cbn [foldl].
    - rewrite elem_of_nil. tauto.
    - rewrite IH, elem_of_insert_due, elem_of_cons. tauto. }
  rewrite Hgen, elem_of_nil. tauto.
Qed.

(** Once the time set for it has passed, [currentConversationUrl] is
    [null]. *)
Lemma advance_clears_url (w : world) (due t : nat) :
  (due, ClearConversationUrl) ∈ timers w → due ≤ t →
  currentConversationUrl (advance t w) = None.
Proof.
  intros Hin Hle. unfold advance. apply fired_clear_url. right.
  change (map snd ?l) with (snd <$> l).
  apply list_elem_of_fmap. exists (due, ClearConversationUrl). split; [reflexivity|].
  apply elem_of_by_due_time, list_elem_of_In, List.filter_In. split.
  - apply list_elem_of_In, Hin.
  - apply Nat.leb_le. exact Hle.
Qed.

(** At rest, the URL is forgotten 10 seconds later. *)
Lemma at_rest_forgets_url (c : config) :
  isProcessing (now (Spec.at_rest c)) = false
  ∧ button_processing (now (Spec.at_rest c)) = false
  ∧ clock (now (Spec.at_rest c)) = clock (now c)
  ∧ currentConversationUrl (advance (clock (now c) + 10000) (now (Spec.at_rest c))) = None.
Proof.
  repeat split.
  apply (advance_clears_url _ (clock (now c) + 10000)); [|reflexivity].
  cbn. apply elem_of_app. right. apply list_elem_of_singleton. reflexivity.
Qed.

(** *** The first stretch of a handler *)

Lemma run_sync_bind {A B} (p : cprog A) (f : A → cprog B) c :
  run_sync (bind p f) c =
  match run_sync p c with
  | (c', Some (Ok a)) => run_sync (f a) c'
  | (c', Some (Raise e)) => (c', Some (Raise e))
  | (c', None) => (c', None)
  end.
Proof.
  revert c. induction p as [a|e|ev k IH]; intros c; try reflexivity.
  cbn [bind run_sync] in *.
  destruct (react ev (now c)) as [[r w']|]; [apply IH|reflexivity].
Qed.

Lemma run_sync_try_catch {A} (p : cprog A) h c :
  run_sync (try_catch p h) c =
  match run_sync p c with
  | (c', Some (Ok a)) => (c', Some (Ok a))
  | (c', Some (Raise e)) => run_sync (h e) c'
  | (c', None) => (c', None)
  end.
Proof.
  revert c. induction p as [a|e|ev k IH]; intros c; try reflexivity.
  cbn [try_catch run_sync] in *.
  destruct (react ev (now c)) as [[r w']|]; [apply IH|reflexivity].
Qed.

Lemma run_sync_reset_processing c :
  run_sync reset_processing c = (Spec.at_rest c, Some (Ok tt)).
Proof.
  unfold reset_processing, Spec.at_rest. cbn. destruct c as [w log n].
  unfold proceed. cbn. rewrite !app_nil_r. reflexivity.
Qed.

Lemma run_sync_finally {A} (p : cprog A) c :
  run_sync (finally p reset_processing) c =
  match run_sync p c with
  | (c', Some r) => (Spec.at_rest c', Some r)
  | (c', None) => (c', None)
  end.
Proof.
  revert c. induction p as [a|e|ev k IH]; intros c.
  - cbn [finally]. rewrite run_sync_bind, run_sync_reset_processing. reflexivity.
  - cbn [finally]. rewrite run_sync_bind, run_sync_reset_processing. reflexivity.
  - cbn [finally run_sync] in *.
    destruct (react ev (now c)) as [[r w']|]; [apply IH|reflexivity].
Qed.

(** A guarded body that is suspended is suspended where its body is. *)
Lemma run_sync_guarded_suspended (body : cprog unit) c c' :
  run_sync (guarded body) c = (c', None) → run_sync body c = (c', None).
Proof.
  unfold guarded. rewrite run_sync_finally, run_sync_try_catch.
  destruct (run_sync body c) as [c1 [[a|e]|]]; cbn; intros Hrun;
    [discriminate|discriminate|congruence].
Qed.

(** A guarded body that waits keeps the handler waiting at the same
    place: neither [catch] nor [finally] has run. *)
Lemma run_sync_guarded_waits (body : cprog unit) c c' :
  run_sync body c = (c', None) → run_sync (guarded body) c = (c', None).
Proof.
  intros Hrun. unfold guarded. rewrite run_sync_finally, run_sync_try_catch, Hrun.
  reflexivity.
Qed.

(** The second script sets the flag and the spinner and then waits for
    the settings. *)
Lemma plain_request_reaches_await c :
  ∃ c', run_sync Plain.request c = (c', None)
        ∧ isProcessing (now c') = true ∧ button_processing (now c') = true.
Proof.
  unfold Plain.request. cbn. eexists. split; [reflexivity|]. split; reflexivity.
Qed.

(** The second script reaches its first await with the flag set. *)
Lemma plain_request_sets_processing c c' :
  run_sync Plain.request c = (c', None) →
  isProcessing (now c') = true ∧ button_processing (now c') = true.
Proof.
  unfold Plain.request. cbn. intros Hrun. injection Hrun as <-. split; reflexivity.
Qed.

(** *** Handling the answer *)

(** An empty answer: both scripts show the error toast and touch nothing. *)
Lemma empty_answer_is_reported env c (r : ask_result) :
  truthy (answer r) = false →
  Session.run env (WithContext.handle_response (Some r)) c
  = (Spec.notified (lit "Error getting response from Claude. Please try again.") c,
     Finished (Ok tt))
  ∧ Session.run env (Plain.handle_response (Some r)) c
  = (Spec.notified (lit "Error getting response from Claude. Please try again.") c,
     Finished (Ok tt)).
Proof.
  intros Hr. unfold WithContext.handle_response, Plain.handle_response. rewrite Hr.
  split; reflexivity.
Qed.

(** The first script checks that the active field is in the document:
    when it is not, the answer is written nowhere, no timer is set, and the
    toast says that the field is gone. *)
Lemma first_script_skips_removed_field env c (r : ask_result) :
  truthy (answer r) = true →
  Spec.active_in_document (now c) = false →
  let c' := fst (Session.run env (WithContext.handle_response (Some r)) c) in
  snd (Session.run env (WithContext.handle_response (Some r)) c) = Finished (Ok tt)
  ∧ observed c' = observed c ++ [Notified (lit "Error: The form field is no longer available")]
  ∧ fields (now c') = fields (now c)
  ∧ timers (now c') = timers (now c).
Proof.
  intros Hr Hgone. unfold WithContext.handle_response, body_contains_active.
  rewrite Hr. unfold Spec.active_in_document in Hgone.
  destruct (nonempty (chatUrl r));
    cbn [Session.run mbind prog_bind bind perform react now proceed
         activeElement fields set_url];
    (destruct (activeElement (now c)) as [h|];
     [cbn [Session.run mbind prog_bind bind perform react now proceed
           activeElement fields set_url];
      destruct (fields (now c) !! h) as [f|]; [rewrite Hgone|]|]);
    cbn; rewrite ?app_nil_r; repeat split; reflexivity.
Qed.

(** *** What a handler shows only grows *)

Lemma run_extends_log {A} env (p : cprog A) c :
  ∃ rest, observed (fst (Session.run env p c)) = observed c ++ rest.
Proof.
  revert c. induction p as [a|e|ev k IH]; intros c.
  - exists []. cbn. rewrite app_nil_r. reflexivity.
  - exists []. cbn. rewrite app_nil_r. reflexivity.
  - cbn [Session.run]. destruct (react ev (now c)) as [[r w']|].
    + destruct (IH r (proceed ev w' c)) as [rest Hrest].
      exists (observe ev ++ rest). rewrite Hrest. cbn. rewrite app_assoc. reflexivity.
    + destruct (oracle env (awaits c) ev) as [r|].
      * destruct (IH r (resume env ev c)) as [rest Hrest].
        exists (observe ev ++ rest). rewrite Hrest. cbn. rewrite app_assoc. reflexivity.
      * exists (observe ev). reflexivity.
Qed.

End SessionFacts.

(** *** The trigger control *)

Section TriggerControl.
Context `{JsRuntime}.
Context {context : Type} (capturePageContext : cprog context)
        (createEnhancedPrompt : jsstring → context → jsstring).

Let first_script : cprog unit :=
  WithContext.handleClaudeButtonClick capturePageContext createEnhancedPrompt.
Let first_request : cprog unit :=
  WithContext.request capturePageContext createEnhancedPrompt.

(** A click while a request is processing and a URL is cached opens the
    URL and does nothing else. *)
Lemma click_while_processing env w url :
  isProcessing w = true → Spec.cached_url w = Some url →
  Session.run env first_script (start w)
  = ({| now := w; observed := [Opened url]; awaits := 0 |}, Finished (Ok tt))
  ∧ Session.run env Plain.handleClaudeButtonClick (start w)
  = ({| now := w; observed := [Opened url]; awaits := 0 |}, Finished (Ok tt)).
Proof.
  intros Hp Hurl. unfold Spec.cached_url in Hurl.
  destruct (currentConversationUrl w) as [[|u0 u]|] eqn:Hu; try discriminate.
  injection Hurl as <-.
  subst first_script.
  unfold WithContext.handleClaudeButtonClick, Plain.handleClaudeButtonClick.
  cbn [Session.run mbind prog_bind bind perform react start now].
  rewrite Hp. cbn [Session.run mbind prog_bind bind perform react start now proceed].
  rewrite Hu. cbn. unfold proceed. cbn. split; reflexivity.
Qed.

(** Any other click on a field starts a request. *)
Lemma click_starts_request env w h :
  (isProcessing w = false ∨ Spec.cached_url w = None) → activeElement w = Some h →
  Session.run env first_script (start w) = Session.run env (guarded first_request) (start w)
  ∧ run_sync first_script (start w) = run_sync (guarded first_request) (start w)
  ∧ Session.run env Plain.handleClaudeButtonClick (start w)
    = Session.run env (guarded Plain.request) (start w)
  ∧ run_sync Plain.handleClaudeButtonClick (start w)
    = run_sync (guarded Plain.request) (start w).
Proof.
  intros Hidle Hactive. subst first_script first_request.
  unfold WithContext.handleClaudeButtonClick, Plain.handleClaudeButtonClick.
  cbn [Session.run run_sync mbind prog_bind bind perform react start now].
  assert (Hstart : ∀ ev w', proceed ev w' (start w) = {| now := w'; observed := observe ev; awaits := 0 |}).
  { reflexivity. }
  destruct (isProcessing w) eqn:Hp.
  - destruct Hidle as [|Hnone]; [discriminate|].
    cbn [Session.run run_sync mbind prog_bind bind perform react start now proceed].
    unfold Spec.cached_url in Hnone.
    destruct (currentConversationUrl w) as [[|u0 u]|] eqn:Hu; try discriminate;
      cbn [Session.run run_sync mbind prog_bind bind perform react start now proceed
           observe app observed awaits];
      rewrite Hactive; repeat split; reflexivity.
  - cbn [Session.run run_sync mbind prog_bind bind perform react start now proceed
         observe app observed awaits].
    rewrite Hactive. repeat split; reflexivity.
Qed.

(** The first script reaches its first await with the flag set: what it
    does before (focus, click) leaves the flag alone. *)
Lemma first_request_sets_processing c c' :
  run_sync first_request c = (c', None) →
  isProcessing (now c') = true ∧ button_processing (now c') = true.
Proof.
  subst first_request. unfold WithContext.request, the_active_element, the_field.
  pose (simplify := tt).
  destruct (activeElement (now c)) as [h|] eqn:Hactive.
  2:{ cbn [run_sync mbind prog_bind bind perform react now proceed
           activeElement set_button set_isProcessing update_state set_fields].
      rewrite Hactive. discriminate. }
  cbn [run_sync mbind prog_bind bind perform react now proceed
       activeElement set_button set_isProcessing update_state set_fields fields].
  rewrite Hactive.
  cbn [run_sync mbind prog_bind bind perform react now proceed
       activeElement set_button set_isProcessing update_state set_fields fields].
  rewrite Hactive.
  cbn [run_sync mbind prog_bind bind perform react now proceed
       activeElement set_button set_isProcessing update_state set_fields fields].
  match goal with
  | |- context [alter ?g h (fields (now c)) !! h] =>
      destruct (alter g h (fields (now c)) !! h) as [f|]
  end; [|discriminate].
  cbn [run_sync mbind prog_bind bind perform react now proceed].
  match goal with
  | |- context [if ?b then _ else _] => destruct b
  end;
    cbn [run_sync mbind prog_bind bind perform react now proceed suspend
         activeElement set_button set_isProcessing update_state set_fields fields];
    rewrite ?Hactive;
    cbn [run_sync mbind prog_bind bind perform react now proceed suspend
         activeElement set_button set_isProcessing update_state set_fields fields];
    intros Hrun; injection Hrun as <-; split; reflexivity.
Qed.

(** The first script, started on a field of the page, sets the flag and
    the spinner, focuses the field and then waits: for the 100 ms after
    its click on a field of a framework, or for the settings. *)
Lemma first_request_reaches_await c h f :
  activeElement (now c) = Some h → fields (now c) !! h = Some f →
  ∃ c', run_sync first_request c = (c', None)
        ∧ isProcessing (now c') = true ∧ button_processing (now c') = true.
Proof.
  intros Hactive Hfield.
  subst first_request. unfold WithContext.request, the_active_element, the_field.
  cbn [run_sync mbind prog_bind bind perform react now proceed
       activeElement set_button set_isProcessing update_state set_fields fields].
  rewrite Hactive.
  cbn [run_sync mbind prog_bind bind perform react now proceed
       activeElement set_button set_isProcessing update_state set_fields fields].
  rewrite Hactive.
  cbn [run_sync mbind prog_bind bind perform react now proceed
       activeElement set_button set_isProcessing update_state set_fields fields].
  rewrite lookup_alter_eq, Hfield.
  cbn [fmap option_fmap option_map run_sync mbind prog_bind bind perform react now
       proceed].
  match goal with
  | |- context [if ?b then _ else _] => destruct b
  end;
    cbn [run_sync mbind prog_bind bind perform react now proceed suspend
         activeElement set_button set_isProcessing update_state set_fields fields];
    rewrite ?Hactive;
    cbn [run_sync mbind prog_bind bind perform react now proceed suspend
         activeElement set_button set_isProcessing update_state set_fields fields];
    (eexists; split; [reflexivity|]; split; reflexivity).
Qed.

(** C1. The trigger control goes from idle to processing and back. A
    click while a request is processing and a conversation URL is cached
    opens that URL in a new tab, sends nothing to the background and
    leaves the state as it is. Any other click on an active field starts a
    request: [isProcessing] is true when the handler first waits, and on
    every way out (success, error, cancellation) [isProcessing] is false
    again, the spinner is off, and the timer just set forgets the URL
    10000 ms after that moment. Both scripts behave so. And such a click
    does get there: the second script always comes to wait with
    [isProcessing] and the spinner on, and so does the first script when
    the active element is a field of the page. *)
Theorem trigger_control_state_machine env w :
  (∀ url, isProcessing w = true → Spec.cached_url w = Some url →
     Session.run env first_script (start w)
     = ({| now := w; observed := [Opened url]; awaits := 0 |}, Finished (Ok tt))
     ∧ Session.run env Plain.handleClaudeButtonClick (start w)
     = ({| now := w; observed := [Opened url]; awaits := 0 |}, Finished (Ok tt)))
  ∧ (∀ h script, script = first_script ∨ script = Plain.handleClaudeButtonClick →
       (isProcessing w = false ∨ Spec.cached_url w = None) → activeElement w = Some h →
       (∀ c, run_sync script (start w) = (c, None) →
             isProcessing (now c) = true ∧ button_processing (now c) = true)
       ∧ (∀ c r, Session.run env script (start w) = (c, Finished r) →
             isProcessing (now c) = false
             ∧ button_processing (now c) = false
             ∧ (clock (now c) + 10000, ClearConversationUrl) ∈ timers (now c)
             ∧ currentConversationUrl (advance (clock (now c) + 10000) (now c)) = None))
  ∧ (∀ h, (isProcessing w = false ∨ Spec.cached_url w = None) → activeElement w = Some h →
       (∃ c, run_sync Plain.handleClaudeButtonClick (start w) = (c, None)
             ∧ isProcessing (now c) = true ∧ button_processing (now c) = true)
       ∧ (∀ f, fields w !! h = Some f →
            ∃ c, run_sync first_script (start w) = (c, None)
                 ∧ isProcessing (now c) = true ∧ button_processing (now c) = true)).
Proof.
  split; [|split].
  - intros url Hp Hurl. apply click_while_processing; assumption.
  - intros h script Hscript Hidle Hactive.
    destruct (click_starts_request env w h Hidle Hactive) as (Hrun1 & Hsync1 & Hrun2 & Hsync2).
    assert (Hexit : ∀ body c r,
              Session.run env (guarded body) (start w) = (c, Finished r) →
              isProcessing (now c) = false
              ∧ button_processing (now c) = false
              ∧ (clock (now c) + 10000, ClearConversationUrl) ∈ timers (now c)
              ∧ currentConversationUrl (advance (clock (now c) + 10000) (now c)) = None).
    { intros body c r. rewrite run_guarded.
      destruct (Session.run env body (start w)) as [c1 [[a|e]|ev]]; intros Hrun;
        [| |discriminate]; apply (f_equal fst) in Hrun; cbn [fst] in Hrun; subst c.
      - destruct (at_rest_forgets_url c1) as (Hp & Hb & Hc & Hu).
        rewrite Hc. repeat split; try assumption.
        cbn. apply elem_of_app. right. apply list_elem_of_singleton. reflexivity.
      - destruct (at_rest_forgets_url (Spec.notified (lit "Error: " ++ message_or_default e) c1))
          as (Hp & Hb & Hc & Hu).
        rewrite Hc. repeat split; try assumption.
        cbn. apply elem_of_app. right. apply list_elem_of_singleton. reflexivity. }
    destruct Hscript as [-> | ->]; split.
    + intros c. rewrite Hsync1. intros Hrun.
      apply run_sync_guarded_suspended in Hrun.
      apply first_request_sets_processing with (c := start w). exact Hrun.
    + intros c r. rewrite Hrun1. apply Hexit.
    + intros c. rewrite Hsync2. intros Hrun.
      apply run_sync_guarded_suspended in Hrun.
      apply plain_request_sets_processing with (c := start w). exact Hrun.
    + intros c r. rewrite Hrun2. apply Hexit.
  - intros h Hidle Hactive.
    destruct (click_starts_request env w h Hidle Hactive) as (_ & Hsync1 & _ & Hsync2).
    split.
    + destruct (plain_request_reaches_await (start w)) as (c & Hrun & Hflags).
      exists c. split; [|exact Hflags].
      rewrite Hsync2. apply run_sync_guarded_waits, Hrun.
    + intros f Hfield.
      destruct (first_request_reaches_await (start w) h f Hactive Hfield)
        as (c & Hrun & Hflags).
      exists c. split; [|exact Hflags].
      rewrite Hsync1. apply run_sync_guarded_waits, Hrun.
Qed.

(** The message that the first script sends once the page is captured:
    its title is made from the question. *)
Lemma ask_sends_titled_message env c c1 (ctx : context) settings question :
  Session.run env capturePageContext c = (c1, Finished (Ok ctx)) →
  ∃ rest,
    observed (fst (Session.run env
                     (WithContext.ask capturePageContext createEnhancedPrompt
                                      settings question) c))
    = observed c1
      ++ Sent (askClaude_message (createEnhancedPrompt question ctx)
                 (defaultProject settings)
                 (VStr (ContextHandler.generateConversationTitle question)))
      :: rest.
Proof.
  intros Hcapture. unfold WithContext.ask.
  rewrite session_run_bind, Hcapture.
  cbn [Session.run mbind prog_bind bind perform react].
  destruct (oracle env (awaits c1) _) as [r|].
  - match goal with
    | |- context [Session.run env ?p (resume env ?ev c1)] =>
        destruct (run_extends_log env p (resume env ev c1)) as [rest Hrest];
        exists rest; rewrite Hrest
    end.
    cbn. rewrite <- app_assoc. reflexivity.
  - exists []. reflexivity.
Qed.

End TriggerControl.

(** The scripts as they are loaded together: the first content script
    with the screenshot variant of context-handler.js. *)
Lemma trigger_control_state_machine_witness :
  let w := Spec.page_with (Spec.attached Spec.textarea_summary) in
  let env := Spec.quiet_page (Some (Ok (Some Spec.example_answer))) in
  let script :=
    WithContext.handleClaudeButtonClick
      ContextHandler.Screenshot.capturePageContext
      ContextHandler.Screenshot.createEnhancedPrompt in
  let c := fst (Session.run env script (start w)) in
  (isProcessing (now c) = false
   ∧ button_processing (now c) = false
   ∧ (clock (now c) + 10000, ClearConversationUrl) ∈ timers (now c)
   ∧ currentConversationUrl (@advance Spec.example_runtime (clock (now c) + 10000) (now c))
     = None)
  ∧ ∃ waiting, run_sync script (start w) = (waiting, None)
               ∧ isProcessing (now waiting) = true
               ∧ button_processing (now waiting) = true.
Proof.
  intros w env script c.
  pose proof (trigger_control_state_machine (H := Spec.example_runtime)
                ContextHandler.Screenshot.capturePageContext
                ContextHandler.Screenshot.createEnhancedPrompt env w)
    as (_ & Hexit & Hwaits).
  split.
  - refine (proj2 (Hexit 0 script (or_introl eq_refl) (or_introl eq_refl) eq_refl)
              c (Ok tt) _).
    vm_compute. reflexivity.
  - exact (proj2 (Hwaits 0 (or_introl eq_refl) eq_refl)
             (Spec.attached Spec.textarea_summary) eq_refl).
Defined.

(** A second click during processing, with the URL cached: one new tab,
    nothing sent, nothing changed. *)
Lemma second_click_opens_conversation :
  let w := Spec.page_processing (Spec.attached Spec.textarea_summary) in
  let env := Spec.quiet_page (Some (Ok (Some Spec.example_answer))) in
  let c := fst (Session.run env (Plain.handleClaudeButtonClick (H := Spec.example_runtime)) (start w)) in
  observed c = [Opened (lit "https://claude.ai/chat/uuid-0")]
  ∧ Spec.sent_messages (observed c) = []
  ∧ now c = w.
Proof. vm_compute. repeat split; reflexivity. Qed.

(** ** Answers that cannot be used *)

(** The shapes that the guard of [extractAnswer] does catch. For a
    response that is missing, or a transcript in which [chat_messages] is
    missing, holds fewer than two messages, or whose second message is an
    object without content entries or without text, [extractAnswer]
    returns [''] and does not throw; the click handler of either script
    then shows the error toast and changes nothing on the page. *)
Theorem extractAnswer_short_transcript `{JsRuntime} (response : jsval) :
  Spec.short_transcript response →
  extractAnswer response = Ok (VStr [])
  ∧ ∀ env c (r : ask_result),
      Ok (answer r) = extractAnswer response →
      Session.run env (WithContext.handle_response (Some r)) c
      = (Spec.notified (lit "Error getting response from Claude. Please try again.") c,
         Finished (Ok tt))
      ∧ Session.run env (Plain.handle_response (Some r)) c
      = (Spec.notified (lit "Error getting response from Claude. Please try again.") c,
         Finished (Ok tt)).
Proof.
  intros Hshort. pose proof (extractAnswer_short response Hshort) as Hempty.
  split; [exact Hempty|].
  intros env c r Hr. rewrite Hempty in Hr. injection Hr as Hr.
  apply empty_answer_is_reported. rewrite Hr. reflexivity.
Qed.

(** The theorem at the transcript [{"chat_messages": [{}]}]. *)
Lemma extractAnswer_short_transcript_witness :
  @extractAnswer Spec.example_runtime Spec.transcript_with_one_message = Ok (VStr []).
Proof.
  refine (proj1 (@extractAnswer_short_transcript Spec.example_runtime
                   Spec.transcript_with_one_message _)).
  apply (Spec.messages_few _ [VObj []]); [reflexivity|simpl; lia].
Defined.

(** [extractAnswer] is not total. In the transcript
    [{"chat_messages": [{}, null]}] the second message has neither content
    nor text, and reading [content] of [null] throws. *)
Lemma extractAnswer_null_message_counterexample :
  @extractAnswer Spec.example_runtime Spec.transcript_with_null_message
  = Raise (TypeError (lit "Cannot read properties of null")).
Proof. vm_compute. reflexivity. Qed.

(** It throws for every runtime, and so does a transcript whose
    [chat_messages] is not a list. *)
Lemma extractAnswer_throws `{JsRuntime} :
  is_ok (extractAnswer Spec.transcript_with_null_message) = false
  ∧ is_ok (extractAnswer (VObj [(lit "chat_messages", VBool true)])) = false.
Proof.
  unfold extractAnswer, Spec.transcript_with_null_message.
  cbn [truthy negb get_prop mbind res_bind].
  replace (lookup_prop (lit "chat_messages")
             [(lit "chat_messages", VArr [VObj []; VNull])])
    with (VArr [VObj []; VNull]) by reflexivity.
  replace (lookup_prop (lit "chat_messages") [(lit "chat_messages", VBool true)])
    with (VBool true) by reflexivity.
  cbn [truthy negb get_length mbind res_bind].
  change 2%Q with (inject_Z (Z.of_nat 2)). rewrite lt_num_of_nat.
  split; reflexivity.
Qed.

(** C9 at the transcript [{"chat_messages": [{}, null]}], whose second
    message is [null] and so has neither content nor text. The guard of
    [extractAnswer] reads [content] of it and throws a TypeError, where it
    returns [''] for the transcript [{"chat_messages": [{}]}] and for a
    missing response. [askClaude] rejects with that error after its three
    requests, the listener never calls [sendResponse], and the content
    script does not show the toast for an answer that cannot be used:
    when the browser closes the port it shows the browser's message, and
    when it does not the handler waits for ever, shows nothing, and
    [isProcessing] stays true. With the transcript of one message the
    listener answers [''] and the toast for an unusable answer is shown. *)
Theorem null_second_message_is_not_reported :
  let ask := onMessage_askClaude (H := Spec.example_runtime)
               (lit "Summary") VUndefined VUndefined in
  let org := initial (VStr (lit "org-1")) in
  let asked :=
    Background.run (Spec.service_answering Spec.transcript_with_null_message)
      (askClaude (H := Spec.example_runtime) (lit "Summary") VUndefined VUndefined) org in
  let listened :=
    snd (Background.run (Spec.service_answering Spec.transcript_with_null_message) ask org) in
  let listened_short :=
    snd (Background.run (Spec.service_answering Spec.transcript_with_one_message) ask org) in
  let w := Spec.page_with (Spec.attached Spec.textarea_summary) in
  let script := Plain.handleClaudeButtonClick (H := Spec.example_runtime) in
  let closed := Session.run (Spec.quiet_page (Spec.reply_of listened (Some Spec.port_closed)))
                  script (start w) in
  let waiting := Session.run (Spec.quiet_page (Spec.reply_of listened None)) script (start w) in
  let short := Session.run (Spec.quiet_page (Spec.reply_of listened_short None))
                 script (start w) in
  extractAnswer (H := Spec.example_runtime) Spec.transcript_with_null_message
  = Raise (TypeError (lit "Cannot read properties of null"))
  ∧ extractAnswer (H := Spec.example_runtime) Spec.transcript_with_one_message = Ok (VStr [])
  ∧ extractAnswer (H := Spec.example_runtime) VNull = Ok (VStr [])
  ∧ extractAnswer (H := Spec.example_runtime) VUndefined = Ok (VStr [])
  ∧ snd asked = Raise (TypeError (lit "Cannot read properties of null"))
  ∧ length (requests (trace (fst asked))) = 3
  ∧ listened = Ok None
  ∧ Spec.notifications (observed (fst closed))
    = [lit "Error: The message port closed before a response was received."]
  ∧ (value ∘ state) <$> (fields (now (fst closed)) !! 0) = Some []
  ∧ snd waiting
    = Suspended (RuntimeSendMessage (askClaude_message (lit "Summary") VUndefined VUndefined))
  ∧ Spec.notifications (observed (fst waiting)) = []
  ∧ isProcessing (now (fst waiting)) = true
  ∧ match listened_short with
    | Ok (Some r) => answer r = VStr []
    | _ => False
    end
  ∧ snd short = Finished (Ok tt)
  ∧ Spec.notifications (observed (fst short))
    = [lit "Error getting response from Claude. Please try again."]
  ∧ (value ∘ state) <$> (fields (now (fst short)) !! 0) = Some [].
Proof. vm_compute. repeat split; reflexivity. Qed.

(** ** A field that has left the document *)

(** C7 in the second script: the handler does not look whether the field
    is still in the document. With the active text area removed from the
    page, the answer is written into it all the same and the toast reports
    success. *)
Theorem second_script_writes_removed_field :
  let w := Spec.page_with (Spec.detached Spec.textarea_summary) in
  let env := Spec.quiet_page (Some (Ok (Some Spec.example_answer))) in
  let c := fst (Session.run env (Plain.handleClaudeButtonClick (H := Spec.example_runtime))
                  (start w)) in
  Spec.active_in_document w = false
  ∧ (value ∘ state) <$> (fields (now c) !! 0) = Some (lit "This is a test.")
  ∧ Spec.notifications (observed c) = [lit "Claude has filled the field successfully!"].
Proof. vm_compute. repeat split; reflexivity. Qed.

(** The first script on the same page: nothing is written, no write is
    set on a timer, and the toast says that the field is gone. *)
Lemma first_script_reports_removed_field :
  let w := Spec.page_with (Spec.detached Spec.textarea_summary) in
  let env := Spec.quiet_page (Some (Ok (Some Spec.example_answer))) in
  let script :=
    WithContext.handleClaudeButtonClick
      ContextHandler.Screenshot.capturePageContext
      ContextHandler.Screenshot.createEnhancedPrompt in
  let c := fst (Session.run env script (start w)) in
  (value ∘ state) <$> (fields (now c) !! 0) = Some []
  ∧ Spec.writes (observed c) = []
  ∧ Spec.notifications (observed c) = [lit "Error: The form field is no longer available"].
Proof. vm_compute. repeat split; reflexivity. Qed.

(** ** A call that the service refuses *)

(** C3 at status 500 for the create request, the organization being
    stored. [askClaude] rejects with the status in its message, but the
    listener never calls [sendResponse], so the content script does not
    see that error: when the browser closes the port, the toast carries the
    browser's message, without the status; when it does not, the handler
    waits for ever, shows nothing, and [isProcessing] stays true. The field
    keeps its value in both cases. *)
Theorem status_500_is_not_reported :
  let backend := Spec.failing_service 0 500 in
  let asked :=
    Background.run backend
      (askClaude (H := Spec.example_runtime) (lit "Summary") VUndefined VUndefined)
      (initial (VStr (lit "org-1"))) in
  let answered :=
    Background.run backend
      (onMessage_askClaude (H := Spec.example_runtime) (lit "Summary") VUndefined VUndefined)
      (initial (VStr (lit "org-1"))) in
  let w := Spec.page_with (Spec.attached Spec.textarea_summary) in
  let script := Plain.handleClaudeButtonClick (H := Spec.example_runtime) in
  let closed := Session.run (Spec.quiet_page (deliver None (Some Spec.port_closed)))
                  script (start w) in
  let waiting := Session.run (Spec.quiet_page (deliver None None)) script (start w) in
  snd asked = Raise (Error (lit "Failed to create conversation: 500"))
  ∧ length (requests (trace (fst asked))) = 1
  ∧ snd answered = Ok None
  ∧ Spec.sent_messages (observed (fst closed))
    = [askClaude_message (lit "Summary") VUndefined VUndefined]
  ∧ Spec.notifications (observed (fst closed))
    = [lit "Error: The message port closed before a response was received."]
  ∧ (value ∘ state) <$> (fields (now (fst closed)) !! 0) = Some []
  ∧ snd waiting
    = Suspended (RuntimeSendMessage (askClaude_message (lit "Summary") VUndefined VUndefined))
  ∧ Spec.notifications (observed (fst waiting)) = []
  ∧ isProcessing (now (fst waiting)) = true
  ∧ (value ∘ state) <$> (fields (now (fst waiting)) !! 0) = Some [].
Proof. vm_compute. repeat split; reflexivity. Qed.

(** Whatever the status and whatever the call, the content script sees the
    same thing: what it shows does not depend on the error that
    [askClaude] threw. *)
Lemma rejection_never_reaches_content `{JsRuntime} env question projectId title stored
    k rq resp (closed : option jserror) :
  let asked := Background.run env (askClaude question projectId title) (initial stored) in
  requests (trace (fst asked)) !! k = Some rq →
  fetch_reply env k rq = Resolved resp →
  ok resp = false →
  ∀ sent, snd (Background.run env (onMessage_askClaude question projectId title)
                 (initial stored)) = Ok sent →
  deliver sent closed = match closed with
                        | Some lastError => Some (Raise lastError)
                        | None => None
                        end.
Proof.
  intros asked Hrq Hreply Hbad sent Hsent.
  rewrite (onMessage_drops_status_error env question projectId title stored k rq resp
             Hrq Hreply Hbad) in Hsent.
  injection Hsent as <-. reflexivity.
Qed.

(** ** The title of a conversation *)

Lemma cleaned_question_plain (question : jsstring) :
  Forall (fun c => ContextHandler.is_markdown c = false) (Spec.cleaned_question question).
Proof.
  unfold Spec.cleaned_question. apply List.Forall_forall. intros c Hc.
  apply List.filter_In in Hc as [_ Hc]. apply negb_true_iff in Hc. exact Hc.
Qed.

(** [find_index] finds the first position that the class matches. *)
Lemma find_index_first (f : N → bool) (s : jsstring) (i : nat) :
  ContextHandler.find_index f s = Some i →
  (∃ c, s !! i = Some c ∧ f c = true)
  ∧ ∀ j c, j < i → s !! j = Some c → f c = false.
Proof.
  revert i. induction s as [|x s IH]; intros i; cbn [ContextHandler.find_index];
    [discriminate|].
  destruct (f x) eqn:Hx.
  - intros [= <-]. split; [exists x; split; [reflexivity|exact Hx]|]. intros j c Hj. lia.
  - destruct (ContextHandler.find_index f s) as [k|]; [|discriminate].
    intros [= <-]. destruct (IH k eq_refl) as [(c & Hc & Hfc) Hbefore]. split.
    + exists c. split; [exact Hc|exact Hfc].
    + intros [|j] c' Hj Hc'.
      * injection Hc' as <-. exact Hx.
      * apply (Hbefore j c'); [lia|exact Hc'].
Qed.

Lemma find_index_none (f : N → bool) (s : jsstring) :
  ContextHandler.find_index f s = None → ∀ i c, s !! i = Some c → f c = false.
Proof.
  induction s as [|x s IH]; cbn [ContextHandler.find_index]; intros Hnone i c Hc;
    [discriminate|].
  destruct (f x) eqn:Hx; [discriminate|].
  destruct (ContextHandler.find_index f s) as [k|] eqn:Hk; [discriminate|].
  destruct i as [|i]; [injection Hc as <-; exact Hx|].
  apply (IH eq_refl i c Hc).
Qed.

(** What the sentence end of the script is, in the words of the
    specification. *)
Lemma find_index_sentence_end (s : jsstring) (i : nat) :
  Spec.first_sentence_end s i
  ↔ ContextHandler.find_index ContextHandler.is_sentence_end s = Some i.
Proof.
  split.
  - intros [(c & Hc & Hend) Hbefore].
    destruct (ContextHandler.find_index ContextHandler.is_sentence_end s) as [k|] eqn:Hk.
    + destruct (find_index_first _ _ _ Hk) as [(c' & Hc' & Hend') Hbefore'].
      destruct (Nat.lt_trichotomy i k) as [Hlt|[->|Hgt]]; [|reflexivity|].
      * rewrite (Hbefore' i c Hlt Hc) in Hend. discriminate.
      * rewrite (Hbefore k c' Hgt Hc') in Hend'. discriminate.
    + rewrite (find_index_none _ _ Hk i c Hc) in Hend. discriminate.
  - intros Hk. apply find_index_first, Hk.
Qed.

(** The title is ["Form: "] and the cleaned question, whole when it has at
    most 50 code units; a longer one is cut just after its first sentence
    end when that is one of its first 60 code units, and otherwise to 47
    code units and an ellipsis. *)
Lemma generateConversationTitle_shape (question : jsstring) :
  let cleaned := Spec.cleaned_question question in
  ∃ t, ContextHandler.generateConversationTitle question = lit "Form: " ++ t
       ∧ Forall (fun c => ContextHandler.is_markdown c = false) t
       ∧ length t ≤ 60
       ∧ (length cleaned ≤ 50 → t = cleaned)
       ∧ (50 < length cleaned →
            (∀ i, Spec.first_sentence_end cleaned i → i < 60 → t = take (i + 1) cleaned)
            ∧ ((∀ i, Spec.first_sentence_end cleaned i → 60 ≤ i) →
               t = take 47 cleaned ++ lit "...")).
Proof.
  intros cleaned. unfold ContextHandler.generateConversationTitle.
  fold (Spec.cleaned_question question). fold cleaned.
  pose proof (cleaned_question_plain question) as Hplain. fold cleaned in Hplain.
  assert (Hcut : Forall (fun c => ContextHandler.is_markdown c = false)
                   (take 47 cleaned ++ lit "...")
                 ∧ length (take 47 cleaned ++ lit "...") ≤ 60).
  { split.
    - apply Forall_app. split; [apply Forall_take, Hplain|].
      repeat constructor.
    - rewrite length_app, length_take. change (length (lit "...")) with 3. lia. }
  destruct (50 <? length cleaned) eqn:Hlong.
  - apply Nat.ltb_lt in Hlong.
    destruct (ContextHandler.find_index ContextHandler.is_sentence_end cleaned)
      as [index|] eqn:Hindex.
    + apply find_index_sentence_end in Hindex as Hfirst.
      assert (Hunique : ∀ i, Spec.first_sentence_end cleaned i → i = index).
      { intros i Hi. apply find_index_sentence_end in Hi. congruence. }
      destruct (index <? 60) eqn:Hnear.
      * apply Nat.ltb_lt in Hnear. exists (substring 0 (index + 1) cleaned).
        rewrite substring_prefix. split; [reflexivity|].
        split; [apply Forall_take, Hplain|].
        split; [rewrite length_take; lia|].
        split; [lia|]. intros _. split.
        -- intros i Hi _. rewrite (Hunique i Hi). reflexivity.
        -- intros Hfar. specialize (Hfar index Hfirst). lia.
      * apply Nat.ltb_ge in Hnear.
        exists (substring 0 47 cleaned ++ lit "..."). rewrite substring_prefix.
        destruct Hcut as [Hc1 Hc2].
        split; [reflexivity|]. split; [exact Hc1|]. split; [exact Hc2|].
        split; [lia|]. intros _. split.
        -- intros i Hi Hlt. rewrite (Hunique i Hi) in Hlt. lia.
        -- intros _. reflexivity.
    + exists (substring 0 47 cleaned ++ lit "..."). rewrite substring_prefix.
      destruct Hcut as [Hc1 Hc2].
      split; [reflexivity|]. split; [exact Hc1|]. split; [exact Hc2|].
      split; [lia|]. intros _. split.
      * intros i Hi _. apply find_index_sentence_end in Hi. congruence.
      * intros _. reflexivity.
  - apply Nat.ltb_ge in Hlong. exists cleaned.
    split; [reflexivity|]. split; [exact Hplain|]. split; [lia|].
    split; [reflexivity|]. intros Hlt. lia.
Qed.

Example title_of_short_question :
  ContextHandler.generateConversationTitle (lit "  What is your *name*?  ")
  = lit "Form: What is your name?".
Proof. vm_compute. reflexivity. Qed.

Example title_of_first_sentence :
  ContextHandler.generateConversationTitle
    (lit "Describe your experience. Then list three projects that you led and their outcomes")
  = lit "Form: Describe your experience.".
Proof. vm_compute. reflexivity. Qed.

Example title_of_long_question :
  ContextHandler.generateConversationTitle
    (lit "Please describe in detail the reasons why you are applying for this position")
  = lit "Form: Please describe in detail the reasons why you a...".
Proof. vm_compute. reflexivity. Qed.

(** ** Conversations *)

(** C8, as amended. Every request of the first script asks the background
    with a title made from the question ([generateConversationTitle]);
    [askClaude] then creates a conversation of that name for every request
    (it never takes an existing one) under an id that the extension draws
    itself with [crypto.randomUUID()], whatever the service answers, and
    uses that id to post the message, to read the transcript and in its
    result. The title is ["Form: "] and the trimmed question without
    markdown characters: whole when that has at most 50 characters, cut
    just after its first sentence end when that is one of its first 60
    characters, and cut to 47 characters and ["..."] otherwise. *)
Theorem conversation_per_request `{JsRuntime} {context : Type}
    (capturePageContext : cprog context)
    (createEnhancedPrompt : jsstring → context → jsstring)
    env c c1 ctx settings (question : jsstring)
    resp uuid date stored org asked :
  Session.run env capturePageContext c = (c1, Finished (Ok ctx)) →
  (∀ n rq, ok (resp n rq) = true) →
  (∀ n rq, is_ok (json (resp n rq)) = true) →
  (∀ n rq, is_ok (text (resp n rq)) = true) →
  Spec.organization resp stored = Some (org, asked) →
  let title := ContextHandler.generateConversationTitle question in
  let prompt := createEnhancedPrompt question ctx in
  let m := askClaude_message prompt (defaultProject settings) (VStr title) in
  let id := uuid 0 in
  let message := posted prompt (uuid 1) in
  let outcome :=
    Background.run (answering resp uuid date)
      (askClaude (Page.question m) (projectId m) (conversationTitle m)) (initial stored) in
  (∃ rest,
     observed (fst (Session.run env
                      (WithContext.ask capturePageContext createEnhancedPrompt
                                       settings question) c))
     = observed c1 ++ Sent m :: rest)
  ∧ requests (trace (fst outcome))
    = asked ++ [create_request org (defaultProject settings) (VStr title) id;
                send_request org id (snd message) (fst message);
                transcript_request org id]
  ∧ (∀ r, snd outcome = Ok r → conversationId r = id)
  ∧ (∃ t, title = lit "Form: " ++ t
          ∧ Forall (fun c => ContextHandler.is_markdown c = false) t
          ∧ length t ≤ 60
          ∧ (length (Spec.cleaned_question question) ≤ 50 → t = Spec.cleaned_question question)
          ∧ (50 < length (Spec.cleaned_question question) →
               (∀ i, Spec.first_sentence_end (Spec.cleaned_question question) i → i < 60 →
                     t = take (i + 1) (Spec.cleaned_question question))
               ∧ ((∀ i, Spec.first_sentence_end (Spec.cleaned_question question) i → 60 ≤ i) →
                  t = take 47 (Spec.cleaned_question question) ++ lit "..."))).
Proof.
  intros Hcapture Hok Hjson Htext Horg title prompt m id message outcome.
  split; [apply (ask_sends_titled_message capturePageContext createEnhancedPrompt
                   env c c1 ctx settings question Hcapture)|].
  assert (Htitle : truthy (VStr title) = true).
  { subst title. destruct (generateConversationTitle_shape question) as (t & -> & _).
    reflexivity. }
  pose proof (askClaude_answered resp uuid date prompt (defaultProject settings) (VStr title)
                stored org asked Hok Hjson Htext Horg) as [Htrace Hresult].
  rewrite Htitle in Htrace. fold id message outcome in Htrace, Hresult.
  split; [|split].
  - subst outcome. cbn [Page.question projectId conversationTitle m askClaude_message] in *.
    apply (f_equal (omap is_fetch)) in Htrace.
    assert (Hreq : ∀ t, omap is_fetch (List.filter network t) = requests t).
    { intros t. unfold requests. induction t as [|ev t IH]; [reflexivity|].
      destruct ev; cbn; rewrite ?IH; reflexivity. }
    assert (Hmap : ∀ l : list http_request, omap is_fetch (map Fetch l) = l).
    { induction l as [|rq l IH]; [reflexivity|]. cbn. rewrite IH. reflexivity. }
    rewrite Hreq in Htrace. rewrite Htrace, omap_app, Hmap. reflexivity.
  - intros r Hr. subst outcome.
    cbn [Page.question projectId conversationTitle m askClaude_message] in *.
    rewrite Hresult in Hr.
    destruct (json (resp (length asked + 2) (transcript_request org id))) as [transcript|];
      [|discriminate].
    cbn [mbind res_bind] in Hr.
    destruct (extractAnswer transcript); [|discriminate].
    injection Hr as <-. reflexivity.
  - destruct (generateConversationTitle_shape question)
      as (t & Ht & Hplain & Hlen & Hshort & Hlong).
    exists t. split; [exact Ht|]. split; [exact Hplain|]. split; [exact Hlen|].
    split; [exact Hshort|exact Hlong].
Qed.

(** The theorem for the question "Summary" on the example page, with the
    organization "org-1" stored and a service that answers 200: the three
    requests carry the id drawn first. *)
Lemma conversation_per_request_witness :
  let capture := ContextHandler.Screenshot.capturePageContext in
  let env := Spec.quiet_page (Some (Ok (Some Spec.example_answer))) in
  let c := start (Spec.page_with (Spec.attached Spec.textarea_summary)) in
  let ctx := match snd (Session.run env capture c) with
             | Finished (Ok x) => x
             | _ => {| textContext := []; screenshotData := None |}
             end in
  let title := VStr (lit "Form: Summary") in
  let prompt := ContextHandler.Screenshot.createEnhancedPrompt (lit "Summary") ctx in
  let org := VStr (lit "org-1") in
  requests (trace (fst (Background.run Spec.example_service
                          (askClaude (H := Spec.example_runtime) prompt VUndefined title)
                          (initial org))))
  = [create_request (H := Spec.example_runtime) org VUndefined title (lit "uuid-0");
     send_request (H := Spec.example_runtime) org (lit "uuid-0") prompt [];
     transcript_request (H := Spec.example_runtime) org (lit "uuid-0")].
Proof.
  intros capture env c ctx title prompt org.
  refine (proj1 (proj2
    (conversation_per_request (H := Spec.example_runtime)
       capture ContextHandler.Screenshot.createEnhancedPrompt
       env c (fst (Session.run env capture c)) ctx
       {| defaultProject := VUndefined; autoDetect := VBool true |} (lit "Summary")
       Spec.example_responses Spec.example_uuid Spec.example_date org org [] _ _ _ _ _)));
    [vm_compute; reflexivity | intros; reflexivity | intros; reflexivity
    | intros; reflexivity | reflexivity].
Defined.

(** C8 as stated fails: the id of the conversation is not issued by the
    service. The service answers the create request with an id of its own
    and the conversation goes by the id that the extension drew. *)
Lemma conversation_id_counterexample :
  let org := VStr (lit "org-1") in
  let title := VStr (lit "Form: Summary") in
  let outcome :=
    Background.run Spec.service_with_own_ids
      (askClaude (H := Spec.example_runtime) (lit "Summary") VUndefined title)
      (initial org) in
  let created :=
    fetch_reply Spec.service_with_own_ids 0
      (create_request (H := Spec.example_runtime) org VUndefined title (lit "uuid-0")) in
  (∃ r, created = Resolved r ∧ Spec.issued_uuid r = Ok (VStr (lit "issued-by-service")))
  ∧ (∃ r, snd outcome = Ok r ∧ conversationId r = lit "uuid-0"
          ∧ VStr (conversationId r) ≠ VStr (lit "issued-by-service"))
  ∧ requests (trace (fst outcome)) !! 1
    = Some (send_request (H := Spec.example_runtime) org (lit "uuid-0") (lit "Summary") []).
Proof.
  vm_compute. split; [|split].
  - eexists. split; reflexivity.
  - eexists. split; [reflexivity|]. split; [reflexivity|discriminate].
  - reflexivity.
Qed.

(** ** The inserter *)

Lemma is_text_control_spec (e : element) :
  is_text_control e = true
  ↔ tagName e = lit "TEXTAREA"
    ∨ (tagName e = lit "INPUT" ∧ prop_type e = Some (lit "text")).
Proof.
  unfold is_text_control. rewrite orb_true_iff, andb_true_iff, !jseqb_eq.
  split; intros [Ha|[Hb Hc]]; try (left; exact Ha); right; split; try exact Hb.
  - destruct (prop_type e) as [t|]; [|discriminate]. apply jseqb_eq in Hc. congruence.
  - rewrite Hc. apply jseqb_refl.
Qed.

(** An input of type search is a field for the detector and not a text
    control for the inserter. *)
Lemma search_input_detected_not_written (ancestors : list element) (e : element) (t : jsstring) :
  tag e = lit "input" → getAttribute e "type" = Some t → to_lower t = lit "search" →
  is_form_element ancestors e = true ∧ is_text_control e = false.
Proof.
  intros Htag Htype Hsearch. split.
  - unfold is_form_element, matches, FORM_ELEMENTS.
    cbn [existsb matches_complex rev app matches_compound forallb matches_simple
         matches_ancestors].
    rewrite Htype, Htag. unfold attr_value_eqb. cbn [String.eqb Ascii.eqb Bool.eqb].
    rewrite Hsearch.
    replace (jseqb (lit "input") (lit "input")) with true by reflexivity.
    replace (jseqb (lit "search") (to_lower (lit "search"))) with true by reflexivity.
    change (matches_ancestors ancestors []) with true.
    cbn [andb orb]. rewrite !orb_true_r. reflexivity.
  - unfold is_text_control, tagName, prop_type. rewrite Htag, Htype, Hsearch.
    reflexivity.
Qed.

(** An element of class form-control is a field for the detector. *)
Lemma form_control_detected (ancestors : list element) (e : element) :
  classList_contains e "form-control" = true → is_form_element ancestors e = true.
Proof.
  intros Hclass. unfold is_form_element, matches, FORM_ELEMENTS.
  cbn [existsb matches_complex rev app matches_compound forallb matches_simple
       matches_ancestors].
  rewrite Hclass. change (matches_ancestors ancestors []) with true.
  cbn [andb orb]. rewrite !orb_true_r. reflexivity.
Qed.

(** C10. The inserter of either script writes to text areas, to inputs
    whose type is text, and to elements whose contenteditable attribute is
    "true": the first two get the text as their value, the third as its
    innerHTML. On every other element it leaves value and innerHTML as
    they are (the second script leaves the whole element as it is), also
    when the detector counts the element as a field, as it does an input
    of type search or an element of class form-control. *)
Theorem inserter_writes_only_text_fields `{JsRuntime} (f : field) (text : jsval) :
  let e := elem f in
  let st := state f in
  (is_text_control e = true ↔
     tagName e = lit "TEXTAREA" ∨ (tagName e = lit "INPUT" ∧ prop_type e = Some (lit "text")))
  ∧ (is_text_control e = true →
       value (insert_now e st text) = assigned_value e (ToString text)
       ∧ value (insert_deferred f text) = assigned_value e (ToString text)
       ∧ innerHTML (insert_now e st text) = innerHTML st
       ∧ innerHTML (insert_deferred f text) = innerHTML st)
  ∧ (is_text_control e = false → is_contenteditable e = true →
       innerHTML (insert_now e st text) = ToString text
       ∧ innerHTML (insert_deferred f text) = ToString text
       ∧ value (insert_now e st text) = value st
       ∧ value (insert_deferred f text) = value st)
  ∧ (is_text_control e = false → is_contenteditable e = false →
       insert_now e st text = st
       ∧ value (insert_deferred f text) = value st
       ∧ innerHTML (insert_deferred f text) = innerHTML st)
  ∧ (∀ t, tag e = lit "input" → getAttribute e "type" = Some t →
          to_lower t = lit "search" → is_contenteditable e = false →
          is_form_element (ancestors f) e = true
          ∧ insert_now e st text = st
          ∧ value (insert_deferred f text) = value st
          ∧ innerHTML (insert_deferred f text) = innerHTML st)
  ∧ (classList_contains e "form-control" = true →
       is_text_control e = false → is_contenteditable e = false →
       is_form_element (ancestors f) e = true
       ∧ insert_now e st text = st
       ∧ value (insert_deferred f text) = value st
       ∧ innerHTML (insert_deferred f text) = innerHTML st).
Proof.
  intros e st.
  assert (Hother : is_text_control e = false → is_contenteditable e = false →
                   insert_now e st text = st
                   ∧ value (insert_deferred f text) = value st
                   ∧ innerHTML (insert_deferred f text) = innerHTML st).
  { intros Ht Hc. unfold insert_now, insert_deferred. fold e st. rewrite Ht, Hc.
    destruct (framework_managed f); repeat split; reflexivity. }
  split; [apply is_text_control_spec|].
  split; [|split; [|split; [exact Hother|split]]].
  - intros Ht. unfold insert_now, insert_deferred. fold e st. rewrite Ht.
    destruct (framework_managed f); repeat split; reflexivity.
  - intros Ht Hc. unfold insert_now, insert_deferred. fold e st. rewrite Ht, Hc.
    destruct (framework_managed f); repeat split; reflexivity.
  - intros t Htag Htype Hsearch Hc.
    destruct (search_input_detected_not_written (ancestors f) e t Htag Htype Hsearch)
      as [Hdetected Ht].
    split; [exact Hdetected|]. apply Hother; assumption.
  - intros Hclass Ht Hc. split; [apply form_control_detected, Hclass|].
    apply Hother; assumption.
Qed.

(** The theorem at [<input type="search">]: a field for the detector that
    the inserter leaves as it is. *)
Lemma inserter_writes_only_text_fields_witness :
  let f := Spec.attached Spec.search_input in
  is_form_element (ancestors f) (elem f) = true
  ∧ insert_now (H := Spec.example_runtime) (elem f) (state f) (VStr (lit "This is a test."))
    = state f
  ∧ value (insert_deferred (H := Spec.example_runtime) f (VStr (lit "This is a test.")))
    = value (state f)
  ∧ innerHTML (insert_deferred (H := Spec.example_runtime) f (VStr (lit "This is a test.")))
    = innerHTML (state f).
Proof.
  intros f.
  refine (proj1 (proj2 (proj2 (proj2 (proj2
    (inserter_writes_only_text_fields (H := Spec.example_runtime) f
       (VStr (lit "This is a test.")))))))
    (lit "search") _ _ _ _); reflexivity.
Defined.

Example form_control_container_untouched :
  let f := Spec.attached Spec.form_control_container in
  is_form_element (ancestors f) (elem f) = true
  ∧ insert_now (H := Spec.example_runtime) (elem f) (state f) (VStr (lit "This is a test."))
    = state f
  ∧ insert_deferred (H := Spec.example_runtime) f (VStr (lit "This is a test."))
    = {| value := []; innerHTML := []; dispatched := [lit "blur"];
         focus_calls := 1; click_calls := 0; caret_at_end := false |}.
Proof. vm_compute. repeat split; reflexivity. Qed.

Example textarea_receives_answer :
  value (insert_now (H := Spec.example_runtime) Spec.textarea_summary Spec.fresh_state
           (VStr (lit "This is a test.")))
  = lit "This is a test.".
Proof. vm_compute. reflexivity. Qed.

(** ** Direct scraping *)

Import ContextHandler.

Lemma clean_and_truncate_long (content : jsstring) :
  maxPageContentLength < length (cleanPageContent content) →
  clean_and_truncate content
  = take maxPageContentLength (cleanPageContent content) ++ truncation_marker.
Proof.
  intros Hlong. unfold clean_and_truncate.
  apply Nat.ltb_lt in Hlong. rewrite Hlong, substring_prefix. reflexivity.
Qed.

Lemma clean_and_truncate_short (content : jsstring) :
  length (cleanPageContent content) ≤ maxPageContentLength →
  clean_and_truncate content = cleanPageContent content.
Proof.
  intros Hshort. unfold clean_and_truncate.
  apply Nat.ltb_ge in Hshort. rewrite Hshort. reflexivity.
Qed.

(** Direct scraping ends with the header and the cleaned, truncated
    content, whatever happens around it. *)
Lemma run_captureDirectPageContent env c (content : jsstring) :
  Spec.extracted (page_facts (now c)) content →
  snd (Session.run env captureDirectPageContent c)
  = Finished (Ok (Spec.context_header (page_facts (now c)) ++ clean_and_truncate content)).
Proof.
  intros Hcontent. unfold captureDirectPageContent.
  rewrite session_run_try_catch. destruct c as [w log n].
  cbn [Session.run mbind prog_bind bind perform react now proceed observe].
  destruct Hcontent as [[Hlen ->]|[Hlen [texts [Htexts ->]]]]; cbn [now] in *.
  - replace (negb (nonempty (structured (page_facts w)))
             || (length (structured (page_facts w)) <? 100)) with false.
    + cbn [Session.run mbind prog_bind bind perform react now proceed observe snd].
      unfold Spec.context_header. rewrite <- !app_assoc. reflexivity.
    + symmetry. apply orb_false_iff. split; [|apply Nat.ltb_ge; exact Hlen].
      destruct (structured (page_facts w)); [cbn in Hlen; lia|reflexivity].
  - replace (negb (nonempty (structured (page_facts w)))
             || (length (structured (page_facts w)) <? 100)) with true.
    + cbn [Session.run mbind prog_bind bind perform react now proceed observe].
      rewrite Htexts.
      cbn [Session.run mbind prog_bind bind perform react now proceed observe snd of_res].
      unfold Spec.context_header. rewrite <- !app_assoc. reflexivity.
    + symmetry. apply orb_true_iff. right. apply Nat.ltb_lt. exact Hlen.
Qed.

(** C5. When the extracted and cleaned content of a page has more than
    20,000 characters, the direct-scrape context is the header followed
    by exactly the first 20,000 characters of that content and the marker
    [\n\n[Content truncated due to length]]; content of at most 20,000
    characters follows the header as it is. *)
Theorem direct_content_truncated_at_budget env c (content : jsstring) :
  let page := page_facts (now c) in
  let cleaned := cleanPageContent content in
  Spec.extracted page content →
  maxPageContentLength = 20000
  ∧ truncation_marker = [LF; LF] ++ lit "[Content truncated due to length]"
  ∧ (20000 < length cleaned →
       snd (Session.run env captureDirectPageContent c)
       = Finished (Ok (Spec.context_header page ++ take 20000 cleaned ++ truncation_marker))
       ∧ length (take 20000 cleaned) = 20000)
  ∧ (length cleaned ≤ 20000 →
       snd (Session.run env captureDirectPageContent c)
       = Finished (Ok (Spec.context_header page ++ cleaned))).
Proof.
  intros page cleaned Hcontent.
  split; [reflexivity|]. split; [reflexivity|].
  rewrite (run_captureDirectPageContent env c content Hcontent).
  split.
  - intros Hlong. rewrite clean_and_truncate_long by exact Hlong.
    split; [reflexivity|]. rewrite length_take. fold cleaned. lia.
  - intros Hshort. rewrite clean_and_truncate_short by exact Hshort. reflexivity.
Qed.

(** The theorem at a page of 20,001 letters: the context keeps 20,000 of
    them and ends with the marker. *)
Lemma direct_content_truncated_at_budget_witness :
  let content := structured Spec.long_facts in
  20000 < length (cleanPageContent content)
  ∧ snd (Session.run (Spec.quiet_page None) captureDirectPageContent (start Spec.long_page))
    = Finished (Ok (Spec.context_header Spec.long_facts
                    ++ take 20000 (cleanPageContent content) ++ truncation_marker))
  ∧ length (take 20000 (cleanPageContent content)) = 20000.
Proof.
  intros content.
  assert (Hlong : 20000 < length (cleanPageContent content)).
  { apply Nat.ltb_lt. vm_compute. reflexivity. }
  split; [exact Hlong|].
  refine (proj1 (proj2 (proj2
    (direct_content_truncated_at_budget (Spec.quiet_page None) (start Spec.long_page)
       content _))) Hlong).
  left. split; [apply Nat.leb_le; vm_compute; reflexivity|reflexivity].
Defined.

Example short_page_context :
  snd (Session.run (Spec.quiet_page None) captureDirectPageContent
         (start (Spec.page_with (Spec.attached Spec.textarea_summary))))
  = Finished (Ok (lit "# Application" ++ [LF] ++ lit "URL: https://example.com/apply"
                  ++ [LF; LF] ++ lit "Tell us about yourself")).
Proof. vm_compute. reflexivity. Qed.

(** ** The reader service *)

Import ContextHandler.Reader.

(** Direct scraping always ends with a text, and shows nothing. *)
Lemma direct_scraping_finishes env c :
  ∃ c' text,
    Session.run env captureDirectPageContent c = (c', Finished (Ok text))
    ∧ now c' = now c ∧ observed c' = observed c ∧ awaits c' = awaits c.
Proof.
  unfold captureDirectPageContent. rewrite session_run_try_catch.
  destruct c as [w log n].
  cbn [Session.run mbind prog_bind bind perform react now proceed observe].
  destruct (negb (nonempty (structured (page_facts w)))
            || (length (structured (page_facts w)) <? 100)).
  - cbn [Session.run mbind prog_bind bind perform react now proceed observe].
    destruct (text_nodes (page_facts w)) as [texts|e];
      cbn [Session.run mbind prog_bind bind perform react now proceed observe of_res
           observed awaits];
      do 2 eexists; (split; [reflexivity|]); cbn [now observed awaits proceed observe];
      rewrite ?app_nil_r; repeat split; reflexivity.
  - cbn [Session.run mbind prog_bind bind perform react now proceed observe
         observed awaits].
    do 2 eexists. split; [reflexivity|]. cbn [now observed awaits proceed observe].
    rewrite ?app_nil_r. repeat split; reflexivity.
Qed.

Lemma is_public_url_spec (url : jsstring) :
  is_public_url url = true ↔ ∀ i, i ∈ privateIndicators → includes url i = false.
Proof.
  unfold is_public_url. rewrite negb_true_iff. split.
  - intros Hnone i Hi. apply list_elem_of_In in Hi.
    destruct (includes url i) eqn:Hinc; [|reflexivity].
    assert (existsb (includes url) privateIndicators = true) as Hsome
      by (apply existsb_exists; exists i; split; assumption).
    congruence.
  - intros Hall. destruct (existsb (includes url) privateIndicators) eqn:Hsome;
      [|reflexivity].
    apply existsb_exists in Hsome as [i [Hi Hinc]].
    apply list_elem_of_In in Hi. rewrite (Hall i Hi) in Hinc. discriminate.
Qed.

Section ReaderFacts.
Context `{JsRuntime}.

(** [capturePageContext] never rejects, whatever it calls. *)
Lemma capturePageContext_with_settles env isPublic withJina direct c e :
  snd (Session.run env (capturePageContext_with isPublic withJina direct) c)
  ≠ Finished (Raise e).
Proof.
  unfold capturePageContext_with. rewrite session_run_try_catch.
  match goal with |- context [match ?r with _ => _ end] => destruct r as [c' [[a|e']|ev]] end;
    cbn; discriminate.
Qed.

(** When direct scraping throws on a page that is not public, the
    context is ['']. *)
Lemma capturePageContext_with_failure env isPublic withJina direct c c1 c2 e :
  Session.run env isPublic c = (c1, Finished (Ok false)) →
  Session.run env direct c1 = (c2, Finished (Raise e)) →
  Session.run env (capturePageContext_with isPublic withJina direct) c
  = (c2, Finished (Ok (VStr []))).
Proof.
  intros Hpublic Hdirect. unfold capturePageContext_with.
  rewrite session_run_try_catch, session_run_bind, Hpublic.
  rewrite session_run_bind. cbn [Session.run].
  rewrite session_run_bind, Hdirect. reflexivity.
Qed.

(** C6. [capturePageContext] asks the reader service only when the URL
    of the page holds none of the private indicators; on any other page it
    answers with direct scraping and shows no request. On a public page,
    when the reader call throws or returns markdown of no more than 100
    characters (so also of fewer than 100), the answer is that of direct
    scraping; longer markdown is the answer. The call never rejects, and a
    failure of the capture as a whole gives the context ['']. *)
Theorem reader_only_for_public_pages env w :
  let url := href (page_facts w) in
  let c := start w in
  let out := Session.run env capturePageContext c in
  (is_public_url url = true ↔ ∀ i, i ∈ privateIndicators → includes url i = false)
  ∧ (is_public_url url = false →
       observed (fst out) = []
       ∧ ∃ c' text,
           Session.run env captureDirectPageContent c = (c', Finished (Ok text))
           ∧ snd out = Finished (Ok (VStr text)))
  ∧ (∀ rq, ReaderRequested rq ∈ observed (fst out) → is_public_url url = true)
  ∧ (is_public_url url = true →
       ∀ c2 r, Session.run env captureWithJina c = (c2, Finished r) →
         (Spec.failed_or_thin r →
            ∃ c3 text,
              Session.run env captureDirectPageContent c2 = (c3, Finished (Ok text))
              ∧ out = (c3, Finished (Ok (VStr text))))
         ∧ (∀ s, r = Ok (VStr s) → 100 < length s → out = (c2, Finished (Ok (VStr s)))))
  ∧ (∀ e, snd out ≠ Finished (Raise e))
  ∧ (∀ isPublic withJina direct c1 c2 e,
       Session.run env isPublic c = (c1, Finished (Ok false)) →
       Session.run env direct c1 = (c2, Finished (Raise e)) →
       Session.run env (capturePageContext_with isPublic withJina direct) c
       = (c2, Finished (Ok (VStr [])))).
Proof.
  intros url c out.
  assert (Hprivate : is_public_url url = false →
            observed (fst out) = []
            ∧ ∃ c' text,
                Session.run env captureDirectPageContent c = (c', Finished (Ok text))
                ∧ snd out = Finished (Ok (VStr text))).
  { intros Hpublic. subst out c. unfold capturePageContext, capturePageContext_with.
    rewrite session_run_try_catch, session_run_bind.
    unfold isPublicWebpage.
    cbn [Session.run mbind prog_bind bind perform react now proceed observe start].
    fold url. rewrite Hpublic.
    change (proceed LocationHref w (start w)) with (start w).
    rewrite session_run_bind. cbn [Session.run]. rewrite session_run_bind.
    destruct (direct_scraping_finishes env (start w))
      as (c' & text & Hdirect & _ & Hlog & _).
    rewrite Hdirect. cbn [Session.run fst snd].
    split; [exact Hlog|]. exists c', text. split; reflexivity. }
  assert (Hfallback : is_public_url url = true →
            ∀ c2 r, Session.run env captureWithJina c = (c2, Finished r) →
              (Spec.failed_or_thin r →
                 ∃ c3 text,
                   Session.run env captureDirectPageContent c2 = (c3, Finished (Ok text))
                   ∧ out = (c3, Finished (Ok (VStr text))))
              ∧ (∀ s, r = Ok (VStr s) → 100 < length s →
                      out = (c2, Finished (Ok (VStr s))))).
  { intros Hpublic c2 r Hjina. subst out c.
    unfold capturePageContext, capturePageContext_with.
    rewrite session_run_try_catch, session_run_bind.
    unfold isPublicWebpage.
    cbn [Session.run mbind prog_bind bind perform react now proceed observe start].
    fold url. rewrite Hpublic.
    change (proceed LocationHref w (start w)) with (start w).
    rewrite session_run_bind, session_run_try_catch, session_run_bind, Hjina.
    destruct (direct_scraping_finishes env c2) as (c3 & text & Hdirect & _).
    assert (Hlong : ∀ s,
              ((if truthy (VStr s)
                then of_res (get_length (VStr s)) ≫= λ len, Ret (gt_num len 100)
                else Ret false) : cprog bool)
              = Ret (100 <? length s)).
    { intros s. destruct s as [|x s]; [reflexivity|].
      cbn [truthy nonempty get_length of_res mbind prog_bind bind].
      rewrite <- (gt_num_of_nat (length (x :: s)) 100). reflexivity. }
    split.
    - intros [[e ->]|[s [-> Hlen]]].
      + cbn [Session.run]. rewrite session_run_bind, Hdirect.
        exists c3, text. split; reflexivity.
      + rewrite Hlong. apply Nat.ltb_ge in Hlen. rewrite Hlen.
        cbn [Session.run mbind prog_bind bind]. rewrite session_run_bind, Hdirect.
        exists c3, text. split; reflexivity.
    - intros s -> Hlen. rewrite Hlong. apply Nat.ltb_lt in Hlen. rewrite Hlen.
      reflexivity. }
  split; [apply is_public_url_spec|].
  split; [exact Hprivate|].
  split.
  { intros rq Hrq. destruct (is_public_url url) eqn:Hpublic; [reflexivity|].
    destruct (Hprivate eq_refl) as [Hlog _]. rewrite Hlog in Hrq.
    apply elem_of_nil in Hrq. destruct Hrq. }
  split; [exact Hfallback|].
  split; [intros e; apply capturePageContext_with_settles|].
  intros isPublic withJina direct c1 c2 e.
  apply capturePageContext_with_failure.
Qed.

End ReaderFacts.

(** The theorem at a public page whose reader request fails: the context
    is that of direct scraping. *)
Lemma reader_only_for_public_pages_witness :
  let w := Spec.page_with (Spec.attached Spec.textarea_summary) in
  let env := Spec.quiet_page None in
  let jina := Session.run env (captureWithJina (H := Spec.example_runtime)) (start w) in
  is_public_url (href (page_facts w)) = true
  ∧ snd jina = Finished (Raise (TypeError (lit "Failed to fetch")))
  ∧ ∃ c3 text,
      Session.run env captureDirectPageContent (fst jina) = (c3, Finished (Ok text))
      ∧ Session.run env (capturePageContext (H := Spec.example_runtime)) (start w)
        = (c3, Finished (Ok (VStr text))).
Proof.
  intros w env jina.
  split; [reflexivity|]. split; [reflexivity|].
  refine (proj1 (proj1 (proj2 (proj2 (proj2
    (reader_only_for_public_pages (H := Spec.example_runtime) env w))))
    _ (fst jina) (Raise (TypeError (lit "Failed to fetch"))) _) _).
  - reflexivity.
  - reflexivity.
  - left. eexists. reflexivity.
Defined.

Example private_page_is_scraped :
  let out := Session.run (Spec.quiet_page None)
               (capturePageContext (H := Spec.example_runtime)) (start Spec.private_page) in
  is_public_url (href (page_facts Spec.private_page)) = false
  ∧ observed (fst out) = []
  ∧ snd out
    = Finished (Ok (VStr (lit "# Console" ++ [LF] ++ lit "URL: https://example.com/admin/users"
                          ++ [LF; LF] ++ lit "Users of the console"))).
Proof. vm_compute. repeat split; reflexivity. Qed.

Example public_page_asks_reader :
  let w := Spec.page_with (Spec.attached Spec.textarea_summary) in
  let markdown := replicate 101 97%N in
  let env := {| oracle := Spec.reader_answers markdown; interfere := fun _ w => w |} in
  let out := Session.run env (capturePageContext (H := Spec.example_runtime)) (start w) in
  observed (fst out)
  = [ReaderRequested
       {| Background.method := Background.POST;
          Background.url := lit "undefined/reader";
          Background.body :=
            Some (VObj [ (lit "url", VStr (lit "https://example.com/apply"));
                         (lit "format", VStr (lit "markdown"));
                         (lit "include_images", VBool false) ]) |}]
  ∧ snd out = Finished (Ok (VStr markdown)).
Proof. vm_compute. repeat split; reflexivity. Qed.

Example markdown_of_100_characters_is_thin :
  let w := Spec.page_with (Spec.attached Spec.textarea_summary) in
  let env := {| oracle := Spec.reader_answers (replicate 100 97%N);
                interfere := fun _ w => w |} in
  snd (Session.run env (capturePageContext (H := Spec.example_runtime)) (start w))
  = Finished (Ok (VStr (lit "# Application" ++ [LF] ++ lit "URL: https://example.com/apply"
                        ++ [LF; LF] ++ lit "Tell us about yourself"))).
Proof. vm_compute. reflexivity. Qed.

(** ** The question inferrer *)

Lemma nonempty_or_nil (t : jsstring) : (if nonempty t then t else []) = t.
Proof. destruct t; reflexivity. Qed.

(** The loop over the parents visits the parent and then the ancestors
    before the body. *)
Lemma search_parents_walk (root : node) (body : option path) (parents : list path) :
  search_parents root body parents
  = Spec.first_nonempty
      (map (fun a => trimmed_text (querySelector root a label_or_heading))
           (Spec.walk_to_body body parents)).
Proof.
  induction parents as [|parent rest IH]; [reflexivity|].
  cbn [search_parents Spec.walk_to_body map Spec.first_nonempty].
  destruct (nonempty (trimmed_text (querySelector root parent label_or_heading)));
    [reflexivity|].
  destruct rest as [|next rest']; [reflexivity|].
  cbn [Spec.before_body]. destruct (bool_decide (body = Some next)); [reflexivity|].
  rewrite IH. reflexivity.
Qed.

Lemma search_siblings_first (siblings : list node) :
  search_siblings siblings
  = Spec.first_nonempty (map (fun n => trim (textContent n)) siblings).
Proof.
  induction siblings as [|prev rest IH]; [reflexivity|].
  cbn [search_siblings map Spec.first_nonempty]. rewrite IH. reflexivity.
Qed.

Section Inferrer.
Context `{SelectorParser}.

(** What [detectFormQuestion] returns for a field whose id can stand
    between quotes: the first non-empty candidate, the placeholder being
    the property. *)
Lemma detectFormQuestion_candidates (root : node) (p : path) (e : element) :
  element_at root p = Some e →
  plain_in_quotes (prop_id e) = true →
  detectFormQuestion root p = Ok (Spec.first_nonempty (Spec.candidates root p e)).
Proof.
  intros Helem Hplain. unfold detectFormQuestion. rewrite Helem.
  unfold label_for. rewrite Hplain.
  rewrite search_parents_walk, search_siblings_first.
  unfold Spec.candidates. cbn [Spec.first_nonempty].
  fold (Spec.ancestor_label root p) (Spec.sibling_text root p).
  unfold Spec.label_text, Spec.placeholder_property, Spec.aria_label,
         Spec.editable_heading.
  destruct (nonempty (prop_id e)); cbn [mbind res_bind];
    [destruct (trimmed_text (document_querySelector root _)) as [|? ?]|];
    destruct (prop_placeholder e) as [[|? ?]|];
    destruct (getAttribute e "aria-label") as [[|? ?]|];
    destruct (Spec.ancestor_label root p) as [|? ?];
    destruct (Spec.sibling_text root p) as [|? ?];
    destruct (is_contenteditable e);
    try reflexivity;
    destruct (closest root p block_container) as [container|]; try reflexivity;
    destruct (querySelectorAll root container heading_or_prompt) as [|first ?];
    rewrite ?nonempty_or_nil; reflexivity.
Qed.

Lemma first_nonempty_none (l : list jsstring) :
  Forall (fun c => c = []) l → Spec.first_nonempty l = [].
Proof.
  induction 1 as [|c l Hc _ IH]; [reflexivity|].
  cbn [Spec.first_nonempty]. rewrite Hc. exact IH.
Qed.

(** C4, as amended. For a field whose id can stand between the quotes of
    [label[for="..."]], [detectFormQuestion] returns the first non-empty
    candidate of: (1) the text of the first label for the id, (2) the
    placeholder property, (3) the aria-label, (4) the first label or
    heading below the parent, then below each ancestor before the body,
    (5) the text of the nearest previous sibling that has text, (6) for
    [contenteditable="true"], the first heading or prompt in the nearest
    block container; and [''] when all are empty. So a label comes before
    placeholder and aria-label, and on an input or a text area, where the
    property is the attribute, the placeholder is returned as it is and
    the list is that of the claim. *)
Theorem detectFormQuestion_first_candidate (root : node) (p : path) (e : element) :
  element_at root p = Some e →
  plain_in_quotes (prop_id e) = true →
  let found := detectFormQuestion root p in
  found = Ok (Spec.first_nonempty (Spec.candidates root p e))
  ∧ (nonempty (Spec.label_text root e) = true → found = Ok (Spec.label_text root e))
  ∧ (∀ ph, jseqb (tag e) (lit "input") || jseqb (tag e) (lit "textarea") = true →
           getAttribute e "placeholder" = Some ph → nonempty ph = true →
           Spec.label_text root e = [] → found = Ok ph)
  ∧ (jseqb (tag e) (lit "input") || jseqb (tag e) (lit "textarea") = true →
       found = Ok (Spec.first_nonempty (Spec.candidates_of_claim root p e)))
  ∧ (Forall (fun c => c = []) (Spec.candidates root p e) → found = Ok []).
Proof.
  intros Helem Hplain found. subst found.
  rewrite (detectFormQuestion_candidates root p e Helem Hplain).
  split; [reflexivity|]. split; [|split; [|split]].
  - intros Hlabel. unfold Spec.candidates. cbn [Spec.first_nonempty].
    rewrite Hlabel. reflexivity.
  - intros ph Htag Hattr Hph Hlabel. unfold Spec.candidates.
    cbn [Spec.first_nonempty]. rewrite Hlabel. cbn [nonempty].
    unfold Spec.placeholder_property, prop_placeholder. rewrite Htag, Hattr.
    cbn [default from_option id]. rewrite Hph. reflexivity.
  - intros Htag. unfold Spec.candidates, Spec.candidates_of_claim.
    unfold Spec.placeholder_property, Spec.placeholder_attribute, prop_placeholder.
    rewrite Htag. reflexivity.
  - intros Hnone. rewrite (first_nonempty_none _ Hnone). reflexivity.
Qed.

End Inferrer.

(** The theorem at [<input placeholder="Enter your name">] without label
    and aria-label: the answer is exactly the placeholder. *)
Lemma detectFormQuestion_first_candidate_witness :
  detectFormQuestion (H := Spec.example_parser) (Spec.page_of Spec.name_input) [0; 0]
  = Ok (lit "Enter your name").
Proof.
  refine (proj1 (proj2 (proj2
    (detectFormQuestion_first_candidate (H := Spec.example_parser)
       (Spec.page_of Spec.name_input) [0; 0] Spec.name_input _ _)))
    (lit "Enter your name") _ _ _ _); reflexivity.
Defined.

(** C4 as stated fails on a field that is not an input or a text area:
    [<div contenteditable="true" placeholder="Enter your name">] has the
    attribute and no [placeholder] property. The detector takes it for a
    field, the first non-empty candidate of the claim is the placeholder,
    and [detectFormQuestion] returns ['']. *)
Lemma detectFormQuestion_placeholder_counterexample :
  let root := Spec.page_of Spec.name_editor in
  element_at root [0; 0] = Some Spec.name_editor
  ∧ is_form_element (elements_at root (ancestor_paths [0; 0])) Spec.name_editor = true
  ∧ Spec.first_nonempty (Spec.candidates_of_claim root [0; 0] Spec.name_editor)
    = lit "Enter your name"
  ∧ detectFormQuestion (H := Spec.example_parser) root [0; 0] = Ok [].
Proof. vm_compute. repeat split; reflexivity. Qed.

Example label_before_placeholder :
  let field := {| tag := lit "input";
                  attrs := [(lit "id", lit "name");
                            (lit "placeholder", lit "Enter your name");
                            (lit "aria-label", lit "Name field")] |} in
  let label := Elem {| tag := lit "label"; attrs := [(lit "for", lit "name")] |}
                    [Text (lit " Full name ")] in
  let root := Elem {| tag := lit "html"; attrs := [] |}
                [Elem {| tag := lit "body"; attrs := [] |} [label; Elem field []]] in
  detectFormQuestion (H := Spec.example_parser) root [0; 1] = Ok (lit "Full name").
Proof. vm_compute. reflexivity. Qed.

(** ** The first script and a call that the service refuses *)

(** The first script waits on the same channel: with the port closed it
    shows the browser's message, and the field keeps its value. *)
Example first_script_shows_port_message :
  let w := Spec.page_with (Spec.attached Spec.textarea_summary) in
  let script :=
    WithContext.handleClaudeButtonClick
      ContextHandler.Screenshot.capturePageContext
      ContextHandler.Screenshot.createEnhancedPrompt in
  let closed := Session.run (Spec.quiet_page (deliver None (Some Spec.port_closed)))
                  script (start w) in
  Spec.notifications (observed (fst closed))
  = [lit "Error: The message port closed before a response was received."]
  ∧ Spec.writes (observed (fst closed)) = []
  ∧ (value ∘ state) <$> (fields (now (fst closed)) !! 0) = Some []
  ∧ isProcessing (now (fst closed)) = false.
Proof. vm_compute. repeat split; reflexivity. Qed.

(* ===================================================================== *)
(** * Further properties of the scripts *)
(* ===================================================================== *)

(** ** [cleanPageContent] *)

Lemma flush_run_length (c : N) (k : nat) (rep : jsstring) (run : nat) :
  length rep ≤ k → length (flush_run c k rep run) ≤ run.
Proof.
  intros Hrep. unfold flush_run. destruct (Nat.leb_spec k run) as [Hle|Hlt].
  - lia.
  - rewrite length_replicate. lia.
Qed.

(** Collapsing runs never makes a text longer. *)
Lemma collapse_runs_length (c : N) (k : nat) (rep : jsstring) (run : nat) (s : jsstring) :
  length rep ≤ k → length (collapse_runs c k rep run s) ≤ run + length s.
Proof.
  intros Hrep. revert run. induction s as [|x s IH]; intros run.
  - cbn [collapse_runs length]. pose proof (flush_run_length c k rep run Hrep). lia.
  - cbn [collapse_runs length]. destruct (N.eqb x c).
    + specialize (IH (S run)). lia.
    + rewrite length_app. cbn [length].
      pose proof (flush_run_length c k rep run Hrep). specialize (IH 0). lia.
Qed.

(** A text without the separator is one piece. *)
Lemma split_on_absent (c : N) (s : jsstring) : c ∉ s → split_on c s = [s].
Proof.
  induction s as [|x s IH]; intros Hc; [reflexivity|].
  cbn [split_on]. destruct (N.eqb_spec x c) as [->|Hne].
  - exfalso. apply Hc. left.
  - rewrite IH; [reflexivity|]. intros Hin. apply Hc. right. exact Hin.
Qed.

Lemma filter_not_control (s : jsstring) :
  Forall (fun c => is_control c = false) (List.filter (fun c => negb (is_control c)) s).
Proof.
  apply Forall_forall. intros c Hc. apply list_elem_of_In, List.filter_In in Hc.
  destruct Hc as [_ Hc]. apply negb_true_iff in Hc. exact Hc.
Qed.

(** The line break is one of the control characters that
    [cleanPageContent] removes before it splits the text into lines, so
    there is one line, kept or dropped as a whole. The result holds no
    control character, in particular no line break, and is never longer
    than the text. *)
Theorem cleanPageContent_is_one_line (content : jsstring) :
  let flat := List.filter (fun c => negb (is_control c))
                (collapse_runs SP 2 [SP] 0 (collapse_runs LF 3 [LF; LF] 0 content)) in
  is_control LF = true
  ∧ cleanPageContent content = (if keep_line flat then flat else [])
  ∧ Forall (fun c => is_control c = false) (cleanPageContent content)
  ∧ (LF ∉ cleanPageContent content)
  ∧ length (cleanPageContent content) ≤ length content
  ∧ (1 ≤ length (trim flat) → length (trim flat) ≤ 10 → cleanPageContent content = []).
Proof.
  intros flat.
  assert (Hflat : Forall (fun c => is_control c = false) flat)
    by apply filter_not_control.
  assert (Hlf : LF ∉ flat).
  { intros Hin. rewrite Forall_forall in Hflat. specialize (Hflat LF Hin). discriminate. }
  assert (Hclean : cleanPageContent content = (if keep_line flat then flat else [])).
  { unfold cleanPageContent. fold flat. rewrite (split_on_absent LF flat Hlf).
    cbn [List.filter]. destruct (keep_line flat); reflexivity. }
  assert (Hlen : length flat ≤ length content).
  { subst flat. etransitivity; [apply List.filter_length_le|].
    etransitivity; [apply collapse_runs_length; cbn; lia|].
    etransitivity; [|apply (collapse_runs_length LF 3 [LF; LF] 0 content); cbn; lia].
    lia. }
  split; [reflexivity|]. split; [exact Hclean|]. rewrite Hclean.
  split; [|split; [|split]].
  - destruct (keep_line flat); [exact Hflat|constructor].
  - destruct (keep_line flat); [exact Hlf|apply not_elem_of_nil].
  - destruct (keep_line flat); [exact Hlen|cbn; lia].
  - intros Hlo Hhi. unfold keep_line.
    destruct (trim flat) as [|x t] eqn:Htrim; [cbn in Hlo; lia|].
    cbn [nonempty negb]. rewrite orb_false_r.
    destruct (Nat.ltb_spec 10 (length (x :: t))) as [Hlt|_]; [lia|reflexivity].
Qed.

(** The theorem at a text of one short word: nothing is left of it. *)
Lemma cleanPageContent_is_one_line_witness :
  cleanPageContent (lit "Menu") = [].
Proof.
  refine (proj2 (proj2 (proj2 (proj2 (proj2
    (cleanPageContent_is_one_line (lit "Menu")))))) _ _); vm_compute; lia.
Defined.

(** Three lines come out as one, the words at the breaks joined. *)
Example cleanPageContent_joins_lines :
  cleanPageContent (lit "Apply" ++ [LF] ++ lit "now" ++ [LF] ++ lit "for the open position")
  = lit "Applynowfor the open position".
Proof. vm_compute. reflexivity. Qed.

(** ** The call of the reader service *)

Section ReaderCall.
Context `{JsRuntime}.

Lemma truncate_markdown_string (s : jsstring) :
  truncate_markdown (VStr s)
  = Ok (VStr (if maxPageContentLength <? length s
              then take maxPageContentLength s ++ truncation_marker else s)).
Proof.
  unfold truncate_markdown. cbn [get_length mbind res_bind].
  rewrite gt_num_of_nat, substring_prefix.
  destruct (maxPageContentLength <? length s); reflexivity.
Qed.

Lemma run_captureWithJina env w :
  Session.run env captureWithJina (start w)
  = let rq := reader_request (href (page_facts w)) in
    match oracle env 0 (FetchReader rq) with
    | None => (suspend (FetchReader rq) (start w), Suspended (FetchReader rq))
    | Some reply =>
        (resume env (FetchReader rq) (start w),
         Finished
           match reply with
           | Background.Rejected e => Raise e
           | Background.Resolved r =>
               if negb (Background.ok r)
               then Raise (Error (lit "r.jina.ai API responded with status: "
                                  ++ Background.decimal (Background.status r)))
               else
                 data ← Background.json r;
                 markdown ← (if truthy data then get_prop data "markdown" else Ok data);
                 if truthy markdown then truncate_markdown markdown
                 else Raise (Error (lit "No markdown content returned from r.jina.ai"))
           end)
    end.
Proof.
  unfold captureWithJina. rewrite session_run_try_catch.
  cbn [Session.run mbind prog_bind bind perform react now proceed observe start awaits].
  change (proceed LocationHref w (start w)) with (start w).
  cbv zeta. cbn [awaits start].
  destruct (oracle env 0 (FetchReader (reader_request (href (page_facts w)))))
    as [[r|e]|]; [| reflexivity | reflexivity].
  cbn [Session.run mbind prog_bind bind].
  destruct (negb (Background.ok r)); [reflexivity|].
  destruct (Background.json r) as [data|e]; [|reflexivity].
  cbn [of_res Session.run mbind prog_bind bind res_bind].
  destruct (truthy data).
  - destruct (get_prop data "markdown") as [markdown|e]; [|reflexivity].
    cbn [of_res Session.run mbind prog_bind bind res_bind].
    destruct (truthy markdown); [|reflexivity].
    destruct (truncate_markdown markdown); reflexivity.
  - cbn [of_res Session.run mbind prog_bind bind res_bind].
    destruct (truthy data); [|reflexivity].
    destruct (truncate_markdown data); reflexivity.
Qed.

(** [captureWithJina] sends one request, to the relative address
    [undefined/reader] ([CONTEXT_CONFIG] has no [r_jina_api]), for the
    address of the page. When the request fails the error is thrown on;
    a status outside 200-299 is thrown with the status in the message; a
    body without markdown is thrown as such; markdown of up to 20,000
    characters is returned as it is and longer markdown as its first
    20,000 characters followed by the truncation marker. *)
Theorem captureWithJina_outcomes env w :
  let rq := reader_request (href (page_facts w)) in
  let out := Session.run env captureWithJina (start w) in
  Background.url rq = lit "undefined/reader"
  ∧ observed (fst out) = [ReaderRequested rq]
  ∧ (oracle env 0 (FetchReader rq) = None → snd out = Suspended (FetchReader rq))
  ∧ (∀ e, oracle env 0 (FetchReader rq) = Some (Background.Rejected e) →
          snd out = Finished (Raise e))
  ∧ (∀ r, oracle env 0 (FetchReader rq) = Some (Background.Resolved r) →
          Background.ok r = false →
          snd out = Finished (Raise (Error (lit "r.jina.ai API responded with status: "
                                            ++ Background.decimal (Background.status r)))))
  ∧ (∀ r props s, oracle env 0 (FetchReader rq) = Some (Background.Resolved r) →
          Background.ok r = true →
          Background.json r = Ok (VObj props) →
          lookup_prop (lit "markdown") props = VStr s →
          nonempty s = true →
          snd out = Finished (Ok (VStr (if 20000 <? length s
                                        then take 20000 s ++ truncation_marker
                                        else s))))
  ∧ (∀ r data, oracle env 0 (FetchReader rq) = Some (Background.Resolved r) →
          Background.ok r = true →
          Background.json r = Ok data →
          (truthy data = false
           ∨ ∃ props, data = VObj props
                      ∧ truthy (lookup_prop (lit "markdown") props) = false) →
          snd out = Finished (Raise (Error (lit "No markdown content returned from r.jina.ai")))).
Proof.
  intros rq out. subst out. rewrite run_captureWithJina. cbv zeta. fold rq.
  split; [reflexivity|]. split.
  { destruct (oracle env 0 (FetchReader rq)); reflexivity. }
  split; [intros ->; reflexivity|].
  split; [intros e ->; reflexivity|].
  split; [intros r -> Hbad; cbn [snd]; rewrite Hbad; reflexivity|].
  split.
  - intros r props s -> Hok Hjson Hmd Hs. cbn [snd]. rewrite Hok, Hjson.
    cbn [negb mbind res_bind truthy get_prop]. rewrite Hmd.
    cbn [truthy]. rewrite Hs, truncate_markdown_string. reflexivity.
  - intros r data -> Hok Hjson Hdata. cbn [snd]. rewrite Hok, Hjson.
    cbn [negb mbind res_bind].
    destruct Hdata as [Hfalsy|[props [-> Hmd]]].
    + rewrite Hfalsy. cbn [mbind res_bind]. rewrite Hfalsy. reflexivity.
    + cbn [truthy get_prop mbind res_bind]. rewrite Hmd. reflexivity.
Qed.

End ReaderCall.

(** The theorem at a reader that answers with 101 letters: the markdown
    is returned whole. *)
Lemma captureWithJina_outcomes_witness :
  let w := Spec.page_with (Spec.attached Spec.textarea_summary) in
  let env := {| oracle := Spec.reader_answers (replicate 101 97%N);
                interfere := fun _ w => w |} in
  snd (Session.run env (captureWithJina (H := Spec.example_runtime)) (start w))
  = Finished (Ok (VStr (if 20000 <? length (replicate 101 97%N)
                        then take 20000 (replicate 101 97%N) ++ truncation_marker
                        else replicate 101 97%N))).
Proof.
  intros w env.
  refine (proj1 (proj2 (proj2 (proj2 (proj2 (proj2
    (captureWithJina_outcomes (H := Spec.example_runtime) env w))))))
    {| Background.status := 200;
       Background.json := Ok (VObj [(lit "markdown", VStr (replicate 101 97%N))]);
       Background.text := Ok [] |}
    [(lit "markdown", VStr (replicate 101 97%N))] (replicate 101 97%N) _ _ _ _ _);
    reflexivity.
Defined.

(** ** The context with a screenshot *)

Import ContextHandler.Screenshot.

Lemma run_captureScreenshot env c :
  Session.run env captureScreenshot c
  = match oracle env (awaits c) RuntimeCaptureScreenshot with
    | None => (suspend RuntimeCaptureScreenshot c, Suspended RuntimeCaptureScreenshot)
    | Some reply =>
        (resume env RuntimeCaptureScreenshot c,
         Finished match reply with
                  | Raise lastError => Raise lastError
                  | Ok (Some data) =>
                      if nonempty data then Ok data
                      else Raise (Error (lit "Failed to capture screenshot"))
                  | Ok None => Raise (Error (lit "Failed to capture screenshot"))
                  end)
    end.
Proof.
  unfold captureScreenshot.
  cbn [Session.run mbind prog_bind bind perform react].
  destruct (oracle env (awaits c) RuntimeCaptureScreenshot) as [[[data|]|e]|];
    try reflexivity.
  destruct (nonempty data); reflexivity.
Qed.

(** When the screenshot fails, direct scraping is what is left. *)
Lemma run_screenshot_fallback env w c1 :
  let header := Spec.context_header (page_facts w) in
  ∃ c2 text,
    Session.run env captureDirectPageContent c1 = (c2, Finished (Ok text))
    ∧ Session.run env
        (captureDirectPageContent
         ≫= λ direct, Ret {| textContext := header ++ direct; screenshotData := None |}) c1
      = (c2, Finished (Ok {| textContext := header ++ text; screenshotData := None |})).
Proof.
  intros header.
  destruct (direct_scraping_finishes env c1) as (c2 & text & Hdirect & _).
  exists c2, text. split; [exact Hdirect|].
  rewrite session_run_bind. unfold jsstring in *. rewrite Hdirect. reflexivity.
Qed.

(** [capturePageContext] with a screenshot: when the background
    answers with an image, the context is the header, the form context
    and the image. When it answers with an error, nothing or an empty
    image, or the browser reports an error, the context is the header
    followed by what direct scraping returns, which begins with the
    header again, and there is no image. The call never rejects, and
    an image in its result is never empty. *)
Theorem screenshot_context_outcomes env w :
  let header := Spec.context_header (page_facts w) in
  let later := interfere env 0 w in
  let out := Session.run env ContextHandler.Screenshot.capturePageContext (start w) in
  (oracle env 0 RuntimeCaptureScreenshot = None →
     snd out = Suspended RuntimeCaptureScreenshot)
  ∧ (∀ data, oracle env 0 RuntimeCaptureScreenshot = Some (Ok (Some data)) →
       nonempty data = true →
       snd out = Finished (Ok {| textContext := header ++ form_context (page_facts later);
                                 screenshotData := Some data |}))
  ∧ (∀ reply, oracle env 0 RuntimeCaptureScreenshot = Some reply →
       ((∃ e, reply = Raise e) ∨ reply = Ok None ∨ reply = Ok (Some [])) →
       ∃ text,
         snd (Session.run env captureDirectPageContent
                (resume env RuntimeCaptureScreenshot (start w)))
         = Finished (Ok text)
         ∧ snd out = Finished (Ok {| textContext := header ++ text; screenshotData := None |})
         ∧ (∀ content, Spec.extracted (page_facts later) content →
              text = Spec.context_header (page_facts later) ++ clean_and_truncate content))
  ∧ (∀ e, snd out ≠ Finished (Raise e))
  ∧ (∀ ctx data, snd out = Finished (Ok ctx) → screenshotData ctx = Some data →
       nonempty data = true).
Proof.
  intros header later out.
  assert (Hrun : out =
    match oracle env 0 RuntimeCaptureScreenshot with
    | None => (suspend RuntimeCaptureScreenshot (start w), Suspended RuntimeCaptureScreenshot)
    | Some reply =>
        let c1 := resume env RuntimeCaptureScreenshot (start w) in
        let fallback :=
          Session.run env
            (captureDirectPageContent
             ≫= λ direct, Ret {| textContext := header ++ direct; screenshotData := None |})
            c1 in
        match reply with
        | Ok (Some data) =>
            if nonempty data
            then (proceed FormLabelsAndContext (now c1) c1,
                  Finished (Ok {| textContext := header ++ form_context (page_facts later);
                                  screenshotData := Some data |}))
            else fallback
        | _ => fallback
        end
    end).
  { subst out. unfold ContextHandler.Screenshot.capturePageContext.
    rewrite session_run_try_catch.
    cbn [Session.run mbind prog_bind bind perform react now proceed observe start].
    change (proceed LocationHref w (proceed DocumentTitle w (start w))) with (start w).
    rewrite session_run_bind, session_run_try_catch, session_run_bind, run_captureScreenshot.
    cbn [awaits start]. cbv zeta.
    destruct (run_screenshot_fallback env w (resume env RuntimeCaptureScreenshot (start w)))
      as (c2 & text & _ & Hfallback).
    fold header in Hfallback.
    change (lit "# " ++ title (page_facts w) ++ [LF] ++ lit "URL: "
            ++ href (page_facts w) ++ [LF; LF]) with header.
    destruct (oracle env 0 RuntimeCaptureScreenshot) as [[[data|]|e]|]; [| | |reflexivity].
    - destruct (nonempty data) eqn:Hdata.
      + cbn [Session.run]. rewrite Hdata.
        cbn [Session.run react now resume proceed]. reflexivity.
      + cbn [Session.run]. rewrite Hfallback. reflexivity.
    - cbn [Session.run]. rewrite Hfallback. reflexivity.
    - cbn [Session.run]. rewrite Hfallback. reflexivity. }
  destruct (run_screenshot_fallback env w (resume env RuntimeCaptureScreenshot (start w)))
    as (c2 & text & Hdirect & Hfallback).
  fold header in Hfallback.
  split; [intros Hnone; rewrite Hrun, Hnone; reflexivity|].
  split.
  { intros data Hreply Hdata. rewrite Hrun, Hreply. cbv zeta. rewrite Hdata. reflexivity. }
  split.
  { intros reply Hreply Hfailed. exists text.
    split; [rewrite Hdirect; reflexivity|]. split.
    - rewrite Hrun, Hreply. cbv zeta.
      destruct Hfailed as [[e ->]|[->| ->]]; cbn [nonempty]; rewrite Hfallback; reflexivity.
    - intros content Hcontent.
      pose proof (run_captureDirectPageContent env
                    (resume env RuntimeCaptureScreenshot (start w)) content Hcontent)
        as Htext.
      rewrite Hdirect in Htext. cbn [snd] in Htext. injection Htext as ->. reflexivity. }
  split.
  { intros e. rewrite Hrun.
    destruct (oracle env 0 RuntimeCaptureScreenshot) as [[[data|]|e']|];
      cbv zeta; rewrite ?Hfallback; try discriminate.
    destruct (nonempty data); rewrite ?Hfallback; discriminate. }
  intros ctx data. rewrite Hrun.
  destruct (oracle env 0 RuntimeCaptureScreenshot) as [[[shot|]|e']|];
    cbv zeta; rewrite ?Hfallback; cbn [snd]; try discriminate.
  - destruct (nonempty shot) eqn:Hshot; rewrite ?Hfallback; cbn [snd];
      intros Hctx; injection Hctx as <-; cbn [screenshotData]; intros Hdata;
      [congruence|discriminate].
  - intros Hctx; injection Hctx as <-; discriminate.
  - intros Hctx; injection Hctx as <-; discriminate.
Qed.

(** The theorem at a page whose screenshot the browser refuses. *)
Lemma screenshot_context_outcomes_witness :
  let w := Spec.page_with (Spec.attached Spec.textarea_summary) in
  let env := Spec.quiet_page None in
  ∃ text,
    snd (Session.run env captureDirectPageContent
           (resume env RuntimeCaptureScreenshot (start w)))
    = Finished (Ok text)
    ∧ snd (Session.run env ContextHandler.Screenshot.capturePageContext (start w))
      = Finished (Ok {| textContext := Spec.context_header (page_facts w) ++ text;
                        screenshotData := None |})
    ∧ (∀ content, Spec.extracted (page_facts (interfere env 0 w)) content →
         text = Spec.context_header (page_facts (interfere env 0 w))
                ++ clean_and_truncate content).
Proof.
  intros w env.
  refine (proj1 (proj2 (proj2 (screenshot_context_outcomes env w)))
            (Raise (LastError (Some (lit "Cannot capture")))) _ _).
  - reflexivity.
  - left. eexists. reflexivity.
Defined.

Example refused_screenshot_repeats_header :
  let w := Spec.page_with (Spec.attached Spec.textarea_summary) in
  snd (Session.run (Spec.quiet_page None) ContextHandler.Screenshot.capturePageContext
         (start w))
  = Finished (Ok {| textContext :=
                      lit "# Application" ++ [LF] ++ lit "URL: https://example.com/apply"
                      ++ [LF; LF]
                      ++ lit "# Application" ++ [LF] ++ lit "URL: https://example.com/apply"
                      ++ [LF; LF] ++ lit "Tell us about yourself";
                    screenshotData := None |}).
Proof. vm_compute. reflexivity. Qed.

(** ** From the screenshot to the attachment *)

(** A pattern does not occur in a text that lacks its first code unit. *)
Lemma index_of_absent (c : N) (t s : jsstring) : c ∉ s → index_of (c :: t) s = None.
Proof.
  induction s as [|a s IH]; intros Hc; [reflexivity|].
  cbn [index_of starts_with].
  destruct (N.eqb_spec c a) as [->|Hne]; [exfalso; apply Hc; left|].
  cbn [andb]. rewrite IH; [reflexivity|].
  intros Hin. apply Hc. right. exact Hin.
Qed.

Lemma trim_start_snoc (c : N) (s : jsstring) :
  is_js_whitespace c = true →
  trim_start (s ++ [c]) = if nonempty (trim_start s) then trim_start s ++ [c] else [].
Proof.
  intros Hc. induction s as [|a s IH].
  - cbn [app trim_start]. rewrite Hc. reflexivity.
  - cbn [app trim_start]. destruct (is_js_whitespace a); [exact IH|reflexivity].
Qed.

Lemma trim_end_snoc (c : N) (s : jsstring) :
  is_js_whitespace c = true → trim_end (s ++ [c]) = trim_end s.
Proof.
  intros Hc. unfold trim_end. rewrite reverse_snoc. cbn [trim_start].
  rewrite Hc. reflexivity.
Qed.

(** White space around a text does not change what [trim] leaves of it. *)
Lemma trim_between (a b : N) (s : jsstring) :
  is_js_whitespace a = true → is_js_whitespace b = true →
  trim ([a] ++ s ++ [b]) = trim s.
Proof.
  intros Ha Hb. unfold trim. cbn [app trim_start]. rewrite Ha.
  rewrite (trim_start_snoc b s Hb).
  destruct (trim_start s) as [|x t]; [reflexivity|].
  cbn [nonempty]. apply trim_end_snoc, Hb.
Qed.

Section Attachment.
Context `{JsRuntime}.

(** The screenshot that [createEnhancedPrompt] embeds is what
    [sendMessage] attaches: for an image without [<] (a data URL has
    none), the message goes out with one attachment whose data is the
    image, trimmed, under an id drawn for it, and with a prompt that no
    longer holds the image: the text before the marker followed by the
    text after it. *)
Theorem screenshot_is_attached env st orgId conversationId
    (question : jsstring) (ctx : page_context) (data : jsstring) :
  screenshotData ctx = Some data →
  nonempty data = true →
  60%N ∉ data →
  let prompt := ContextHandler.Screenshot.createEnhancedPrompt question ctx in
  let intro := lit "I need help filling out a form field. I'll provide context from the current webpage and my specific question." in
  let file_id := uuid_reply env (uuids st) in
  ∃ rest,
    ContextHandler.Screenshot.createEnhancedPrompt question
      {| textContext := textContext ctx; screenshotData := None |}
    = intro ++ rest
    ∧ prompt = intro ++ [LF; LF] ++ lit "## Screenshot of Current Page:" ++ [LF]
               ++ lit "<image>" ++ [LF] ++ data ++ [LF] ++ lit "</image>" ++ rest
    ∧ posted prompt file_id
      = ([image_attachment (trim data) file_id],
         intro ++ [LF; LF] ++ lit "## Screenshot of Current Page:" ++ [LF] ++ rest)
    ∧ trace (fst (Background.run env (sendMessage orgId conversationId prompt) st))
      = trace st
        ++ [RandomUUID;
            Fetch (send_request orgId conversationId
                     (intro ++ [LF; LF] ++ lit "## Screenshot of Current Page:" ++ [LF] ++ rest)
                     [image_attachment (trim data) file_id])].
Proof.
  intros Hshot Hdata Hlt prompt intro file_id.
  set (rest := [LF; LF] ++
               join [LF]
                 ([ lit "## Current Webpage Context:";
                    (if nonempty (textContext ctx) then textContext ctx
                     else lit "No text context available from the current page.");
                    [];
                    lit "## My Question:";
                    question;
                    [] ]
                  ++ ContextHandler.instructions
                       "1. Look at the screenshot and webpage context to understand what I'm filling out.")).
  exists rest.
  set (pre := intro ++ [LF; LF] ++ lit "## Screenshot of Current Page:" ++ [LF]).
  set (inner := [LF] ++ data ++ [LF]).
  assert (Hprompt : prompt = pre ++ lit "<image>" ++ inner ++ lit "</image>" ++ rest).
  { subst prompt pre inner rest intro.
    unfold ContextHandler.Screenshot.createEnhancedPrompt.
    rewrite Hshot, Hdata. cbv zeta. rewrite <- !app_assoc. reflexivity. }
  assert (Hpre : includes pre (lit "<image>") = false) by (vm_compute; reflexivity).
  assert (Hinner : includes inner (lit "</image>") = false).
  { unfold includes. change (lit "</image>") with (60%N :: lit "/image>").
    rewrite index_of_absent; [reflexivity|].
    subst inner. intros Hin.
    apply elem_of_app in Hin as [Hin|Hin];
      [apply list_elem_of_singleton in Hin; discriminate|].
    apply elem_of_app in Hin as [Hin|Hin]; [exact (Hlt Hin)|].
    apply list_elem_of_singleton in Hin. discriminate. }
  assert (Hposted : posted prompt file_id
                    = ([image_attachment (trim data) file_id], pre ++ rest)).
  { rewrite Hprompt, posted_marker; [|exact Hpre|exact Hinner|reflexivity].
    subst inner. rewrite trim_between by reflexivity. reflexivity. }
  split; [reflexivity|].
  split.
  { rewrite Hprompt. subst pre inner. rewrite <- !app_assoc. reflexivity. }
  split.
  { rewrite Hposted. subst pre. rewrite <- !app_assoc. reflexivity. }
  unfold sendMessage. rewrite run_bind, run_prepare_message.
  assert (Hmarker : ∃ m, marker prompt = Some m).
  { unfold posted in Hposted. destruct (marker prompt) as [m|]; [exists m; reflexivity|].
    discriminate. }
  destruct Hmarker as [m ->]. fold file_id. rewrite Hposted.
  rewrite run_bind, run_fetch. cbn [fst snd].
  destruct (fetch_reply env (fetches (after_uuid st))
              (send_request orgId conversationId (pre ++ rest)
                 [image_attachment (trim data) file_id])) as [r|e].
  - destruct (negb (ok r)); [|rewrite run_of_res];
      cbn [Background.run fst after_fetch after_uuid trace]; subst pre;
      rewrite <- !app_assoc; reflexivity.
  - cbn [fst after_fetch after_uuid trace]. subst pre.
    rewrite <- !app_assoc. reflexivity.
Qed.

End Attachment.

(** The theorem at a small image: the attachment carries the image and
    the prompt goes out without it. *)
Lemma screenshot_is_attached_witness :
  let prompt := ContextHandler.Screenshot.createEnhancedPrompt (lit "Summary")
                  Spec.context_with_screenshot in
  ∃ rest,
    fst (posted prompt (lit "uuid-0"))
    = [image_attachment (trim Spec.example_screenshot) (lit "uuid-0")]
    ∧ snd (posted prompt (lit "uuid-0"))
      = lit "I need help filling out a form field. I'll provide context from the current webpage and my specific question."
        ++ [LF; LF] ++ lit "## Screenshot of Current Page:" ++ [LF] ++ rest.
Proof.
  intros prompt.
  destruct (screenshot_is_attached (H := Spec.example_runtime) Spec.example_service
              (initial (VStr (lit "org-1"))) (VStr (lit "org-1")) (lit "uuid-9")
              (lit "Summary") Spec.context_with_screenshot Spec.example_screenshot)
    as (rest & _ & _ & Hposted & _).
  - reflexivity.
  - reflexivity.
  - apply (bool_decide_unpack _). vm_compute. exact I.
  - exists rest. split.
    + exact (f_equal fst Hposted).
    + exact (f_equal snd Hposted).
Defined.

(** ** The field detector *)

Lemma matches_ancestors_nil (ancestors : list element) :
  matches_ancestors ancestors [] = true.
Proof. reflexivity. Qed.

Lemma matches_ancestors_class (ancestors : list element) (c : string) :
  matches_ancestors ancestors [[SClass c]]
  = existsb (fun a => classList_contains a c) ancestors.
Proof.
  induction ancestors as [|a l IH]; [reflexivity|].
  cbn [existsb]. rewrite <- IH. cbn [matches_ancestors matches_compound forallb
                                      matches_simple].
  rewrite !andb_true_r. reflexivity.
Qed.

(** [FORM_ELEMENTS] in short. Of its fifteen selectors, the inputs of
    type text and search and the text areas of a cell container are
    covered by others: an element is taken for a field exactly when it is
    a text area; has [contenteditable="true"], one of the classes
    form-control, cell-input, input, ProseMirror, ql-editor and
    CodeMirror, [role="textbox"] or [data-slate-editor="true"]; or is an
    input that is inside a [.cellContainer] or whose type is not hidden,
    checkbox, radio, button or submit. So an input of type password is a
    field, and so is a hidden input inside a cell container. *)
Theorem detector_accepts (ancestors : list element) (e : element) :
  is_form_element ancestors e = Spec.accepted ancestors e
  ∧ (∀ t, jseqb (tag e) (lit "input") = true → getAttribute e "type" = Some t →
          to_lower t = lit "password" → is_form_element ancestors e = true)
  ∧ (jseqb (tag e) (lit "input") = true → Spec.in_cell_container ancestors = true →
       is_form_element ancestors e = true).
Proof.
  assert (Hshort : is_form_element ancestors e = Spec.accepted ancestors e).
  { unfold is_form_element, matches, FORM_ELEMENTS, Spec.accepted.
    cbn [existsb matches_complex rev app matches_compound forallb matches_simple].
    rewrite !matches_ancestors_nil, !matches_ancestors_class.
    fold (Spec.in_cell_container ancestors).
    unfold Spec.excluded_type, Spec.attribute_is, is_contenteditable, Spec.field_classes,
           Spec.excluded_input_types, attr_value_eqb.
    cbn [String.eqb Ascii.eqb Bool.eqb existsb map].
    replace (to_lower (lit "text")) with (lit "text") by reflexivity.
    replace (to_lower (lit "search")) with (lit "search") by reflexivity.
    replace (to_lower (lit "hidden")) with (lit "hidden") by reflexivity.
    replace (to_lower (lit "checkbox")) with (lit "checkbox") by reflexivity.
    replace (to_lower (lit "radio")) with (lit "radio") by reflexivity.
    replace (to_lower (lit "button")) with (lit "button") by reflexivity.
    replace (to_lower (lit "submit")) with (lit "submit") by reflexivity.
    destruct (getAttribute e "type") as [t|]; [|btauto].
    generalize (to_lower t). clear t. intros t.
    destruct (jseqb t (lit "text")) eqn:Htext.
    { apply jseqb_eq in Htext. subst t.
      replace (jseqb (lit "text") (lit "search")) with false by reflexivity.
      replace (jseqb (lit "text") (lit "hidden")) with false by reflexivity.
      replace (jseqb (lit "text") (lit "checkbox")) with false by reflexivity.
      replace (jseqb (lit "text") (lit "radio")) with false by reflexivity.
      replace (jseqb (lit "text") (lit "button")) with false by reflexivity.
      replace (jseqb (lit "text") (lit "submit")) with false by reflexivity.
      btauto. }
    destruct (jseqb t (lit "search")) eqn:Hsearch.
    { apply jseqb_eq in Hsearch. subst t.
      replace (jseqb (lit "search") (lit "hidden")) with false by reflexivity.
      replace (jseqb (lit "search") (lit "checkbox")) with false by reflexivity.
      replace (jseqb (lit "search") (lit "radio")) with false by reflexivity.
      replace (jseqb (lit "search") (lit "button")) with false by reflexivity.
      replace (jseqb (lit "search") (lit "submit")) with false by reflexivity.
      btauto. }
    btauto. }
  split; [exact Hshort|]. rewrite Hshort. unfold Spec.accepted. split.
  - intros t Hinput Htype Hpassword. rewrite Hinput.
    unfold Spec.excluded_type. rewrite Htype, Hpassword.
    replace (existsb (jseqb (lit "password")) Spec.excluded_input_types) with false
      by reflexivity.
    cbn [negb orb andb]. apply orb_true_r.
  - intros Hinput Hcell. rewrite Hinput, Hcell. cbn [andb]. rewrite !orb_true_r.
    reflexivity.
Qed.

(** The theorem at [<input type="password">]. *)
Lemma detector_accepts_witness :
  is_form_element [] Spec.password_input = true.
Proof.
  refine (proj1 (proj2 (detector_accepts [] Spec.password_input))
            (lit "password") _ _ _); reflexivity.
Defined.

(** ** The queries of the popup *)

Import Queries.

Section QueryFacts.
Context `{JsRuntime}.

Lemma run_fetchOrganizations env st :
  Background.run env fetchOrganizations st
  = (after_fetch organizations_request st,
     match fetch_reply env (fetches st) organizations_request with
     | Resolved r =>
         if ok r then json r
         else Raise (Error (lit "Failed to fetch organizations: " ++ decimal (status r)))
     | Rejected e => Raise e
     end).
Proof.
  unfold fetchOrganizations. rewrite run_bind, run_fetch.
  destruct (fetch_reply env (fetches st) organizations_request) as [r|e]; [|reflexivity].
  destruct (ok r); cbn [negb]; [apply run_of_res|reflexivity].
Qed.

(** [checkLoginStatus] sends one request and never rejects, so the
    listener always answers: with true exactly when the request got a
    2xx answer whose body parses to a truthy value. An empty list of
    organizations is such a value: the check says logged in, and
    [askClaude], asked next, fails for want of an organization. *)
Theorem checkLoginStatus_answers env st :
  let out := Background.run env checkLoginStatus st in
  trace (fst out) = trace st ++ [Fetch organizations_request]
  ∧ (∃ b, snd out = Ok b
          ∧ snd (Background.run env (answered checkLoginStatus) st) = Ok (Some b)
          ∧ (b = true ↔
             ∃ r v, fetch_reply env (fetches st) organizations_request = Resolved r
                    ∧ ok r = true ∧ json r = Ok v ∧ truthy v = true))
  ∧ (∀ r question projectId title,
       fetch_reply env (fetches st) organizations_request = Resolved r →
       ok r = true → json r = Ok (VArr []) → truthy (currentOrgId st) = false →
       snd out = Ok true
       ∧ snd (Background.run env (askClaude question projectId title) st)
         = Raise (Error (lit "No organizations found"))).
Proof.
  intros out.
  assert (Hout : out =
    (after_fetch organizations_request st,
     Ok match fetch_reply env (fetches st) organizations_request with
        | Resolved r => if ok r then match json r with Ok v => truthy v | Raise _ => false end
                        else false
        | Rejected _ => false
        end)).
  { subst out. unfold checkLoginStatus. rewrite run_try_catch, run_bind, run_fetchOrganizations.
    destruct (fetch_reply env (fetches st) organizations_request) as [r|e]; [|reflexivity].
    destruct (ok r); [|reflexivity]. destruct (json r); reflexivity. }
  split; [rewrite Hout; reflexivity|]. split.
  - eexists. split; [rewrite Hout; reflexivity|]. split.
    + unfold answered. rewrite run_try_catch, run_bind. fold out. rewrite Hout. reflexivity.
    + split.
      * intros Hb.
        destruct (fetch_reply env (fetches st) organizations_request) as [r|e];
          [|discriminate].
        destruct (ok r) eqn:Hok; [|discriminate].
        destruct (json r) as [v|e] eqn:Hjson; [|discriminate].
        exists r, v. auto.
      * intros (r & v & -> & -> & -> & Hv). exact Hv.
  - intros r question projectId title Hreply Hok Hjson Hstored. split.
    + rewrite Hout, Hreply, Hok, Hjson. reflexivity.
    + unfold askClaude. rewrite run_rethrow, run_bind.
      unfold ensure_organization.
      cbn [Background.run mbind prog_bind bind perform].
      rewrite Hstored. cbn [negb].
      rewrite run_bind, run_fetchOrganizations, Hreply, Hok, Hjson.
      cbn [truthy]. rewrite !run_bind, run_of_res.
      cbn [get_length Background.run length].
      change 0%Q with (inject_Z (Z.of_nat 0)). rewrite gt_num_of_nat.
      reflexivity.
Qed.

(** [getUserInfo] sends one request and never rejects, so the listener
    always answers: with the name of the first organization when the
    list has one, and with [null] for an empty list and whenever the
    request fails or is refused. *)
Theorem getUserInfo_answers env st :
  let out := Background.run env getUserInfo st in
  let reply := fetch_reply env (fetches st) organizations_request in
  trace (fst out) = trace st ++ [Fetch organizations_request]
  ∧ (∃ v, snd out = Ok v
          ∧ snd (Background.run env (answered getUserInfo) st) = Ok (Some v)
          ∧ (v = VNull ∨ ∃ name, v = VObj [(lit "name", name)]))
  ∧ (∀ r first rest, reply = Resolved r → ok r = true →
       json r = Ok (VArr (VObj first :: rest)) →
       snd out = Ok (VObj [(lit "name", lookup_prop (lit "name") first)]))
  ∧ (∀ r, reply = Resolved r → ok r = true → json r = Ok (VArr []) → snd out = Ok VNull)
  ∧ (∀ r, reply = Resolved r → ok r = false → snd out = Ok VNull)
  ∧ (∀ e, reply = Rejected e → snd out = Ok VNull).
Proof.
  intros out reply.
  set (result := fun orgs : jsval =>
         if truthy orgs then
           match get_length orgs with
           | Ok len =>
               if gt_num len 0 then
                 match get_index orgs 0 with
                 | Ok first =>
                     match get_prop first "name" with
                     | Ok name => VObj [(lit "name", name)]
                     | Raise _ => VNull
                     end
                 | Raise _ => VNull
                 end
               else VNull
           | Raise _ => VNull
           end
         else VNull).
  assert (Hout : out =
    (after_fetch organizations_request st,
     Ok match reply with
        | Resolved r => if ok r then match json r with Ok orgs => result orgs | Raise _ => VNull end
                        else VNull
        | Rejected _ => VNull
        end)).
  { subst out reply result. unfold getUserInfo.
    rewrite run_try_catch, run_bind, run_fetchOrganizations.
    destruct (fetch_reply env (fetches st) organizations_request) as [r|e]; [|reflexivity].
    destruct (ok r); [|reflexivity]. destruct (json r) as [orgs|e]; [|reflexivity].
    rewrite run_bind. destruct (truthy orgs); [|reflexivity].
    rewrite run_bind, run_of_res. destruct (get_length orgs) as [len|e]; [|reflexivity].
    cbn [Background.run]. destruct (gt_num len 0); [|reflexivity].
    rewrite run_bind, run_of_res. destruct (get_index orgs 0) as [first|e]; [|reflexivity].
    rewrite run_bind, run_of_res. destruct (get_prop first "name"); reflexivity. }
  split; [rewrite Hout; reflexivity|]. split.
  - eexists. split; [rewrite Hout; reflexivity|]. split.
    + unfold answered. rewrite run_try_catch, run_bind. fold out. rewrite Hout. reflexivity.
    + assert (Hresult : ∀ orgs, result orgs = VNull
                                ∨ ∃ name, result orgs = VObj [(lit "name", name)]).
      { intros orgs. subst result. cbv beta.
        destruct (truthy orgs); [|left; reflexivity].
        destruct (get_length orgs) as [len|]; [|left; reflexivity].
        destruct (gt_num len 0); [|left; reflexivity].
        destruct (get_index orgs 0) as [first|]; [|left; reflexivity].
        destruct (get_prop first "name") as [name|]; [|left; reflexivity].
        right. exists name. reflexivity. }
      destruct reply as [r|e]; [|left; reflexivity].
      destruct (ok r); [|left; reflexivity].
      destruct (json r) as [orgs|e]; [apply Hresult|left; reflexivity].
  - split; [|split; [|split]].
    + intros r first rest Hreply Hok Hjson. rewrite Hout, Hreply, Hok, Hjson.
      subst result. cbn [truthy get_length snd length].
      change 0%Q with (inject_Z (Z.of_nat 0)). rewrite gt_num_of_nat. reflexivity.
    + intros r Hreply Hok Hjson. rewrite Hout, Hreply, Hok, Hjson.
      subst result. cbn [truthy get_length snd length].
      change 0%Q with (inject_Z (Z.of_nat 0)). rewrite gt_num_of_nat. reflexivity.
    + intros r Hreply Hok. rewrite Hout, Hreply, Hok. reflexivity.
    + intros e Hreply. rewrite Hout, Hreply. reflexivity.
Qed.

End QueryFacts.

(** The theorem at a service whose list of organizations is empty:
    logged in, and no organization to ask with. *)
Lemma checkLoginStatus_answers_witness :
  snd (Background.run Spec.no_organizations
         checkLoginStatus (initial VNull))
  = Ok true
  ∧ snd (Background.run Spec.no_organizations
           (askClaude (H := Spec.example_runtime) (lit "Summary") VUndefined VUndefined)
           (initial VNull))
    = Raise (Error (lit "No organizations found")).
Proof.
  refine (proj2 (proj2 (checkLoginStatus_answers (H := Spec.example_runtime)
                          Spec.no_organizations (initial VNull)))
            (Spec.ok_response (VArr [])) (lit "Summary") VUndefined VUndefined _ _ _ _);
    reflexivity.
Defined.

(** The theorem at a service with one organization. *)
Lemma getUserInfo_answers_witness :
  let orgs := VArr [VObj [(lit "uuid", VStr (lit "org-1")); (lit "name", VStr (lit "Ada"))]] in
  let env := answering (fun _ _ => Spec.ok_response orgs) Spec.example_uuid Spec.example_date in
  snd (Background.run env (getUserInfo (H := Spec.example_runtime)) (initial VNull))
  = Ok (VObj [(lit "name", VStr (lit "Ada"))]).
Proof.
  intros orgs env.
  refine (proj1 (proj2 (proj2 (getUserInfo_answers (H := Spec.example_runtime)
                                 env (initial VNull))))
            (Spec.ok_response orgs)
            [(lit "uuid", VStr (lit "org-1")); (lit "name", VStr (lit "Ada"))] [] _ _ _);
    reflexivity.
Defined.

(** ** The addresses of the requests *)

(** A replacement text without a dollar sign stands for itself. *)
Lemma get_substitution_plain (before matched after rep : jsstring) :
  36%N ∉ rep → get_substitution before matched after rep = rep.
Proof.
  induction rep as [|c rep IH]; intros Hrep; [reflexivity|].
  cbn [get_substitution].
  destruct (N.eqb_spec c 36) as [->|Hne]; [exfalso; apply Hrep; left|].
  rewrite IH; [reflexivity|]. intros Hin. apply Hrep. right. exact Hin.
Qed.

(** Replacing a placeholder that starts with a brace, in a template that
    has no other brace before it, by a text without a dollar sign. *)
Lemma replace_first_placeholder (t pre rest rep : jsstring) :
  123%N ∉ t → 123%N ∉ pre → 36%N ∉ rep →
  replace_first (123%N :: t) rep (pre ++ (123%N :: t) ++ rest) = pre ++ rep ++ rest.
Proof.
  intros Ht Hpre Hrep. unfold replace_first.
  rewrite index_of_after_prefix; [|exact Ht|apply index_of_absent, Hpre].
  cbv zeta. rewrite take_app_length, get_substitution_plain by exact Hrep.
  rewrite drop_app_add'; [|reflexivity].
  rewrite drop_app_length. reflexivity.
Qed.

Section Addresses.
Context `{JsRuntime}.

(** For an organization id without [$] or [{] and a conversation id
    without [$], the four requests go to the addresses of [CLAUDE_API]
    with the ids in the places of [{orgId}] and [{chatId}]. *)
Theorem requests_go_to_the_api (org id : jsstring) projId name uuid prompt attachments :
  36%N ∉ org → 123%N ∉ org → 36%N ∉ id →
  url (projects_request (VStr org))
  = lit "https://claude.ai/api/organizations/" ++ org ++ lit "/projects"
  ∧ url (create_request (VStr org) projId name uuid)
    = lit "https://claude.ai/api/organizations/" ++ org ++ lit "/chat_conversations"
  ∧ url (send_request (VStr org) id prompt attachments)
    = lit "https://claude.ai/api/organizations/" ++ org ++ lit "/chat_conversations/"
      ++ id ++ lit "/completion"
  ∧ url (transcript_request (VStr org) id)
    = lit "https://claude.ai/api/organizations/" ++ org ++ lit "/chat_conversations/"
      ++ id ++ lit "?tree=True&rendering_mode=messages".
Proof.
  intros Horg Hbrace Hid.
  assert (Hpre : 123%N ∉ lit "/api/organizations/") by compute_done.
  assert (Hname : 123%N ∉ lit "orgId}") by compute_done.
  assert (Hchat : 123%N ∉ lit "chatId}") by compute_done.
  assert (Hfirst : ∀ rest,
            replace_first (lit "{orgId}") org (lit "/api/organizations/" ++ lit "{orgId}" ++ rest)
            = lit "/api/organizations/" ++ org ++ rest).
  { intros rest. change (lit "{orgId}") with (123%N :: lit "orgId}").
    apply replace_first_placeholder; assumption. }
  assert (Hsecond : ∀ rest,
            replace_first (lit "{chatId}") id
              (lit "/api/organizations/" ++ org ++ lit "/chat_conversations/"
               ++ lit "{chatId}" ++ rest)
            = lit "/api/organizations/" ++ org ++ lit "/chat_conversations/" ++ id ++ rest).
  { intros rest. change (lit "{chatId}") with (123%N :: lit "chatId}").
    rewrite !app_assoc. rewrite <- (app_assoc _ (123%N :: lit "chatId}") rest).
    rewrite replace_first_placeholder; [rewrite <- !app_assoc; reflexivity|exact Hchat| |exact Hid].
    intros Hin. apply elem_of_app in Hin as [Hin|Hin]; [|revert Hin; compute_done].
    apply elem_of_app in Hin as [Hin|Hin]; [exact (Hpre Hin)|exact (Hbrace Hin)]. }
  unfold projects_request, create_request, send_request, transcript_request.
  cbn [url ToString].
  change PROJECTS with (lit "/api/organizations/" ++ lit "{orgId}" ++ lit "/projects").
  change CHAT_LIST with (lit "/api/organizations/" ++ lit "{orgId}" ++ lit "/chat_conversations").
  change (replace_first (lit "undefined") (lit "undefined") SEND_MESSAGE)
    with (lit "/api/organizations/" ++ lit "{orgId}"
          ++ lit "/chat_conversations/" ++ lit "{chatId}" ++ lit "/completion").
  change CHAT with (lit "/api/organizations/" ++ lit "{orgId}"
                    ++ lit "/chat_conversations/" ++ lit "{chatId}"
                    ++ lit "?tree=True&rendering_mode=messages").
  rewrite !Hfirst, !Hsecond.
  change BASE_URL with (lit "https://claude.ai").
  change (lit "https://claude.ai/api/organizations/")
    with (lit "https://claude.ai" ++ lit "/api/organizations/").
  rewrite <- !app_assoc. repeat split; reflexivity.
Qed.

End Addresses.

(** The theorem at the ids of the examples. *)
Lemma requests_go_to_the_api_witness :
  url (transcript_request (H := Spec.example_runtime) (VStr (lit "org-1")) (lit "uuid-0"))
  = lit "https://claude.ai/api/organizations/" ++ lit "org-1" ++ lit "/chat_conversations/"
    ++ lit "uuid-0" ++ lit "?tree=True&rendering_mode=messages".
Proof.
  refine (proj2 (proj2 (proj2
    (requests_go_to_the_api (H := Spec.example_runtime) (lit "org-1") (lit "uuid-0")
       VUndefined VUndefined [] [] [] _ _ _))));
    apply (bool_decide_unpack _); vm_compute; exact I.
Defined.

(** An id is a replacement text for [String.prototype.replace]: a dollar
    sign in it is read as a pattern. *)
Example dollar_in_organization_id :
  url (projects_request (H := Spec.example_runtime) (VStr (lit "a$&b")))
  = lit "https://claude.ai/api/organizations/a{orgId}b/projects".
Proof. vm_compute. reflexivity. Qed.

(** ** Requests that the network fails *)

Section Rejections.
Context `{JsRuntime}.

Lemma gives_up_weaken {A} (n m : nat) (p : bprog A) :
  n ≤ m → Spec.gives_up_on_rejection n p → Spec.gives_up_on_rejection m p.
Proof.
  intros Hnm Hp env st Hinv. destruct (Hp env st Hinv) as (Hinv1 & (new & Hnew & Hlen) & Hcond).
  split; [exact Hinv1|]. split; [|exact Hcond].
  exists new. split; [exact Hnew|lia].
Qed.

Lemma gives_up_ret {A} (a : A) : Spec.gives_up_on_rejection 0 (Ret a : bprog A).
Proof.
  intros env st Hinv. cbn. split; [exact Hinv|]. split.
  - exists []. rewrite app_nil_r. split; [reflexivity|cbn; lia].
  - intros k rq e Hk Hrq. apply lookup_lt_Some in Hrq. lia.
Qed.

Lemma gives_up_throw {A} (e : jserror) : Spec.gives_up_on_rejection 0 (Throw e : bprog A).
Proof.
  intros env st Hinv. cbn. split; [exact Hinv|]. split.
  - exists []. rewrite app_nil_r. split; [reflexivity|cbn; lia].
  - intros k rq e' Hk Hrq. apply lookup_lt_Some in Hrq. lia.
Qed.

Lemma gives_up_of_res {A} (r : res A) : Spec.gives_up_on_rejection 0 (of_res r : bprog A).
Proof. destruct r; [apply gives_up_ret|apply gives_up_throw]. Qed.

Lemma gives_up_bind {A B} (n m : nat) (p : bprog A) (f : A → bprog B) :
  Spec.gives_up_on_rejection n p → (∀ a, Spec.gives_up_on_rejection m (f a)) →
  Spec.gives_up_on_rejection (n + m) (p ≫= f).
Proof.
  intros Hp Hf env st Hinv. cbv zeta. rewrite run_bind.
  specialize (Hp env st Hinv). cbv zeta in Hp.
  destruct (Background.run env p st) as [st1 [a|e]]; cbn [fst snd] in *.
  2:{ destruct Hp as (Hinv1 & (new1 & Hnew1 & Hlen1) & Hcond1). split; [exact Hinv1|].
      split; [exists new1; split; [exact Hnew1|lia]|].
      intros k rq e' Hk Hrq Hreply.
      destruct (Hcond1 k rq e' Hk Hrq Hreply) as [Hlast Hraise].
      split; [exact Hlast|congruence]. }
  destruct Hp as (Hinv1 & (new1 & Hnew1 & Hlen1) & Hcond1).
  specialize (Hf a env st1 Hinv1). cbv zeta in Hf.
  destruct (Background.run env (f a) st1) as [st2 r2]; cbn [fst snd] in *.
  destruct Hf as (Hinv2 & (new2 & Hnew2 & Hlen2) & Hcond2).
  split; [exact Hinv2|]. split.
  - exists (new1 ++ new2). rewrite Hnew2, Hnew1, app_assoc, length_app.
    split; [reflexivity|lia].
  - intros k rq e Hk Hrq Hreply.
    destruct (Nat.lt_ge_cases k (fetches st1)) as [Hlt|Hge].
    + rewrite Hnew2, lookup_app_l in Hrq by lia.
      destruct (Hcond1 k rq e Hk Hrq Hreply) as [_ Hraise]. discriminate.
    + apply (Hcond2 k rq e Hge Hrq Hreply).
Qed.

Lemma gives_up_perform (ev : bevent) :
  is_fetch ev = None → Spec.gives_up_on_rejection 0 (perform ev).
Proof.
  intros Hev env st Hinv.
  assert (Hsame : ∀ st', fetches st' = fetches st →
            requests (trace st') = requests (trace st) →
            ∀ r : breply ev,
            let outcome := (st', Ok r) in
            length (requests (trace (fst outcome))) = fetches (fst outcome)
            ∧ (∃ new, requests (trace (fst outcome)) = requests (trace st) ++ new
                      ∧ length new ≤ 0)
            ∧ ∀ k rq e,
                fetches st ≤ k →
                requests (trace (fst outcome)) !! k = Some rq →
                fetch_reply env k rq = Rejected e →
                fetches (fst outcome) = S k ∧ snd outcome = Raise e).
  { intros st' Hf Ht r. cbn [fst snd]. rewrite Hf, Ht. split; [exact Hinv|]. split.
    - exists []. rewrite app_nil_r. split; [reflexivity|cbn; lia].
    - intros k rq e Hk Hrq. apply lookup_lt_Some in Hrq. lia. }
  destruct ev; try discriminate; cbn [perform Background.run]; apply Hsame;
    try reflexivity; cbn [trace after_sleep after_uuid after_date after_write];
    rewrite ?requests_app, ?app_nil_r; reflexivity.
Qed.

(** [fetch], then whatever the script does with the response. *)
Lemma gives_up_fetch {A} (n : nat) (rq : http_request) (rest : http_response → bprog A) :
  (∀ response, Spec.gives_up_on_rejection n (rest response)) →
  Spec.gives_up_on_rejection (S n) (response ← fetch rq; rest response).
Proof.
  intros Hrest env st Hinv. cbv zeta. rewrite run_bind, run_fetch.
  assert (Hlen : length (requests (trace (after_fetch rq st))) = S (fetches st)).
  { cbn [after_fetch trace]. rewrite requests_app, length_app, Hinv. cbn. lia. }
  assert (Hat : ∀ k rq', fetches st ≤ k → k < S (fetches st) →
                  requests (trace (after_fetch rq st)) !! k = Some rq' →
                  k = fetches st ∧ rq' = rq).
  { intros k rq' Hk Hlt Hrq. assert (k = fetches st) as -> by lia. split; [reflexivity|].
    cbn [after_fetch trace] in Hrq. rewrite requests_app in Hrq.
    rewrite lookup_app_r, Hinv, Nat.sub_diag in Hrq by lia.
    cbn in Hrq. congruence. }
  destruct (fetch_reply env (fetches st) rq) as [r|e] eqn:Hreply.
  - specialize (Hrest r env (after_fetch rq st)).
    cbv zeta in Hrest. rewrite Hlen in Hrest. specialize (Hrest eq_refl).
    destruct (Background.run env (rest r) (after_fetch rq st)) as [st2 r2];
      cbn [fst snd] in *.
    destruct Hrest as (Hinv2 & (new2 & Hnew2 & Hlen2) & Hcond2).
    split; [exact Hinv2|]. split.
    + exists ([rq] ++ new2). rewrite Hnew2. cbn [after_fetch trace].
      rewrite requests_app, <- app_assoc. split; [reflexivity|cbn; lia].
    + intros k rq' e Hk Hrq Hr.
      destruct (Nat.lt_ge_cases k (S (fetches st))) as [Hlt|Hge].
      * rewrite Hnew2, lookup_app_l in Hrq by lia.
        destruct (Hat k rq' Hk Hlt Hrq) as [-> ->]. congruence.
      * apply (Hcond2 k rq' e Hge Hrq Hr).
  - cbn [fst snd]. split; [exact Hlen|]. split.
    + exists [rq]. cbn [after_fetch trace]. split; [apply requests_app|cbn; lia].
    + intros k rq' e' Hk Hrq Hr.
      assert (Hlt : k < S (fetches st)).
      { apply lookup_lt_Some in Hrq. lia. }
      destruct (Hat k rq' Hk Hlt Hrq) as [-> ->].
      rewrite Hreply in Hr. injection Hr as <-. split; reflexivity.
Qed.

Lemma gives_up_rethrow {A} (n : nat) (p : bprog A) :
  Spec.gives_up_on_rejection n p →
  Spec.gives_up_on_rejection n (try_catch p (fun error => Throw error)).
Proof. intros Hp env st Hinv. cbv zeta. rewrite run_rethrow. apply Hp, Hinv. Qed.

Ltac gives_up_event :=
  lazymatch goal with
  | |- Spec.gives_up_on_rejection 0 (perform ?ev) => exact (gives_up_perform ev eq_refl)
  end.

Lemma gives_up_fetchOrganizations : Spec.gives_up_on_rejection 1 fetchOrganizations.
Proof.
  apply gives_up_fetch. intros response.
  destruct (negb (ok response)); [apply gives_up_throw|apply gives_up_of_res].
Qed.

Lemma gives_up_name_or_default (name : jsval) :
  Spec.gives_up_on_rejection 0 (name_or_default name).
Proof.
  unfold name_or_default. destruct (truthy name); [apply gives_up_ret|].
  apply (gives_up_bind 0 0); [gives_up_event|]. intros d. apply gives_up_ret.
Qed.

Lemma gives_up_createConversation (orgId projId name : jsval) :
  Spec.gives_up_on_rejection 1 (createConversation orgId projId name).
Proof.
  unfold createConversation.
  apply (gives_up_bind 0 1); [apply gives_up_name_or_default|]. intros conversationName.
  apply (gives_up_bind 0 1); [gives_up_event|]. intros uuid.
  apply gives_up_fetch. intros response.
  destruct (negb (ok response)); [apply gives_up_throw|].
  apply (gives_up_bind 0 0); [apply gives_up_of_res|]. intros _. apply gives_up_ret.
Qed.

Lemma gives_up_sendMessage (orgId : jsval) (conversationId message : jsstring) :
  Spec.gives_up_on_rejection 1 (sendMessage orgId conversationId message).
Proof.
  unfold sendMessage, prepare_message.
  apply (gives_up_bind 0 1).
  - destruct (marker message); [|apply gives_up_ret].
    apply (gives_up_bind 0 0); [gives_up_event|]. intros file_id. apply gives_up_ret.
  - intros prepared. apply gives_up_fetch. intros response.
    destruct (negb (ok response)); [apply gives_up_throw|apply gives_up_of_res].
Qed.

Lemma gives_up_ensure_organization : Spec.gives_up_on_rejection 1 ensure_organization.
Proof.
  unfold ensure_organization.
  apply (gives_up_bind 0 1); [gives_up_event|]. intros currentOrgId.
  destruct (negb (truthy currentOrgId)); [|apply (gives_up_weaken 0 1); [lia|apply gives_up_ret]].
  apply (gives_up_bind 1 0); [apply gives_up_fetchOrganizations|]. intros orgs.
  apply (gives_up_bind 0 0).
  - destruct (truthy orgs); [|apply gives_up_ret].
    apply (gives_up_bind 0 0); [apply gives_up_of_res|]. intros len. apply gives_up_ret.
  - intros [|]; [|apply gives_up_throw].
    apply (gives_up_bind 0 0); [apply gives_up_of_res|]. intros first.
    apply (gives_up_bind 0 0); [apply gives_up_of_res|]. intros uuid.
    apply (gives_up_bind 0 0); [gives_up_event|]. intros _. apply gives_up_ret.
Qed.

(** [askClaude] once the organization is known. *)
Lemma gives_up_after_organization
    (question : jsstring) (projectId conversationTitle : jsval) :
  Spec.gives_up_on_rejection 3
    (conversationName ← name_or_default conversationTitle;
     currentOrgId ← perform ReadOrgId;
     conversationId ← createConversation currentOrgId projectId conversationName;
     currentOrgId ← perform ReadOrgId;
     _ ← sendMessage currentOrgId conversationId question;
     _ ← perform (Sleep 5000);
     currentOrgId ← perform ReadOrgId;
     chatResponseRaw ← fetch (transcript_request currentOrgId conversationId);
     if negb (ok chatResponseRaw)
     then Throw (Error (lit "Failed to retrieve messages: " ++ decimal (status chatResponseRaw)))
     else
       chatResponse ← of_res (json chatResponseRaw);
       let chatUrl := BASE_URL ++ lit "/chat/" ++ conversationId in
       answer ← of_res (extractAnswer chatResponse);
       Ret {| answer := answer; conversationId := conversationId;
              chatUrl := chatUrl; newConversationCreated := true |}).

Proof.
  apply (gives_up_bind 0 3); [apply gives_up_name_or_default|]. intros conversationName.
  apply (gives_up_bind 0 3); [gives_up_event|]. intros org1.
  apply (gives_up_bind 1 2); [apply gives_up_createConversation|]. intros conversationId.
  apply (gives_up_bind 0 2); [gives_up_event|]. intros org2.
  apply (gives_up_bind 1 1); [apply gives_up_sendMessage|]. intros _.
  apply (gives_up_bind 0 1); [gives_up_event|]. intros _.
  apply (gives_up_bind 0 1); [gives_up_event|]. intros org3.
  apply gives_up_fetch. intros chatResponseRaw.
  destruct (negb (ok chatResponseRaw)); [apply gives_up_throw|].
  apply (gives_up_bind 0 0); [apply gives_up_of_res|]. intros chatResponse.
  apply (gives_up_bind 0 0); [apply gives_up_of_res|]. intros answer. apply gives_up_ret.
Qed.

(** [askClaude] sends at most four requests, three when the organization
    is stored, and tries none of them again: a request that the network
    fails is the last one, [askClaude] rejects with the error of that
    request, and the listener never calls [sendResponse]. *)
Theorem askClaude_gives_up env question projectId title stored :
  let out := Background.run env (askClaude question projectId title) (initial stored) in
  let sent := requests (trace (fst out)) in
  length sent ≤ 4
  ∧ (truthy stored = true → length sent ≤ 3)
  ∧ (∀ k rq e, sent !! k = Some rq → fetch_reply env k rq = Rejected e →
       length sent = S k
       ∧ snd out = Raise e
       ∧ snd (Background.run env (onMessage_askClaude question projectId title)
                (initial stored)) = Ok None).
Proof.
  intros out sent.
  assert (Hall : Spec.gives_up_on_rejection 4 (askClaude question projectId title)).
  { unfold askClaude. apply gives_up_rethrow.
    apply (gives_up_bind 1 3); [apply gives_up_ensure_organization|]. intros _.
    apply gives_up_after_organization. }
  destruct (Hall env (initial stored) eq_refl) as (Hinv & (new & Hnew & Hlen) & Hcond).
  fold out in Hinv, Hnew, Hcond. fold sent in Hinv, Hnew.
  cbn [initial trace requests omap app] in Hnew.
  split; [rewrite Hnew; exact Hlen|]. split.
  - intros Hstored. subst sent out. unfold askClaude.
    rewrite run_rethrow, run_bind.
    assert (Hknown : Background.run env ensure_organization (initial stored)
                     = (initial stored, Ok tt)).
    { unfold ensure_organization.
      cbn [Background.run mbind prog_bind bind perform initial currentOrgId].
      rewrite Hstored. reflexivity. }
    rewrite Hknown.
    pose proof (gives_up_after_organization question projectId title env (initial stored)
                  eq_refl) as Hrest.
    destruct Hrest as (_ & (new' & Hnew' & Hlen') & _).
    etransitivity; [|exact Hlen'].
    apply Nat.eq_le_incl, (f_equal length). exact Hnew'.
  - intros k rq e Hrq Hreply.
    destruct (Hcond k rq e (Nat.le_0_l k) Hrq Hreply) as [Hlast Hraise].
    split; [rewrite Hinv; exact Hlast|]. split; [exact Hraise|].
    unfold onMessage_askClaude. rewrite run_try_catch, run_bind.
    fold out. destruct out as [st r]. cbn [snd] in Hraise. subst r. reflexivity.
Qed.

End Rejections.

(** The theorem at a service that cannot be reached: one request, and
    its error as the rejection. *)
Lemma askClaude_gives_up_witness :
  let out := Background.run Spec.offline
               (askClaude (H := Spec.example_runtime) (lit "Summary") VUndefined VUndefined)
               (initial (VStr (lit "org-1"))) in
  length (requests (trace (fst out))) = 1
  ∧ snd out = Raise (TypeError (lit "Failed to fetch"))
  ∧ snd (Background.run Spec.offline
           (onMessage_askClaude (H := Spec.example_runtime) (lit "Summary") VUndefined VUndefined)
           (initial (VStr (lit "org-1")))) = Ok None.
Proof.
  intros out.
  refine (proj2 (proj2 (askClaude_gives_up (H := Spec.example_runtime) Spec.offline
                          (lit "Summary") VUndefined VUndefined (VStr (lit "org-1"))))
            0
            (create_request (H := Spec.example_runtime) (VStr (lit "org-1")) VUndefined
               (VStr (lit "Form Assistant - " ++ Spec.example_date 0)) (Spec.example_uuid 0))
            (TypeError (lit "Failed to fetch")) _ _); reflexivity.
Defined.

(** ** The stored organization *)

Section Organization.
Context `{JsRuntime}.

Lemma keeps_ret {A} (a : A) : Spec.keeps_organization (Ret a : bprog A).
Proof. intros env st. reflexivity. Qed.

Lemma keeps_throw {A} (e : jserror) : Spec.keeps_organization (Throw e : bprog A).
Proof. intros env st. reflexivity. Qed.

Lemma keeps_of_res {A} (r : res A) : Spec.keeps_organization (of_res r : bprog A).
Proof. destruct r; [apply keeps_ret|apply keeps_throw]. Qed.

Lemma keeps_bind {A B} (p : bprog A) (f : A → bprog B) :
  Spec.keeps_organization p → (∀ a, Spec.keeps_organization (f a)) →
  Spec.keeps_organization (p ≫= f).
Proof.
  intros Hp Hf env st. rewrite run_bind. specialize (Hp env st).
  destruct (Background.run env p st) as [st1 [a|e]]; cbn [fst] in *; [|exact Hp].
  rewrite (Hf a env st1). exact Hp.
Qed.

Lemma keeps_perform (ev : bevent) :
  (∀ v, ev ≠ WriteOrgId v) → Spec.keeps_organization (perform ev).
Proof.
  intros Hev env st. destruct ev; try reflexivity. exfalso. exact (Hev v eq_refl).
Qed.

Lemma keeps_fetch (rq : http_request) : Spec.keeps_organization (fetch rq).
Proof. intros env st. rewrite run_fetch. reflexivity. Qed.

Lemma keeps_rethrow {A} (p : bprog A) :
  Spec.keeps_organization p →
  Spec.keeps_organization (try_catch p (fun error => Throw error)).
Proof. intros Hp env st. rewrite run_rethrow. apply Hp. Qed.

Ltac keeps_event :=
  lazymatch goal with
  | |- Spec.keeps_organization (perform ?ev) =>
      exact (keeps_perform ev ltac:(intros v; discriminate))
  end.

Lemma keeps_name_or_default (name : jsval) : Spec.keeps_organization (name_or_default name).
Proof.
  unfold name_or_default. destruct (truthy name); [apply keeps_ret|].
  apply keeps_bind; [keeps_event|]. intros d. apply keeps_ret.
Qed.

Lemma keeps_createConversation (orgId projId name : jsval) :
  Spec.keeps_organization (createConversation orgId projId name).
Proof.
  unfold createConversation.
  apply keeps_bind; [apply keeps_name_or_default|]. intros conversationName.
  apply keeps_bind; [keeps_event|]. intros uuid.
  apply keeps_bind; [apply keeps_fetch|]. intros response.
  destruct (negb (ok response)); [apply keeps_throw|].
  apply keeps_bind; [apply keeps_of_res|]. intros _. apply keeps_ret.
Qed.

Lemma keeps_sendMessage (orgId : jsval) (conversationId message : jsstring) :
  Spec.keeps_organization (sendMessage orgId conversationId message).
Proof.
  unfold sendMessage, prepare_message.
  apply keeps_bind.
  - destruct (marker message); [|apply keeps_ret].
    apply keeps_bind; [keeps_event|]. intros file_id. apply keeps_ret.
  - intros prepared. apply keeps_bind; [apply keeps_fetch|]. intros response.
    destruct (negb (ok response)); [apply keeps_throw|apply keeps_of_res].
Qed.

(** [askClaude] once the organization is known. *)
Lemma keeps_after_organization
    (question : jsstring) (projectId conversationTitle : jsval) :
  Spec.keeps_organization
    (conversationName ← name_or_default conversationTitle;
     currentOrgId ← perform ReadOrgId;
     conversationId ← createConversation currentOrgId projectId conversationName;
     currentOrgId ← perform ReadOrgId;
     _ ← sendMessage currentOrgId conversationId question;
     _ ← perform (Sleep 5000);
     currentOrgId ← perform ReadOrgId;
     chatResponseRaw ← fetch (transcript_request currentOrgId conversationId);
     if negb (ok chatResponseRaw)
     then Throw (Error (lit "Failed to retrieve messages: " ++ decimal (status chatResponseRaw)))
     else
       chatResponse ← of_res (json chatResponseRaw);
       let chatUrl := BASE_URL ++ lit "/chat/" ++ conversationId in
       answer ← of_res (extractAnswer chatResponse);
       Ret {| answer := answer; conversationId := conversationId;
              chatUrl := chatUrl; newConversationCreated := true |}).
Proof.
  apply keeps_bind; [apply keeps_name_or_default|]. intros conversationName.
  apply keeps_bind; [keeps_event|]. intros org1.
  apply keeps_bind; [apply keeps_createConversation|]. intros conversationId.
  apply keeps_bind; [keeps_event|]. intros org2.
  apply keeps_bind; [apply keeps_sendMessage|]. intros _.
  apply keeps_bind; [keeps_event|]. intros _.
  apply keeps_bind; [keeps_event|]. intros org3.
  apply keeps_bind; [apply keeps_fetch|]. intros chatResponseRaw.
  destruct (negb (ok chatResponseRaw)); [apply keeps_throw|].
  apply keeps_bind; [apply keeps_of_res|]. intros chatResponse.
  apply keeps_bind; [apply keeps_of_res|]. intros answer. apply keeps_ret.
Qed.

(** With an organization stored, [askClaude] is what follows the lookup. *)
Lemma run_askClaude_known env question projectId title st :
  truthy (currentOrgId st) = true →
  currentOrgId (fst (Background.run env (askClaude question projectId title) st))
  = currentOrgId st
  ∧ (length (requests (trace st)) = fetches st →
     length (requests (trace (fst (Background.run env (askClaude question projectId title) st))))
     ≤ length (requests (trace st)) + 3).
Proof.
  intros Hstored. unfold askClaude. rewrite run_rethrow, run_bind.
  assert (Hknown : Background.run env ensure_organization st = (st, Ok tt)).
  { unfold ensure_organization.
    cbn [Background.run mbind prog_bind bind perform]. rewrite Hstored. reflexivity. }
  rewrite Hknown. split.
  - exact (keeps_after_organization question projectId title env st).
  - intros Hinv.
    pose proof (gives_up_after_organization question projectId title env st Hinv) as Hrest.
    destruct Hrest as (_ & (new & Hnew & Hlen) & _).
    etransitivity; [apply Nat.eq_le_incl, (f_equal length); exact Hnew|].
    rewrite length_app. lia.
Qed.

(** The first question looks the organization up and stores the id of
    the first organization of the list, whatever becomes of the question;
    the next question keeps that id and goes without the lookup: it sends
    at most three requests. *)
Theorem askClaude_remembers_organization env stored r props rest
    question projectId title question' projectId' title' :
  truthy stored = false →
  fetch_reply env 0 organizations_request = Resolved r →
  ok r = true →
  json r = Ok (VArr (VObj props :: rest)) →
  truthy (lookup_prop (lit "uuid") props) = true →
  let first := Background.run env (askClaude question projectId title) (initial stored) in
  let second := Background.run env (askClaude question' projectId' title') (fst first) in
  requests (trace (fst first)) !! 0 = Some organizations_request
  ∧ currentOrgId (fst first) = lookup_prop (lit "uuid") props
  ∧ currentOrgId (fst second) = lookup_prop (lit "uuid") props
  ∧ length (requests (trace (fst second))) ≤ length (requests (trace (fst first))) + 3.
Proof.
  intros Hstored Hreply Hok Hjson Huuid first second.
  set (known := after_write (lookup_prop (lit "uuid") props)
                  (after_fetch organizations_request (initial stored))).
  assert (Hlookup : Background.run env ensure_organization (initial stored) = (known, Ok tt)).
  { unfold ensure_organization.
    cbn [Background.run mbind prog_bind bind perform initial currentOrgId].
    rewrite Hstored. cbn [negb].
    rewrite run_bind, run_fetchOrganizations.
    change (fetches (initial stored)) with 0. rewrite Hreply, Hok, Hjson.
    cbn [truthy]. rewrite !run_bind, run_of_res.
    cbn [get_length Background.run length].
    change 0%Q with (inject_Z (Z.of_nat 0)). rewrite gt_num_of_nat.
    reflexivity. }
  assert (Hfirst : first = Background.run env
            (conversationName ← name_or_default title;
             currentOrgId ← perform ReadOrgId;
             conversationId ← createConversation currentOrgId projectId conversationName;
             currentOrgId ← perform ReadOrgId;
             _ ← sendMessage currentOrgId conversationId question;
             _ ← perform (Sleep 5000);
             currentOrgId ← perform ReadOrgId;
             chatResponseRaw ← fetch (transcript_request currentOrgId conversationId);
             if negb (ok chatResponseRaw)
             then Throw (Error (lit "Failed to retrieve messages: "
                                ++ decimal (status chatResponseRaw)))
             else
               chatResponse ← of_res (json chatResponseRaw);
               let chatUrl := BASE_URL ++ lit "/chat/" ++ conversationId in
               answer ← of_res (extractAnswer chatResponse);
               Ret {| answer := answer; conversationId := conversationId;
                      chatUrl := chatUrl; newConversationCreated := true |}) known).
  { subst first. unfold askClaude. rewrite run_rethrow, run_bind, Hlookup. reflexivity. }
  pose proof (gives_up_after_organization question projectId title env known eq_refl)
    as Hrest.
  destruct Hrest as (Hinv & (new & Hnew & _) & _).
  rewrite <- Hfirst in Hinv, Hnew.
  assert (Horg : currentOrgId (fst first) = lookup_prop (lit "uuid") props).
  { rewrite Hfirst. exact (keeps_after_organization question projectId title env known). }
  assert (Htruthy : truthy (currentOrgId (fst first)) = true) by (rewrite Horg; exact Huuid).
  destruct (run_askClaude_known env question' projectId' title' (fst first) Htruthy)
    as [Hkept Hbound].
  fold second in Hkept, Hbound.
  split; [rewrite Hnew; reflexivity|]. split; [exact Horg|].
  split; [rewrite Hkept; exact Horg|]. apply Hbound. exact Hinv.
Qed.

End Organization.

(** The theorem at a service with one organization: two questions, and
    one lookup. *)
Lemma askClaude_remembers_organization_witness :
  let first := Background.run Spec.one_organization
                 (askClaude (H := Spec.example_runtime) (lit "Summary") VUndefined VUndefined)
                 (initial VNull) in
  let second := Background.run Spec.one_organization
                  (askClaude (H := Spec.example_runtime) (lit "Name") VUndefined VUndefined)
                  (fst first) in
  requests (trace (fst first)) !! 0 = Some organizations_request
  ∧ currentOrgId (fst first) = VStr (lit "org-1")
  ∧ currentOrgId (fst second) = VStr (lit "org-1")
  ∧ length (requests (trace (fst second))) ≤ length (requests (trace (fst first))) + 3.
Proof.
  refine (askClaude_remembers_organization (H := Spec.example_runtime)
            Spec.one_organization VNull
            (Spec.ok_response (VArr [VObj [(lit "uuid", VStr (lit "org-1"));
                                           (lit "name", VStr (lit "Ada"))]]))
            [(lit "uuid", VStr (lit "org-1")); (lit "name", VStr (lit "Ada"))] []
            (lit "Summary") VUndefined VUndefined (lit "Name") VUndefined VUndefined
            _ _ _ _ _); reflexivity.
Defined.

Example two_questions_one_lookup :
  let first := Background.run Spec.one_organization
                 (askClaude (H := Spec.example_runtime) (lit "Summary") VUndefined VUndefined)
                 (initial VNull) in
  let second := Background.run Spec.one_organization
                  (askClaude (H := Spec.example_runtime) (lit "Name") VUndefined VUndefined)
                  (fst first) in
  length (requests (trace (fst first))) = 4
  ∧ length (requests (trace (fst second))) = 7.
Proof. vm_compute. split; reflexivity. Qed.

(** ** The field that receives the answer *)

Section Arrival.
Context `{JsRuntime}.

(** The second script writes the answer into the element that is active
    when the answer arrives, whichever element was active when the
    question was asked, and no other field changes. The message it sent
    carries the question as it is, and no title. *)
Theorem plain_answer_goes_to_active_field env c settings (question : jsstring)
    (r : Background.ask_result) (h : handle) (f : field) :
  let m := askClaude_message question (defaultProject settings) VUndefined in
  let later := interfere env (awaits c) (now c) in
  let written := insert_now (elem f) (state f) (Background.answer r) in
  oracle env (awaits c) (RuntimeSendMessage m) = Some (Ok (Some r)) →
  truthy (Background.answer r) = true →
  activeElement later = Some h →
  fields later !! h = Some f →
  let out := Session.run env (Plain.ask settings question) c in
  snd out = Finished (Ok tt)
  ∧ observed (fst out)
    = observed c ++ [Sent m; Wrote h written;
                     Notified (lit "Claude has filled the field successfully!")]
  ∧ fields (now (fst out)) !! h = Some (with_state f written)
  ∧ (∀ h', h' ≠ h → fields (now (fst out)) !! h' = fields later !! h').
Proof.
  intros m later written Hreply Hanswer Hactive Hfield out.
  set (c0 := resume env (RuntimeSendMessage m) c).
  assert (Hurl : ∃ c1,
            Session.run env
              ((if nonempty (Background.chatUrl r)
                then perform (WriteConversationUrl (Some (Background.chatUrl r)))
                else Ret tt) : cprog unit) c0
            = (c1, Finished (Ok tt))
            ∧ activeElement (now c1) = Some h
            ∧ fields (now c1) = fields later
            ∧ observed c1 = observed c ++ [Sent m]).
  { destruct (nonempty (Background.chatUrl r)).
    - eexists. split; [reflexivity|].
      cbn [now observed proceed observe c0 resume set_url activeElement fields].
      rewrite app_nil_r. split; [exact Hactive|]. split; reflexivity.
    - exists c0. split; [reflexivity|]. split; [exact Hactive|]. split; reflexivity. }
  destruct Hurl as (c1 & Hurl & Hact & Hfld & Hlog1).
  subst out. unfold Plain.ask. fold m.
  cbn [Session.run mbind prog_bind bind perform react]. rewrite Hreply.
  cbn [of_res mbind prog_bind bind]. fold c0.
  unfold Plain.handle_response. rewrite Hanswer.
  rewrite session_run_bind, Hurl.
  cbn [Session.run mbind prog_bind bind perform react now proceed].
  rewrite Hact. unfold Plain.insertTextIntoElement, the_field.
  cbn [Session.run mbind prog_bind bind perform react now proceed].
  rewrite Hfld, Hfield.
  cbn [Session.run mbind prog_bind bind perform react now proceed observe observed
       fst snd elem state].
  fold written.
  split; [reflexivity|]. split; [rewrite Hlog1, <- !app_assoc; reflexivity|].
  unfold update_state, set_fields. cbn [fields]. rewrite Hfld. split.
  - rewrite lookup_alter_eq, Hfield. reflexivity.
  - intros h' Hne. rewrite lookup_alter_ne by congruence. reflexivity.
Qed.

End Arrival.

(** The theorem at a page with two fields: the question is sent while
    the text area is active, the user moves on, and the name input gets
    the answer. *)
Lemma plain_answer_goes_to_active_field_witness :
  let env := Spec.focus_moves 0 (Some (Ok (Some Spec.example_answer))) in
  let settings := {| defaultProject := VUndefined; autoDetect := VBool true |} in
  let out := Session.run env
               (Plain.ask (H := Spec.example_runtime) settings (lit "Summary"))
               (start Spec.two_fields) in
  activeElement Spec.two_fields = Some 0
  ∧ (value ∘ state) <$> (fields (now (fst out)) !! 1) = Some (lit "This is a test.")
  ∧ (value ∘ state) <$> (fields (now (fst out)) !! 0) = Some [].
Proof.
  intros env settings out.
  destruct (plain_answer_goes_to_active_field (H := Spec.example_runtime) env
              (start Spec.two_fields) settings (lit "Summary") Spec.example_answer 1
              (Spec.attached Spec.name_input))
    as (_ & _ & Hwritten & Hothers); try reflexivity.
  split; [reflexivity|]. split.
  - exact (f_equal (fmap (value ∘ state)) Hwritten).
  - exact (f_equal (fmap (value ∘ state)) (Hothers 0 (Nat.neq_0_succ 0))).
Defined.

(** The whole handler on that page, the user moving on while the
    background works (the third wait, after the settings and the
    detection). *)
Example answer_follows_focus :
  let env := Spec.focus_moves 2 (Some (Ok (Some Spec.example_answer))) in
  let out := Session.run env (Plain.handleClaudeButtonClick (H := Spec.example_runtime))
               (start Spec.two_fields) in
  Spec.sent_messages (observed (fst out))
  = [askClaude_message (lit "Summary") VUndefined VUndefined]
  ∧ (value ∘ state) <$> (fields (now (fst out)) !! 0) = Some []
  ∧ (value ∘ state) <$> (fields (now (fst out)) !! 1) = Some (lit "This is a test.").
Proof. vm_compute. repeat split; reflexivity. Qed.

(** ** What one click can do *)

Section Counting.
Context {B : Type} (proj : effect → option B).

Lemma shows_weaken {A} (n m : nat) (p : cprog A) :
  n ≤ m → Spec.shows_at_most proj n p → Spec.shows_at_most proj m p.
Proof.
  revert n m. induction p as [a|e|ev k IH]; intros n m Hnm Hp; [exact I|exact I|].
  destruct Hp as [Hev Hk]. split; [lia|].
  intros r. apply (IH r (n - length (omap proj (observe ev)))); [lia|apply Hk].
Qed.

Lemma shows_bind {A C} (n m : nat) (p : cprog A) (f : A → cprog C) :
  Spec.shows_at_most proj n p → (∀ a, Spec.shows_at_most proj m (f a)) →
  Spec.shows_at_most proj (n + m) (p ≫= f).
Proof.
  intros Hp Hf. revert n Hp. induction p as [a|e|ev k IH]; intros n Hp.
  - apply (shows_weaken m); [lia|apply Hf].
  - exact I.
  - destruct Hp as [Hev Hk]. split; [lia|]. intros r.
    replace (n + m - length (omap proj (observe ev)))
      with (n - length (omap proj (observe ev)) + m) by lia.
    apply IH, Hk.
Qed.

Lemma shows_try_catch {A} (n m : nat) (p : cprog A) (h : jserror → cprog A) :
  Spec.shows_at_most proj n p → (∀ e, Spec.shows_at_most proj m (h e)) →
  Spec.shows_at_most proj (n + m) (try_catch p h).
Proof.
  intros Hp Hh. revert n Hp. induction p as [a|e|ev k IH]; intros n Hp.
  - exact I.
  - apply (shows_weaken m); [lia|apply Hh].
  - destruct Hp as [Hev Hk]. split; [lia|]. intros r.
    replace (n + m - length (omap proj (observe ev)))
      with (n - length (omap proj (observe ev)) + m) by lia.
    apply IH, Hk.
Qed.

Lemma shows_finally {A} (n m : nat) (p : cprog A) (q : cprog unit) :
  Spec.shows_at_most proj n p → Spec.shows_at_most proj m q →
  Spec.shows_at_most proj (n + m) (finally p q).
Proof.
  intros Hp Hq. revert n Hp. induction p as [a|e|ev k IH]; intros n Hp.
  - cbn [finally]. apply (shows_weaken (m + 0)); [lia|].
    apply (shows_bind m 0 q); [exact Hq|]. intros _. exact I.
  - cbn [finally]. apply (shows_weaken (m + 0)); [lia|].
    apply (shows_bind m 0 q); [exact Hq|]. intros _. exact I.
  - destruct Hp as [Hev Hk]. split; [lia|]. intros r.
    replace (n + m - length (omap proj (observe ev)))
      with (n - length (omap proj (observe ev)) + m) by lia.
    apply IH, Hk.
Qed.

Lemma shows_perform (ev : cevent) :
  Spec.shows_at_most proj (length (omap proj (observe ev))) (perform ev).
Proof. split; [lia|]. intros r. exact I. Qed.

Lemma shows_of_res {A} (r : res A) : Spec.shows_at_most proj 0 (of_res r : cprog A).
Proof. destruct r; exact I. Qed.

(** The bound holds of every run. *)
Lemma shows_run {A} (n : nat) (p : cprog A) env c :
  Spec.shows_at_most proj n p →
  length (omap proj (observed (fst (Session.run env p c))))
  ≤ length (omap proj (observed c)) + n.
Proof.
  revert n c. induction p as [a|e|ev k IH]; intros n c Hp; [cbn; lia|cbn; lia|].
  destruct Hp as [Hev Hk]. cbn [Session.run].
  destruct (react ev (now c)) as [[r w']|].
  - etransitivity; [apply (IH r _ _ (Hk r))|].
    cbn [observed proceed]. rewrite omap_app, length_app. lia.
  - destruct (oracle env (awaits c) ev) as [r|].
    + etransitivity; [apply (IH r _ _ (Hk r))|].
      cbn [observed resume]. rewrite omap_app, length_app. lia.
    + cbn [fst observed suspend]. rewrite omap_app, length_app. lia.
Qed.

End Counting.

Ltac shows_step :=
  lazymatch goal with
  | |- True => exact I
  | |- _ ∧ _ => split
  | |- ∀ _, _ => intros ?
  | |- _ ≤ _ => cbn; lia
  | |- Spec.shows_at_most _ _ ?p =>
      first
        [ progress cbn [Spec.shows_at_most mbind prog_bind bind perform of_res
                        try_catch finally]
        | match p with
          | context [if ?b then _ else _] => destruct b
          | context [match ?x with _ => _ end] => destruct x
          | context [of_res ?r] => destruct r
          end ]
  end.

Ltac shows := repeat shows_step.

Section Clicks.
Context `{JsRuntime}.

Ltac unfold_scripts :=
  unfold Plain.handle_response, WithContext.handle_response,
    Plain.insertTextIntoElement, WithContext.insertTextIntoElement,
    obtain_question, the_active_element, the_field, body_contains_active,
    reset_processing, reset_cancelled,
    ContextHandler.Screenshot.capturePageContext, captureScreenshot,
    ContextHandler.Reader.capturePageContext, capturePageContext_with,
    isPublicWebpage, captureWithJina, captureDirectPageContent.

(** Capturing the page asks the background at most once, for the
    screenshot, and only in the variant that takes one; it sends no
    question and writes nothing. *)
Lemma capture_counts :
  (Spec.shows_at_most Spec.capture_request 1 ContextHandler.Screenshot.capturePageContext
   ∧ Spec.shows_at_most Spec.sent_message 0 ContextHandler.Screenshot.capturePageContext
   ∧ Spec.shows_at_most Spec.background_message 1
       ContextHandler.Screenshot.capturePageContext
   ∧ Spec.shows_at_most Spec.write 0 ContextHandler.Screenshot.capturePageContext)
  ∧ (Spec.shows_at_most Spec.capture_request 0 ContextHandler.Reader.capturePageContext
     ∧ Spec.shows_at_most Spec.sent_message 0 ContextHandler.Reader.capturePageContext
     ∧ Spec.shows_at_most Spec.background_message 0
         ContextHandler.Reader.capturePageContext
     ∧ Spec.shows_at_most Spec.write 0 ContextHandler.Reader.capturePageContext).
Proof. repeat split; unfold_scripts; shows. Qed.

Lemma obtain_question_is_silent (settings : settings) :
  Spec.shows_at_most Spec.capture_request 0 (obtain_question settings)
  ∧ Spec.shows_at_most Spec.sent_message 0 (obtain_question settings)
  ∧ Spec.shows_at_most Spec.background_message 0 (obtain_question settings)
  ∧ Spec.shows_at_most Spec.write 0 (obtain_question settings).
Proof. repeat split; unfold_scripts; shows. Qed.

Lemma reset_is_silent :
  (Spec.shows_at_most Spec.capture_request 0 reset_processing
   ∧ Spec.shows_at_most Spec.sent_message 0 reset_processing
   ∧ Spec.shows_at_most Spec.background_message 0 reset_processing
   ∧ Spec.shows_at_most Spec.write 0 reset_processing)
  ∧ (Spec.shows_at_most Spec.capture_request 0 reset_cancelled
     ∧ Spec.shows_at_most Spec.sent_message 0 reset_cancelled
     ∧ Spec.shows_at_most Spec.background_message 0 reset_cancelled
     ∧ Spec.shows_at_most Spec.write 0 reset_cancelled).
Proof. repeat split; unfold_scripts; shows. Qed.

Lemma handle_response_writes_once (response : option Background.ask_result) :
  (Spec.shows_at_most Spec.capture_request 0 (Plain.handle_response response)
   ∧ Spec.shows_at_most Spec.sent_message 0 (Plain.handle_response response)
   ∧ Spec.shows_at_most Spec.background_message 0 (Plain.handle_response response)
   ∧ Spec.shows_at_most Spec.write 1 (Plain.handle_response response))
  ∧ (Spec.shows_at_most Spec.capture_request 0 (WithContext.handle_response response)
     ∧ Spec.shows_at_most Spec.sent_message 0 (WithContext.handle_response response)
     ∧ Spec.shows_at_most Spec.background_message 0
         (WithContext.handle_response response)
     ∧ Spec.shows_at_most Spec.write 1 (WithContext.handle_response response)).
Proof. repeat split; unfold_scripts; shows. Qed.

Section Handlers.
Context {B : Type} (proj : effect → option B).
(** The events that a handler performs outside the capture of the page
    and the handling of the answer show nothing of the kind, the message
    with the question apart. *)
Hypothesis Hstart : ∀ ev : cevent,
  match ev with
  | RuntimeSendMessage _ | RuntimeCaptureScreenshot | FetchReader _
  | WriteField _ _ | SetTimeout _ _ => True
  | _ => omap proj (observe ev) = []
  end.
Hypothesis Hquestion : ∀ settings, Spec.shows_at_most proj 0 (obtain_question settings).
Hypothesis Hcancelled : Spec.shows_at_most proj 0 reset_cancelled.
Hypothesis Hreset : Spec.shows_at_most proj 0 reset_processing.

(** [sent] bounds what the message with the question shows of the kind,
    [handled] what the handling of the answer shows. *)
Variables sent handled : nat.
Hypothesis Hsent : ∀ m, length (omap proj (observe (RuntimeSendMessage m))) ≤ sent.
Hypothesis Hplain : ∀ response,
  Spec.shows_at_most proj handled (Plain.handle_response response).
Hypothesis Hwith : ∀ response,
  Spec.shows_at_most proj handled (WithContext.handle_response response).

Lemma quiet (ev : cevent) :
  omap proj (observe ev) = [] → Spec.shows_at_most proj 0 (perform ev).
Proof. intros Hev. split; [rewrite Hev; cbn; lia|]. intros r. exact I. Qed.

Lemma plain_ask_shows settings (question : jsstring) :
  Spec.shows_at_most proj (sent + handled) (Plain.ask settings question).
Proof using Hsent Hplain.
  unfold Plain.ask. apply shows_bind.
  - split; [apply Hsent|]. intros r. exact I.
  - intros response. apply (shows_bind proj 0 handled); [apply shows_of_res|].
    intros r. apply Hplain.
Qed.

Lemma plain_request_shows :
  Spec.shows_at_most proj (sent + handled) Plain.request.
Proof using Hstart Hquestion Hcancelled Hsent Hplain.
  unfold Plain.request.
  apply (shows_bind proj 0); [apply quiet, (Hstart (WriteIsProcessing true))|]. intros _.
  apply (shows_bind proj 0); [apply quiet, (Hstart (ButtonProcessing true))|]. intros _.
  apply (shows_bind proj 0); [apply quiet, (Hstart StorageGet)|]. intros stored.
  apply (shows_bind proj 0); [apply shows_of_res|]. intros settings.
  apply (shows_bind proj 0); [apply Hquestion|]. intros question.
  destruct (negb (nonempty question)).
  - apply (shows_weaken proj 0); [lia|apply Hcancelled].
  - apply plain_ask_shows.
Qed.

Lemma guarded_shows (n : nat) (body : cprog unit) :
  Spec.shows_at_most proj n body → Spec.shows_at_most proj n (guarded body).
Proof using Hstart Hreset.
  intros Hbody. unfold guarded.
  apply (shows_weaken proj (n + 0 + 0)); [lia|].
  apply shows_finally; [|exact Hreset].
  apply shows_try_catch; [exact Hbody|].
  intros e. apply quiet, (Hstart (ShowNotification _)).
Qed.

Lemma plain_click_shows :
  Spec.shows_at_most proj (sent + handled) Plain.handleClaudeButtonClick.
Proof using Hstart Hquestion Hcancelled Hreset Hsent Hplain.
  unfold Plain.handleClaudeButtonClick.
  apply (shows_bind proj 0); [apply quiet, (Hstart ReadIsProcessing)|]. intros isProcessing.
  apply (shows_bind proj 0).
  { destruct isProcessing; [apply quiet, (Hstart ReadConversationUrl)|exact I]. }
  intros [[|x url]|].
  - apply (shows_bind proj 0); [apply quiet, (Hstart ReadActiveElement)|].
    intros [h|]; [|exact I]. apply guarded_shows, plain_request_shows.
  - apply (shows_weaken proj 0); [lia|]. apply quiet, (Hstart (WindowOpen _)).
  - apply (shows_bind proj 0); [apply quiet, (Hstart ReadActiveElement)|].
    intros [h|]; [|exact I]. apply guarded_shows, plain_request_shows.
Qed.

Lemma the_active_element_shows : Spec.shows_at_most proj 0 the_active_element.
Proof using Hstart.
  unfold the_active_element.
  apply (shows_bind proj 0 0); [apply quiet, (Hstart ReadActiveElement)|].
  intros [h|]; exact I.
Qed.

Lemma the_field_shows (h : handle) : Spec.shows_at_most proj 0 (the_field h).
Proof using Hstart.
  unfold the_field.
  apply (shows_bind proj 0 0); [apply quiet, (Hstart (ReadField h))|].
  intros [f|]; exact I.
Qed.

Section Capture.
Context {context : Type}
        (capturePageContext : cprog context)
        (createEnhancedPrompt : jsstring → context → jsstring).
(** [captured] bounds what the capture of the page shows of the kind. *)
Variable captured : nat.
Hypothesis Hcapture : Spec.shows_at_most proj captured capturePageContext.

Lemma context_ask_shows settings (question : jsstring) :
  Spec.shows_at_most proj (captured + (sent + handled))
    (WithContext.ask capturePageContext createEnhancedPrompt settings question).
Proof using Hsent Hwith Hcapture.
  unfold WithContext.ask.
  apply shows_bind; [exact Hcapture|]. intros pageContext.
  apply shows_bind.
  - split; [apply Hsent|]. intros r. exact I.
  - intros response. apply (shows_bind proj 0 handled); [apply shows_of_res|].
    intros r. apply Hwith.
Qed.

Lemma context_request_shows :
  Spec.shows_at_most proj (captured + (sent + handled))
    (WithContext.request capturePageContext createEnhancedPrompt).
Proof using Hstart Hquestion Hcancelled Hsent Hwith Hcapture.
  unfold WithContext.request.
  apply (shows_bind proj 0); [apply quiet, (Hstart (WriteIsProcessing true))|]. intros _.
  apply (shows_bind proj 0); [apply quiet, (Hstart (ButtonProcessing true))|]. intros _.
  apply (shows_bind proj 0); [apply the_active_element_shows|]. intros h.
  apply (shows_bind proj 0); [apply quiet, (Hstart (Focus h))|]. intros _.
  apply (shows_bind proj 0); [apply the_active_element_shows|]. intros h'.
  apply (shows_bind proj 0); [apply the_field_shows|]. intros f.
  apply (shows_bind proj 0).
  { destruct (_ || _ || _); [|exact I].
    apply (shows_bind proj 0 0); [apply the_active_element_shows|]. intros h1.
    apply (shows_bind proj 0 0); [apply quiet, (Hstart (Click h1))|]. intros _.
    apply (shows_bind proj 0 0); [apply quiet, (Hstart (Delay 100))|]. intros _.
    apply (shows_bind proj 0 0); [apply the_active_element_shows|]. intros h2.
    apply quiet, (Hstart (Focus h2)). }
  intros _.
  apply (shows_bind proj 0); [apply quiet, (Hstart StorageGet)|]. intros stored.
  apply (shows_bind proj 0); [apply shows_of_res|]. intros settings.
  apply (shows_bind proj 0); [apply Hquestion|]. intros question.
  destruct (negb (nonempty question)).
  - apply (shows_weaken proj 0); [lia|apply Hcancelled].
  - apply context_ask_shows.
Qed.

Lemma context_click_shows :
  Spec.shows_at_most proj (captured + (sent + handled))
    (WithContext.handleClaudeButtonClick capturePageContext createEnhancedPrompt).
Proof using Hstart Hquestion Hcancelled Hreset Hsent Hwith Hcapture.
  unfold WithContext.handleClaudeButtonClick.
  apply (shows_bind proj 0); [apply quiet, (Hstart ReadIsProcessing)|]. intros isProcessing.
  apply (shows_bind proj 0).
  { destruct isProcessing; [apply quiet, (Hstart ReadConversationUrl)|exact I]. }
  intros [[|x url]|].
  - apply (shows_bind proj 0); [apply quiet, (Hstart ReadActiveElement)|].
    intros [h|]; [|exact I]. apply guarded_shows, context_request_shows.
  - apply (shows_weaken proj 0); [lia|]. apply quiet, (Hstart (WindowOpen _)).
  - apply (shows_bind proj 0); [apply quiet, (Hstart ReadActiveElement)|].
    intros [h|]; [|exact I]. apply guarded_shows, context_request_shows.
Qed.

End Capture.

End Handlers.

Ltac side_conditions :=
  try (intros []; cbn; solve [exact I | reflexivity | lia]);
  try intros ?;
  first [apply obtain_question_is_silent | apply reset_is_silent
        | apply handle_response_writes_once].

(** The second script: no message for a screenshot, one with the
    question, one write. *)
Lemma plain_click_counts :
  Spec.shows_at_most Spec.capture_request 0 Plain.handleClaudeButtonClick
  ∧ Spec.shows_at_most Spec.sent_message 1 Plain.handleClaudeButtonClick
  ∧ Spec.shows_at_most Spec.background_message 1 Plain.handleClaudeButtonClick
  ∧ Spec.shows_at_most Spec.write 1 Plain.handleClaudeButtonClick.
Proof.
  split; [|split; [|split]].
  - apply (plain_click_shows Spec.capture_request) with (sent := 0) (handled := 0);
      side_conditions.
  - apply (plain_click_shows Spec.sent_message) with (sent := 1) (handled := 0);
      side_conditions.
  - apply (plain_click_shows Spec.background_message) with (sent := 1) (handled := 0);
      side_conditions.
  - apply (plain_click_shows Spec.write) with (sent := 0) (handled := 1);
      side_conditions.
Qed.

(** The first script, with a capture that asks the background at most
    [captures] times. *)
Lemma context_click_counts {context : Type} (capturePageContext : cprog context)
    (createEnhancedPrompt : jsstring → context → jsstring) (captures : nat) :
  Spec.shows_at_most Spec.capture_request captures capturePageContext
  ∧ Spec.shows_at_most Spec.sent_message 0 capturePageContext
  ∧ Spec.shows_at_most Spec.background_message captures capturePageContext
  ∧ Spec.shows_at_most Spec.write 0 capturePageContext →
  let script :=
    WithContext.handleClaudeButtonClick capturePageContext createEnhancedPrompt in
  Spec.shows_at_most Spec.capture_request captures script
  ∧ Spec.shows_at_most Spec.sent_message 1 script
  ∧ Spec.shows_at_most Spec.background_message (captures + 1) script
  ∧ Spec.shows_at_most Spec.write 1 script.
Proof using All.
  intros (Hcaptures & Hsent & Hall & Hwrite) script. subst script.
  split; [|split; [|split]].
  - apply (shows_weaken Spec.capture_request (captures + (0 + 0))); [lia|].
    apply (context_click_shows Spec.capture_request) with (sent := 0) (handled := 0);
      try exact Hcaptures; side_conditions.
  - apply (context_click_shows Spec.sent_message) with (sent := 1) (handled := 0)
                                                      (captured := 0);
      try exact Hsent; side_conditions.
  - apply (shows_weaken Spec.background_message (captures + (1 + 0))); [lia|].
    apply (context_click_shows Spec.background_message) with (sent := 1) (handled := 0);
      try exact Hall; side_conditions.
  - apply (context_click_shows Spec.write) with (sent := 0) (handled := 1)
                                               (captured := 0);
      try exact Hwrite; side_conditions.
Qed.

(** One click on the button sends the background at most one message
    with the question, in either script and with either variant of the
    page capture, and writes to a field at most once, at once or from the
    timer it sets. The screenshot variant asks the background for the
    screenshot before, so it sends at most two messages, one of each
    action; the second script and the reader variant send at most one.
    This holds whatever the page, the user and the background answer, and
    also when the handler fails or never resumes. *)
Theorem click_messages_and_writes_are_bounded (env : cenv) (w : world) :
  let log (script : cprog unit) := observed (fst (Session.run env script (start w))) in
  let bounded (captures : nat) (script : cprog unit) :=
    length (omap Spec.capture_request (log script)) ≤ captures
    ∧ length (Spec.sent_messages (log script)) ≤ 1
    ∧ length (Spec.background_messages (log script)) ≤ captures + 1
    ∧ length (Spec.writes (log script)) ≤ 1 in
  bounded 0 Plain.handleClaudeButtonClick
  ∧ bounded 0 (WithContext.handleClaudeButtonClick
                 ContextHandler.Reader.capturePageContext
                 ContextHandler.Reader.createEnhancedPrompt)
  ∧ bounded 1 (WithContext.handleClaudeButtonClick
                 ContextHandler.Screenshot.capturePageContext
                 ContextHandler.Screenshot.createEnhancedPrompt).
Proof.
  intros log bounded.
  assert (Hrun : ∀ captures script,
    Spec.shows_at_most Spec.capture_request captures script
    ∧ Spec.shows_at_most Spec.sent_message 1 script
    ∧ Spec.shows_at_most Spec.background_message (captures + 1) script
    ∧ Spec.shows_at_most Spec.write 1 script → bounded captures script).
  { intros captures script (Hcaptures & Hsent & Hall & Hwrite).
    split; [|split; [|split]].
    - exact (shows_run Spec.capture_request captures script env (start w) Hcaptures).
    - exact (shows_run Spec.sent_message 1 script env (start w) Hsent).
    - exact (shows_run Spec.background_message (captures + 1) script env (start w) Hall).
    - exact (shows_run Spec.write 1 script env (start w) Hwrite). }
  split; [|split]; apply Hrun.
  - apply plain_click_counts.
  - apply context_click_counts, capture_counts.
  - apply context_click_counts, capture_counts.
Qed.

End Clicks.

(** The two messages of the screenshot variant on the example page: the
    one for the screenshot, which is refused, then the question. *)
Example screenshot_variant_sends_two_messages :
  let env := Spec.quiet_page (Some (Ok (Some Spec.example_answer))) in
  let script :=
    WithContext.handleClaudeButtonClick
      ContextHandler.Screenshot.capturePageContext
      ContextHandler.Screenshot.createEnhancedPrompt in
  let log := observed (fst (Session.run env script
                              (start (Spec.page_with (Spec.attached Spec.textarea_summary))))) in
  omap Spec.capture_request log = [tt]
  ∧ length (Spec.sent_messages log) = 1
  ∧ length (Spec.background_messages log) = 2
  ∧ head (Spec.background_messages log) = Some None.
Proof. vm_compute. repeat split; reflexivity. Qed.

(** ** The first script writes from a timer *)

Section Deferred.
Context `{JsRuntime}.

Lemma lookup_focused (h k : handle) (w : world) (proj : field_state → jsstring) :
  (∀ st, proj (focused st) = proj st) →
  (proj ∘ state) <$> (fields (update_state h focused w) !! k)
  = (proj ∘ state) <$> (fields w !! k).
Proof.
  intros Hproj. unfold update_state, set_fields. cbn [fields].
  destruct (decide (h = k)) as [->|Hne].
  - rewrite lookup_alter_eq. destruct (fields w !! k) as [f|]; [|reflexivity].
    cbn. rewrite Hproj. reflexivity.
  - rewrite lookup_alter_ne by exact Hne. reflexivity.
Qed.

(** When the answer arrives, the first script focuses the active element,
    waits 50 ms, sets a timer of 50 ms that will write into the element
    active after the wait, and reports success at once: at the end of the
    handler no field has a new value or content, and with no other timer
    pending the text is written when the timer runs. *)
Theorem first_script_reports_before_it_writes env c (r : Background.ask_result)
    (h h' : handle) (f f' : field) :
  let text := Background.answer r in
  let later := interfere env (awaits c) (Spec.before_delay r h (now c)) in
  truthy text = true →
  activeElement (now c) = Some h →
  fields (now c) !! h = Some f →
  in_body f = true →
  oracle env (awaits c) (Delay 50) = Some tt →
  activeElement later = Some h' →
  fields later !! h' = Some f' →
  timers later = [] →
  let out := Session.run env (WithContext.handle_response (Some r)) c in
  let due := clock later + 50 in
  let focused_field := with_state f' (focused (state f')) in
  snd out = Finished (Ok tt)
  ∧ observed (fst out)
    = observed c ++ [Focused h; Focused h'; Scheduled 50 (DeferredInsert h' text);
                     Notified (lit "Claude has filled the field successfully!")]
  ∧ timers (now (fst out)) = [(due, DeferredInsert h' text)]
  ∧ (∀ k, (value ∘ state) <$> (fields (now (fst out)) !! k)
          = (value ∘ state) <$> (fields later !! k))
  ∧ (∀ k, (innerHTML ∘ state) <$> (fields (now (fst out)) !! k)
          = (innerHTML ∘ state) <$> (fields later !! k))
  ∧ fields (advance due (now (fst out))) !! h'
    = Some (with_state f' (insert_deferred focused_field text)).
Proof.
  intros text later Hanswer Hactive Hfield Hbody Hdelay Hactive' Hfield' Htimers
         out due focused_field.
  assert (Hurl : ∃ c1,
            Session.run env
              ((if nonempty (Background.chatUrl r)
                then perform (WriteConversationUrl (Some (Background.chatUrl r)))
                else Ret tt) : cprog unit) c
            = (c1, Finished (Ok tt))
            ∧ activeElement (now c1) = Some h
            ∧ fields (now c1) !! h = Some f
            ∧ awaits c1 = awaits c
            ∧ observed c1 = observed c
            ∧ update_state h focused (now c1) = Spec.before_delay r h (now c)).
  { unfold Spec.before_delay. destruct (nonempty (Background.chatUrl r)).
    - eexists. split; [reflexivity|].
      cbn [now observed proceed observe awaits set_url activeElement fields].
      rewrite app_nil_r. repeat split; assumption.
    - exists c. repeat split; assumption. }
  destruct Hurl as (c1 & Hurl & Hact & Hfld & Hawaits & Hlog & Hworld).
  subst out. unfold WithContext.handle_response. fold text. rewrite Hanswer.
  rewrite session_run_bind, Hurl.
  unfold body_contains_active, the_active_element.
  cbn [Session.run mbind prog_bind bind perform react now proceed].
  rewrite Hact.
  cbn [Session.run mbind prog_bind bind perform react now proceed].
  rewrite Hfld, Hbody.
  cbn [Session.run mbind prog_bind bind perform react now proceed].
  rewrite Hact.
  cbn [Session.run mbind prog_bind bind perform react now proceed awaits].
  rewrite Hawaits, Hdelay.
  cbn [Session.run mbind prog_bind bind perform react now proceed resume awaits].
  rewrite Hawaits, Hworld. fold later. rewrite Hactive'.
  unfold WithContext.insertTextIntoElement.
  cbn [Session.run mbind prog_bind bind perform react now proceed resume awaits
       observe observed fst snd].
  split; [reflexivity|].
  split; [rewrite Hlog, !app_nil_r, <- !app_assoc; reflexivity|].
  cbn [timers set_timers update_state set_fields clock fields].
  rewrite Htimers.
  split; [reflexivity|].
  split; [intros k; apply (lookup_focused h' k later value); reflexivity|].
  split; [intros k; apply (lookup_focused h' k later innerHTML); reflexivity|].
  unfold advance.
  cbn [timers set_timers update_state set_fields clock fields List.filter fst snd app].
  subst due. rewrite Nat.leb_refl.
  cbn [negb List.filter by_due_time foldl insert_due fst snd fire fields set_clock
       set_timers].
  assert (Hfocused : fields (update_state h' focused later) !! h' = Some focused_field).
  { unfold update_state, set_fields. cbn [fields].
    rewrite lookup_alter_eq, Hfield'. reflexivity. }
  rewrite Hfocused. unfold update_state at 1. unfold set_fields at 1.
  cbn [fields set_clock set_timers]. rewrite lookup_alter_eq, Hfocused. reflexivity.
Qed.

End Deferred.

Lemma first_script_reports_before_it_writes_witness :
  let env := Spec.focus_moves 0 (Some (Ok (Some Spec.example_answer))) in
  let out := Session.run env (WithContext.handle_response (Some Spec.example_answer))
               (start Spec.two_fields) in
  activeElement Spec.two_fields = Some 0
  ∧ Spec.notifications (observed (fst out))
    = [lit "Claude has filled the field successfully!"]
  ∧ (value ∘ state) <$> (fields (now (fst out)) !! 1) = Some []
  ∧ (value ∘ state)
    <$> (fields (@advance Spec.example_runtime 1050 (now (fst out))) !! 1)
    = Some (lit "This is a test.").
Proof.
  intros env out.
  destruct (first_script_reports_before_it_writes (H := Spec.example_runtime) env
              (start Spec.two_fields) Spec.example_answer 0 1
              (Spec.attached Spec.textarea_summary) (Spec.attached Spec.name_input))
    as (_ & Hlog & _ & Hvalue & _ & Hwritten); try reflexivity.
  split; [reflexivity|]. split; [|split].
  - exact (f_equal Spec.notifications Hlog).
  - exact (Hvalue 1).
  - exact (f_equal (fmap (value ∘ state)) Hwritten).
Defined.
